(** * Gesture-driven particle cloud

    A model of the three places where the program computes:
    - [HandController] (src/components/HandController.tsx): the callback that
      turns a frame of hand landmarks into a [HandState] and a clap event;
    - [App] (src/App.tsx): the session state, the smoothing of the hand state
      and the clap handler with its deferred shape switch;
    - [ParticleSystem] (src/components/ParticleSystem.tsx): the per-frame
      callback that moves the particle pool and the group transform.

    Numbers.  A JavaScript number is modelled as a real number: [+], [*], [/],
    [Math.sqrt], [Math.sin] and [Math.cos] are the exact operations of [R], so
    rounding, overflow and NaN are outside the model.  The one place where the
    code itself can produce NaN from finite input (the centroid of a hand with
    no landmark, [0/0]) is modelled by [None].  [Date.now()] is an integer
    number of milliseconds, modelled in [Z].  [Math.random()] is an input of
    the frame: the [k]-th call made during one frame returns [random k]. *)

From Stdlib Require Import String Reals Lra Lia ZArith Bool List.
Import ListNotations.
Open Scope R_scope.

(** ** JavaScript and three.js primitives used by the sources *)

Module JS.

(** [x < y] on numbers. *)
Definition ltb (x y : R) : bool := if Rlt_dec x y then true else false.

(** [x > y] on numbers. *)
Definition gtb (x y : R) : bool := ltb y x.

(** [Math.hypot(a, b)]. *)
Definition hypot (a b : R) : R := sqrt (a * a + b * b).

(** [Math.floor] of a number, as an array index. *)
Definition floorIndex (r : R) : nat := Z.to_nat (Int_part r).

(** [THREE.MathUtils.lerp(x, y, t)], which three.js defines as
    [(1 - t) * x + t * y]. *)
Definition lerp (x y t : R) : R := (1 - t) * x + t * y.

End JS.

Notation "x <- e ;; k" :=
  (match e with Some x => k | None => None end)
  (at level 61, e at next level, right associativity).

(** ** src/types.ts *)

Record Point3D : Type := mkPoint3D { ptx : R; pty : R; ptz : R }.

Record Point2D : Type := mkPoint2D { posx : R; posy : R }.

Inductive ShapeType : Type :=
| Sphere | Cube | Heart | Flower | Saturn | Fireworks | Buddha
| GeminiGenerated.

Record HandState : Type := mkHandState {
  isDetected : bool;
  position : Point2D;
  isPinching : bool;
  openness : R
}.

Definition ShapeType_eqb (a b : ShapeType) : bool :=
  match a, b with
  | Sphere, Sphere | Cube, Cube | Heart, Heart | Flower, Flower
  | Saturn, Saturn | Fireworks, Fireworks | Buddha, Buddha
  | GeminiGenerated, GeminiGenerated => true
  | _, _ => false
  end.

(** ** src/components/HandController.tsx *)

Module HandController.

Definition Landmark : Type := Point3D.
Definition Hand : Type := list Landmark.

(** [MPResults]: [multiHandLandmarks] may be absent. *)
Record MPResults : Type := mkResults {
  multiHandLandmarks : option (list Hand)
}.

(** What one call of the [onResults] callback does to its surroundings:
    the new [lastClapTime.current], whether [onClap()] was called, and the
    argument of [onHandUpdate] ([None] when reading a landmark that is not
    there throws before the call). *)
Record Effects : Type := mkEffects {
  lastClapTime : Z;
  clapped : bool;
  handUpdate : option HandState
}.

Definition PROXIMITY_THRESHOLD : R := 0.12.

(** [getCentroid]: the mean of the x and of the y coordinates.  For a hand
    with no landmark both are [0/0], NaN in JavaScript: [None]. *)
Definition getCentroid (landmarks : Hand) : option Point2D :=
  match landmarks with
  | [] => None
  | _ =>
    let sx := fold_left (fun acc p => acc + ptx p) landmarks 0 in
    let sy := fold_left (fun acc p => acc + pty p) landmarks 0 in
    Some (mkPoint2D (sx / INR (length landmarks)) (sy / INR (length landmarks)))
  end.

(** [Math.hypot(c1.x - c2.x, c1.y - c2.y)]; NaN ([None]) as soon as one
    centroid is. *)
Definition centroidDist (hand1 hand2 : Hand) : option R :=
  match getCentroid hand1, getCentroid hand2 with
  | Some c1, Some c2 => Some (JS.hypot (posx c1 - posx c2) (posy c1 - posy c2))
  | _, _ => None
  end.

(** [dist < PROXIMITY_THRESHOLD]; a comparison with NaN is false. *)
Definition handsClose (hand1 hand2 : Hand) : bool :=
  match centroidDist hand1 hand2 with
  | Some dist => JS.ltb dist PROXIMITY_THRESHOLD
  | None => false
  end.

(** The block under "TRIGGER: Hands Close Together": the new
    [lastClapTime.current] and whether [onClap()] is called. *)
Definition proximityTrigger (lastClap now : Z) (hands : list Hand) : Z * bool :=
  match hands with
  | [hand1; hand2] =>
    if handsClose hand1 hand2 then
      if (now - lastClap >? 1000)%Z then (now, true) else (lastClap, false)
    else (lastClap, false)
  | _ => (lastClap, false)
  end.

(** [Math.sqrt(Math.pow(a.x - b.x, 2) + Math.pow(a.y - b.y, 2))]. *)
Definition dist2D (a b : Landmark) : R :=
  sqrt ((ptx a - ptx b) ^ 2 + (pty a - pty b) ^ 2).

Definition tips : list nat := [8; 12; 16; 20]%nat.

(** The [tips.forEach] loop: [totalDist] after visiting [idxs]. *)
Fixpoint sumTipDist (hand : Hand) (wrist : Landmark) (idxs : list nat)
         (totalDist : R) : option R :=
  match idxs with
  | [] => Some totalDist
  | idx :: rest =>
    tip <- nth_error hand idx ;;
    sumTipDist hand wrist rest (totalDist + dist2D tip wrist)
  end.

Definition minOpen : R := 0.15.
Definition maxOpen : R := 0.40.

(** [Math.min(Math.max((avgDist - minOpen) / (maxOpen - minOpen), 0), 1)]. *)
Definition opennessOf (avgDist : R) : R :=
  Rmin (Rmax ((avgDist - minOpen) / (maxOpen - minOpen)) 0) 1.

(** The block under "Hand State Calculation" for the first hand. *)
Definition handStateOf (hand : Hand) : option HandState :=
  thumbTip <- nth_error hand 4 ;;
  indexTip <- nth_error hand 8 ;;
  let pinchDist := dist2D thumbTip indexTip in
  let isPinching := JS.ltb pinchDist 0.05 in
  palm <- nth_error hand 9 ;;
  let targetX :=
    if isPinching then (ptx thumbTip + ptx indexTip) / 2 else ptx palm in
  let targetY :=
    if isPinching then (pty thumbTip + pty indexTip) / 2 else pty palm in
  wrist <- nth_error hand 0 ;;
  totalDist <- sumTipDist hand wrist tips 0 ;;
  let avgDist := totalDist / 4 in
  Some (mkHandState true (mkPoint2D targetX targetY) isPinching
                    (opennessOf avgDist)).

(** The state sent when no hand is seen. *)
Definition noHand : HandState :=
  mkHandState false (mkPoint2D 0.5 0.5) false 0.

(** The logic part of the [hands.onResults] callback, everything under
    the comment "LOGIC".  The overlay that the callback draws before it is
    [HandOverlay.drawHandOverlay]; [HandCallback.callback] is the two
    together. *)
Definition onResults (lastClap now : Z) (results : MPResults) : Effects :=
  let hands :=
    match multiHandLandmarks results with Some hs => hs | None => [] end in
  let numHands := length hands in
  let isCurrentlyDetected := negb (Nat.eqb numHands 0) in
  let '(lastClap', clap) := proximityTrigger lastClap now hands in
  let update :=
    if isCurrentlyDetected then
      match hands with
      | hand :: _ => handStateOf hand
      | [] => None
      end
    else Some noHand in
  mkEffects lastClap' clap update.

(** A run of the callback over successive frames, each with the value
    [Date.now()] had when it arrived: the [Effects] of every frame, in
    order. *)
Fixpoint run (lastClap : Z) (frames : list (Z * MPResults)) : list Effects :=
  match frames with
  | [] => []
  | (now, results) :: rest =>
    let e := onResults lastClap now results in
    e :: run (lastClapTime e) rest
  end.

End HandController.

(** ** src/App.tsx *)

Module App.

(** A [setTimeout] callback of [handleClap] that is still pending: its delay
    in milliseconds and the [shapeType] its closure captured. *)
Record Timeout : Type := mkTimeout {
  delay : Z;
  capturedShapeType : ShapeType
}.

(** The [useState] cells of [App], and the pending timeouts. *)
Record Session : Type := mkSession {
  handState : HandState;
  shapeType : ShapeType;
  targetPoints : list Point3D;
  color : string;
  isExploding : bool;
  timeouts : list Timeout
}.

(** [Object.values(ShapeType)], in declaration order. *)
Definition shapeValues : list ShapeType :=
  [Sphere; Cube; Heart; Flower; Saturn; Fireworks; Buddha; GeminiGenerated].

Definition colors : list string :=
  ["#f43f5e"; "#3b82f6"; "#22c55e"; "#eab308"; "#a855f7"; "#ec4899";
   "#ffffff"]%string.

Section WithGenerator.

(** [generateMathShape] of src/services/shapeGenerator.ts: the cloud it
    returns for a shape.  Its random sampling is not modelled. *)
Variable generateMathShape : ShapeType -> list Point3D.

Definition initial : Session :=
  mkSession (mkHandState false (mkPoint2D 0.5 0.5) false 0)
            Heart [] "#f43f5e"%string false [].

(** The [useEffect] on [shapeType]. *)
Definition loadShape (s : Session) : Session :=
  if negb (ShapeType_eqb (shapeType s) GeminiGenerated)
     && negb (ShapeType_eqb (shapeType s) Buddha)
  then mkSession (handState s) (shapeType s)
                 (generateMathShape (shapeType s))
                 (color s) (isExploding s) (timeouts s)
  else s.

(** [handleHandUpdate]: the new state with [openness] and [position]
    replaced by a blend of the previous and the new values. *)
Definition smooth (prev state : HandState) : HandState :=
  mkHandState
    (isDetected state)
    (mkPoint2D (posx (position prev) * 0.7 + posx (position state) * 0.3)
               (posy (position prev) * 0.7 + posy (position state) * 0.3))
    (isPinching state)
    (openness prev * 0.7 + openness state * 0.3).

Definition handleHandUpdate (state : HandState) (s : Session) : Session :=
  mkSession (smooth (handState s) state) (shapeType s) (targetPoints s)
            (color s) (isExploding s) (timeouts s).

(** [handleClap]: the callback is rebuilt whenever [isExploding] or
    [shapeType] changes, so it reads the values of the session. *)
Definition handleClap (s : Session) : Session :=
  if isExploding s then s
  else mkSession (handState s) (shapeType s) (targetPoints s) (color s)
                 true
                 (timeouts s ++ [mkTimeout 500 (shapeType s)]).

(** The body of the timeout callback; [r1] and [r2] are the two values of
    [Math.random()], in [[0,1)], so both indices are in range. *)
Definition switchShape (t : Timeout) (r1 r2 : R) (s : Session) : Session :=
  let shapes :=
    filter (fun sh => negb (ShapeType_eqb sh GeminiGenerated)
                      && negb (ShapeType_eqb sh Buddha)
                      && negb (ShapeType_eqb sh (capturedShapeType t)))
           shapeValues in
  let availableShapes :=
    match shapes with [] => shapeValues | _ => shapes end in
  let nextShape :=
    nth (JS.floorIndex (r1 * INR (length availableShapes)))
        availableShapes Sphere in
  let nextColor :=
    nth (JS.floorIndex (r2 * INR (length colors))) colors ""%string in
  mkSession (handState s) nextShape (generateMathShape nextShape)
            nextColor false (timeouts s).

(** The oldest pending timeout expires. *)
Definition fireTimeout (r1 r2 : R) (s : Session) : Session :=
  match timeouts s with
  | [] => s
  | t :: rest =>
    switchShape t r1 r2
      (mkSession (handState s) (shapeType s) (targetPoints s) (color s)
                 (isExploding s) rest)
  end.

Definition handleShapeChange (type : ShapeType)
           (points : option (list Point3D)) (s : Session) : Session :=
  mkSession (handState s) type
            (match points with
             | Some pts => pts
             | None => generateMathShape type
             end)
            (color s) (isExploding s) (timeouts s).

Definition setColor (c : string) (s : Session) : Session :=
  mkSession (handState s) (shapeType s) (targetPoints s) c
            (isExploding s) (timeouts s).

(** The sessions the handlers can produce from the initial one. *)
Inductive reachable : Session -> Prop :=
| reach_initial : reachable initial
| reach_loadShape s : reachable s -> reachable (loadShape s)
| reach_handUpdate state s :
    reachable s -> reachable (handleHandUpdate state s)
| reach_clap s : reachable s -> reachable (handleClap s)
| reach_timeout r1 r2 s : reachable s -> reachable (fireTimeout r1 r2 s)
| reach_shapeChange type points s :
    reachable s -> reachable (handleShapeChange type points s)
| reach_setColor c s : reachable s -> reachable (setColor c s).

End WithGenerator.

End App.

(** ** src/components/ParticleSystem.tsx *)

Module ParticleSystem.

Definition COUNT : nat := 1500.

Record Viewport : Type := mkViewport { width : R; height : R }.

(** [groupRef.current]: position and Euler rotation. *)
Record Group : Type := mkGroup {
  gposition : Point3D;
  rotation : Point3D
}.

(** One instance matrix: [dummy.position] and the uniform [dummy.scale]. *)
Record Instance : Type := mkInstance { iposition : Point3D; iscale : R }.

(** What persists between frames: the refs and the mesh. *)
Record Animator : Type := mkAnimator {
  currentPositions : list Point3D;
  prevHandPos : option Point2D;
  group : Group;
  instanceMatrix : list Instance;
  materialColor : string
}.

(** What one call of the [useFrame] callback reads: the props of the
    component, the viewport and clock of the renderer, and the values of
    [Math.random()]. *)
Record Frame : Type := mkFrame {
  targetPoints : list Point3D;
  handState : HandState;
  color : string;
  isExploding : bool;
  viewport : Viewport;
  time : R;
  random : nat -> R
}.

(** [Vector3.lerp(v, alpha)] of three.js: each component moves by
    [(v - this) * alpha]. *)
Definition lerpVector (this v : Point3D) (alpha : R) : Point3D :=
  mkPoint3D (ptx this + (ptx v - ptx this) * alpha)
            (pty this + (pty v - pty this) * alpha)
            (ptz this + (ptz v - ptz this) * alpha).

(** [for (let i = 0; i < COUNT; i++) { const current = pool[i]; ... }]:
    [n] iterations from index [i] over the rest of the pool.  Reading the
    fields of a particle that is not there throws: [None]. *)
Fixpoint forEachParticle (body : nat -> Point3D -> Point3D) (n i : nat)
         (pool : list Point3D) : option (list Point3D) :=
  match n with
  | O => Some pool
  | S n' =>
    match pool with
    | [] => None
    | current :: rest =>
      rest' <- forEachParticle body n' (S i) rest ;;
      Some (body i current :: rest')
    end
  end.

Definition baseSpeed : R := 1.08.

(** The body of the explosion loop. *)
Definition explode (i : nat) (current : Point3D) : Point3D :=
  let variation := 1.0 + INR (i mod 10) * 0.004 in
  let speed := baseSpeed * variation in
  mkPoint3D (ptx current * speed) (pty current * speed) (ptz current * speed).

(** "1. Move Logic (Pinch)". *)
Definition move (f : Frame) (g : Point3D) : Point3D :=
  let h := handState f in
  if isDetected h && isPinching h then
    let targetX := - (posx (position h) - 0.5) * width (viewport f) in
    let targetY := - (posy (position h) - 0.5) * height (viewport f) in
    lerpVector g (mkPoint3D targetX targetY 0) 0.15
  else g.

(** "2. Rotate Logic (Flat Palm + Movement)". *)
Definition rotate (f : Frame) (prev : option Point2D) (r : Point3D) : Point3D :=
  let h := handState f in
  if isDetected h && negb (isPinching h) && JS.gtb (openness h) 0.6 then
    match prev with
    | Some p =>
      let dx := posx (position h) - posx p in
      let dy := posy (position h) - posy p in
      let sensitivity := 5.0 in
      mkPoint3D (ptx r + dy * sensitivity) (pty r + dx * sensitivity) (ptz r)
    | None => r
    end
  else mkPoint3D (ptx r) (pty r + 0.001) (ptz r).

(** "3. Expand/Compress Logic". *)
Definition targetScaleOf (h : HandState) : R :=
  if isDetected h then
    if isPinching h then 1.0 else 0.2 + openness h * 1.3
  else 1.5.

(** [targetPoints.length || 1]. *)
Definition targetLen (targetPoints : list Point3D) : nat :=
  match length targetPoints with O => 1%nat | len => len end.

(** [targetPoints[i % targetLen] || { x: 0, y: 0, z: 0 }]. *)
Definition targetOf (targetPoints : list Point3D) (i : nat) : Point3D :=
  match nth_error targetPoints (i mod targetLen targetPoints) with
  | Some target => target
  | None => mkPoint3D 0 0 0
  end.

Definition lerpSpeed : R := 0.1.

(** The first half of the body of the steady-state loop: the three
    [THREE.MathUtils.lerp] assignments towards the scaled target. *)
Definition lerped (f : Frame) (i : nat) (current : Point3D) : Point3D :=
  let targetScale := targetScaleOf (handState f) in
  let target := targetOf (targetPoints f) i in
  let tx := ptx target * targetScale in
  let ty := pty target * targetScale in
  let tz := ptz target * targetScale in
  mkPoint3D (JS.lerp (ptx current) tx lerpSpeed)
            (JS.lerp (pty current) ty lerpSpeed)
            (JS.lerp (ptz current) tz lerpSpeed).

(** The second half, "Add life only when not pinching tightly": nothing
    while pinching, random jitter when compressed, a sinusoidal drift on x
    and y otherwise. *)
Definition addLife (f : Frame) (i : nat) (current : Point3D) : Point3D :=
  let h := handState f in
  if isDetected h && isPinching h then current
  else if isDetected h && JS.ltb (openness h) 0.2 then
    mkPoint3D (ptx current + (random f (3 * i) - 0.5) * 0.05)
              (pty current + (random f (3 * i + 1) - 0.5) * 0.05)
              (ptz current + (random f (3 * i + 2) - 0.5) * 0.05)
  else
    mkPoint3D (ptx current + sin (time f * 0.5 + INR i) * 0.002)
              (pty current + cos (time f * 0.3 + INR i) * 0.002)
              (ptz current).

(** The body of the steady-state loop. *)
Definition blend (f : Frame) (i : nat) (current : Point3D) : Point3D :=
  addLife f i (lerped f i current).

(** The scale of every particle in the steady state. *)
Definition particleScale (h : HandState) : R :=
  let effectiveOpenness :=
    if isDetected h then (if isPinching h then 0.6 else openness h)
    else 1.0 in
  0.02 * (0.5 + effectiveOpenness).

(** The matrices written by [setMatrixAt] for the first [COUNT] particles;
    the mesh has exactly [COUNT] instances. *)
Definition matrices (pScale : R) (pool : list Point3D) : list Instance :=
  map (fun p => mkInstance p pScale) (firstn COUNT pool).

(** The [useFrame] callback, with the mesh and the group mounted. *)
Definition useFrame (f : Frame) (a : Animator) : option Animator :=
  let finalColor := if isExploding f then "#ffffff"%string else color f in
  if isExploding f then
    pool <- forEachParticle explode COUNT 0 (currentPositions a) ;;
    let r := rotation (group a) in
    Some (mkAnimator pool (prevHandPos a)
            (mkGroup (gposition (group a))
                     (mkPoint3D (ptx r) (pty r + 0.2) (ptz r + 0.1)))
            (matrices 0.04 pool) finalColor)
  else
    let h := handState f in
    let g := mkGroup (move f (gposition (group a)))
                     (rotate f (prevHandPos a) (rotation (group a))) in
    let prev := if isDetected h then Some (position h) else None in
    pool <- forEachParticle (blend f) COUNT 0 (currentPositions a) ;;
    Some (mkAnimator pool prev g (matrices (particleScale h) pool) finalColor).

(** Successive frames. *)
Fixpoint frames (fs : list Frame) (a : Animator) : option Animator :=
  match fs with
  | [] => Some a
  | f :: rest => a' <- useFrame f a ;; frames rest a'
  end.

End ParticleSystem.

(** ** src/services/shapeGenerator.ts *)

Module ShapeGenerator.

Definition COUNT : nat := 1500.

(** A computation that calls [Math.random()]: from the number of calls made
    so far to its result and the number of calls made after it. *)
Definition Gen (A : Type) : Type := nat -> A * nat.

Definition ret {A : Type} (x : A) : Gen A := fun k => (x, k).

Definition bind {A B : Type} (m : Gen A) (f : A -> Gen B) : Gen B :=
  fun k => let (x, k') := m k in f x k'.

Notation "'let*' x ':=' m 'in' f" := (bind m (fun x => f))
  (at level 10, x name, m at level 100, f at level 200).

Section WithRandom.

(** The values [Math.random()] returns during one call of
    [generateMathShape], in the order of the calls. *)
Variable random : nat -> R.

Definition mathRandom : Gen R := fun k => (random k, S k).

(** [for (let i = 0; i < COUNT; i++) points.push(...)]: [n] passes from
    index [i], each pushing the point made by [body]. *)
Fixpoint pushLoop (body : nat -> Gen Point3D) (n i : nat)
         (points : list Point3D) : Gen (list Point3D) :=
  match n with
  | O => ret points
  | S n' =>
    let* p := body i in pushLoop body n' (S i) (points ++ [p])
  end.

(** [for (let i = 0; i < bound; i++) points.push(...)] for a bound that is
    not an integer expression ([COUNT * 0.4]): the test is made on every
    pass; [fuel] bounds the number of passes. *)
Fixpoint pushWhile (bound : R) (body : nat -> Gen Point3D) (fuel i : nat)
         (points : list Point3D) : Gen (list Point3D) :=
  match fuel with
  | O => ret points
  | S fuel' =>
    if JS.ltb (INR i) bound then
      let* p := body i in pushWhile bound body fuel' (S i) (points ++ [p])
    else ret points
  end.

(** The body of the sphere loop, and of the planet loop of Saturn, which
    differ by the radius [r] only. *)
Definition onSphere (r : R) (i : nat) : Gen Point3D :=
  let* u1 := mathRandom in
  let theta := u1 * PI * 2 in
  let* u2 := mathRandom in
  let phi := acos (u2 * 2 - 1) in
  ret (mkPoint3D (r * sin phi * cos theta)
                 (r * sin phi * sin theta)
                 (r * cos phi)).

Definition spherePoint : nat -> Gen Point3D := onSphere 1.

Definition cubePoint (i : nat) : Gen Point3D :=
  let* u1 := mathRandom in
  let* u2 := mathRandom in
  let* u3 := mathRandom in
  ret (mkPoint3D ((u1 - 0.5) * 2) ((u2 - 0.5) * 2) ((u3 - 0.5) * 2)).

Definition heartPoint (i : nat) : Gen Point3D :=
  let* u1 := mathRandom in
  let t := u1 * PI * 2 in
  let* u2 := mathRandom in
  let u := u2 * PI in
  let x := 16 * sin t ^ 3 in
  let y :=
    13 * cos t - 5 * cos (2 * t) - 2 * cos (3 * t) - cos (4 * t) in
  let* u3 := mathRandom in
  let z := (u3 - 0.5) * 5 in
  ret (mkPoint3D (x / 20) (y / 20) (z / 20)).

Definition flowerPoint (i : nat) : Gen Point3D :=
  let r := sqrt (INR i / INR COUNT) in
  let theta := INR i * 2.39996 in
  let petality := sin (theta * 5) in
  let x := r * cos theta * (0.5 + 0.5 * petality) in
  let y := r * sin theta * (0.5 + 0.5 * petality) in
  let* u1 := mathRandom in
  let z := (u1 - 0.5) * 0.5 in
  ret (mkPoint3D (x * 1.5) (y * 1.5) z).

Definition planetPoint : nat -> Gen Point3D := onSphere 0.4.

Definition ringPoint (i : nat) : Gen Point3D :=
  let* u1 := mathRandom in
  let theta := u1 * PI * 2 in
  let* u2 := mathRandom in
  let r := 0.6 + u2 * 0.4 in
  let* u3 := mathRandom in
  ret (mkPoint3D (r * cos theta) ((u3 - 0.5) * 0.05) (r * sin theta)).

Definition fireworksPoint (i : nat) : Gen Point3D :=
  let* u1 := mathRandom in
  let theta := u1 * PI * 2 in
  let* u2 := mathRandom in
  let phi := u2 * PI in
  let* u3 := mathRandom in
  let r := u3 in
  ret (mkPoint3D (r * sin phi * cos theta)
                 (r * sin phi * sin theta)
                 (r * cos phi)).

(** The [switch]; the [default] branch calls the function again for the
    sphere. *)
Definition generate (type : ShapeType) : Gen (list Point3D) :=
  match type with
  | Sphere => pushLoop spherePoint COUNT 0 []
  | Cube => pushLoop cubePoint COUNT 0 []
  | Heart => pushLoop heartPoint COUNT 0 []
  | Flower => pushLoop flowerPoint COUNT 0 []
  | Saturn =>
    let* points := pushWhile (INR COUNT * 0.4) planetPoint COUNT 0 [] in
    pushWhile (INR COUNT * 0.6) ringPoint COUNT 0 points
  | Fireworks => pushLoop fireworksPoint COUNT 0 []
  | Buddha | GeminiGenerated => pushLoop spherePoint COUNT 0 []
  end.

Definition generateMathShape (type : ShapeType) : list Point3D :=
  fst (generate type 0%nat).

End WithRandom.

End ShapeGenerator.

(** ** [drawHandOverlay] of src/components/HandController.tsx *)

Module HandOverlay.

(** The calls made on the 2D context. *)
Inductive CanvasOp : Type :=
| SetLineWidth (width : R)
| SetLineCap (cap : string)
| SetLineJoin (join : string)
| BeginPath
| MoveTo (x y : R)
| LineTo (x y : R)
| Stroke
| Arc (x y radius startAngle endAngle : R)
| Fill.

Definition fingers : list (list nat) :=
  [[0; 1; 2; 3; 4]; [0; 5; 6; 7; 8]; [0; 9; 10; 11; 12];
   [0; 13; 14; 15; 16]; [0; 17; 18; 19; 20]]%nat.

Definition palm : list nat := [5; 9; 13; 17; 0]%nat.

(** [for (let i = 0; i < chain.length - 1; i++)]: one [moveTo]/[lineTo]
    pair per pair of consecutive indices, with x mirrored.  Reading the
    fields of a landmark that is not there throws: [None]. *)
Fixpoint bones (landmarks : list Point3D) (w h : R) (chain : list nat)
  : option (list CanvasOp) :=
  match chain with
  | i :: ((j :: _) as rest) =>
    start <- nth_error landmarks i ;;
    stop <- nth_error landmarks j ;;
    ops <- bones landmarks w h rest ;;
    Some (MoveTo ((1 - ptx start) * w) (pty start * h)
          :: LineTo ((1 - ptx stop) * w) (pty stop * h) :: ops)
  | _ => Some []
  end.

(** [for (const finger of fingers) ...]. *)
Fixpoint allBones (landmarks : list Point3D) (w h : R)
         (chains : list (list nat)) : option (list CanvasOp) :=
  match chains with
  | [] => Some []
  | chain :: rest =>
    ops <- bones landmarks w h chain ;;
    ops' <- allBones landmarks w h rest ;;
    Some (ops ++ ops')
  end.

(** [for (const lm of landmarks) { beginPath; arc; fill }]. *)
Definition joints (landmarks : list Point3D) (w h : R) : list CanvasOp :=
  flat_map (fun lm =>
              [BeginPath;
               Arc ((1 - ptx lm) * w) (pty lm * h) 6 0 (2 * PI);
               Fill])
           landmarks.

(** The calls [drawHandOverlay] makes, in order, when it returns. *)
Definition drawHandOverlay (landmarks : list Point3D) (w h : R)
  : option (list CanvasOp) :=
  fingerOps <- allBones landmarks w h fingers ;;
  palmOps <- bones landmarks w h palm ;;
  Some ([SetLineWidth 8; SetLineCap "round"; SetLineJoin "round";
         BeginPath]
          ++ fingerOps ++ palmOps ++ [Stroke] ++ joints landmarks w h).

(** The canvas points an operation names. *)
Definition drawnAt (op : CanvasOp) : list (R * R) :=
  match op with
  | MoveTo x y | LineTo x y | Arc x y _ _ _ => [(x, y)]
  | _ => []
  end.

End HandOverlay.

(** ** The whole [hands.onResults] callback *)

Module HandCallback.

(** The overlay canvas, when [canvasRef.current] and its 2D context are
    there: its width and height. *)
Record Canvas : Type := mkCanvas { cwidth : R; cheight : R }.

(** [for (const landmarks of results.multiHandLandmarks)
    drawHandOverlay(ctx, landmarks, canvas.width, canvas.height)]: the
    calls made when every hand is drawn, [None] when [drawHandOverlay]
    throws for one of them. *)
Fixpoint drawOverlays (w h : R) (hands : list HandController.Hand)
  : option (list HandOverlay.CanvasOp) :=
  match hands with
  | [] => Some []
  | hand :: rest =>
    ops <- HandOverlay.drawHandOverlay hand w h ;;
    ops' <- drawOverlays w h rest ;;
    Some (ops ++ ops')
  end.

(** The callback of a mounted component: the overlay first, then the logic
    of [HandController.onResults].  An exception thrown while drawing
    leaves the callback before the logic is reached: [onClap] and
    [onHandUpdate] are not called and [lastClapTime.current] keeps its
    value. *)
Definition callback (canvas : option Canvas) (lastClap now : Z)
           (results : HandController.MPResults) : HandController.Effects :=
  let hands :=
    match HandController.multiHandLandmarks results with
    | Some hs => hs
    | None => []
    end in
  let overlay :=
    match canvas with
    | Some c => drawOverlays (cwidth c) (cheight c) hands
    | None => Some []
    end in
  match overlay with
  | Some _ => HandController.onResults lastClap now results
  | None => HandController.mkEffects lastClap false None
  end.

(** A run of the callback over successive frames. *)
Fixpoint run (canvas : option Canvas) (lastClap : Z)
         (frames : list (Z * HandController.MPResults))
  : list HandController.Effects :=
  match frames with
  | [] => []
  | (now, results) :: rest =>
    let e := callback canvas lastClap now results in
    e :: run canvas (HandController.lastClapTime e) rest
  end.

End HandCallback.

(** ** Vocabulary of the statements *)

Definition origin : Point3D := mkPoint3D 0 0 0.

(** Euclidean distance of a point from the origin. *)
Definition norm (p : Point3D) : R :=
  sqrt (ptx p * ptx p + pty p * pty p + ptz p * ptz p).

(** A frame of the detector with exactly two hands whose centroids are less
    than 0.12 apart. *)
Definition twoHandsClose (results : HandController.MPResults) : Prop :=
  exists hand1 hand2 dist,
    HandController.multiHandLandmarks results = Some [hand1; hand2] /\
    HandController.centroidDist hand1 hand2 = Some dist /\
    dist < 0.12.

(** The first hand of a frame, when there is one, has its 21 landmarks. *)
Definition firstHandComplete (results : HandController.MPResults) : Prop :=
  forall hand rest,
    HandController.multiHandLandmarks results = Some (hand :: rest) ->
    (21 <= length hand)%nat.

(** A frame of the particle system in which no pinch moves the group. *)
Definition noPinch (f : ParticleSystem.Frame) : Prop :=
  isDetected (ParticleSystem.handState f)
  && isPinching (ParticleSystem.handState f) = false.

(** A steady-state frame with no hand, showing the cloud [cloud]. *)
Definition idleFrame (cloud : list Point3D) (f : ParticleSystem.Frame) : Prop :=
  ParticleSystem.isExploding f = false /\
  isDetected (ParticleSystem.handState f) = false /\
  ParticleSystem.targetPoints f = cloud.

(** Sample inputs. *)
Module Sample.

(** A hand of 21 landmarks, all at [p] except the thumb tip (4) at [thumb]
    and the index tip (8) at [index]. *)
Definition hand (p thumb index : Point3D) : HandController.Hand :=
  repeat p 4 ++ [thumb] ++ repeat p 3 ++ [index] ++ repeat p 12.

Definition at2D (x y : R) : Point3D := mkPoint3D x y 0.

Definition results (hands : list HandController.Hand)
  : HandController.MPResults :=
  HandController.mkResults (Some hands).

(** Two complete hands, every landmark of the first at (0.5, 0.5) and of
    the second at (0.55, 0.5): the centroids are 0.05 apart. *)
Definition leftHand : HandController.Hand :=
  hand (at2D 0.5 0.5) (at2D 0.5 0.5) (at2D 0.5 0.5).

Definition rightHand : HandController.Hand :=
  hand (at2D 0.55 0.5) (at2D 0.55 0.5) (at2D 0.55 0.5).

Definition closeHands : HandController.MPResults :=
  results [leftHand; rightHand].

Definition viewport : ParticleSystem.Viewport :=
  ParticleSystem.mkViewport 8 6.

(** A frame of the particle system at time 0 with all random values 0.5. *)
Definition frame (cloud : list Point3D) (h : HandState) (exploding : bool)
  : ParticleSystem.Frame :=
  ParticleSystem.mkFrame cloud h "#f43f5e"%string exploding viewport 0
                         (fun _ => 0.5).

(** An animator whose [COUNT] particles are all at [p], the group at rest. *)
Definition animator (p : Point3D) (prev : option Point2D)
  : ParticleSystem.Animator :=
  ParticleSystem.mkAnimator
    (repeat p ParticleSystem.COUNT) prev
    (ParticleSystem.mkGroup origin origin) [] "#f43f5e"%string.

Definition flatPalm : HandState :=
  mkHandState true (mkPoint2D 0.5 0.5) false 0.8.

End Sample.

(** The times at which the proximity trigger fired during a run: the
    [Date.now()] of the frames whose callback called [onClap()]. *)
Definition firingTimes (lastClap : Z)
           (frames : list (Z * HandController.MPResults)) : list Z :=
  map (fun fe => fst (fst fe))
      (filter (fun fe => HandController.clapped (snd fe))
              (combine frames (HandController.run lastClap frames))).

(** A landmark inside the normalised image, [0 <= x <= 1] and
    [0 <= y <= 1]. *)
Definition inImage (p : Point3D) : Prop :=
  0 <= ptx p <= 1 /\ 0 <= pty p <= 1.

(** A hand state whose openness and position are in their nominal ranges. *)
Definition nominal (h : HandState) : Prop :=
  0 <= openness h <= 1 /\
  0 <= posx (position h) <= 1 /\ 0 <= posy (position h) <= 1.

(** The values of [Math.random()] lie in [[0, 1)]. *)
Definition unitRandom (random : nat -> R) : Prop :=
  forall k, 0 <= random k < 1.

(** Kinds of frames of the particle system. *)

(** A steady-state frame in which a hand pinches at [p], seen through the
    viewport [v]. *)
Definition pinchFrame (p : Point2D) (v : ParticleSystem.Viewport)
           (f : ParticleSystem.Frame) : Prop :=
  ParticleSystem.isExploding f = false /\
  isDetected (ParticleSystem.handState f) = true /\
  isPinching (ParticleSystem.handState f) = true /\
  position (ParticleSystem.handState f) = p /\
  ParticleSystem.viewport f = v.

(** A steady-state frame in which a hand pinches, showing [cloud]. *)
Definition pinchBlendFrame (cloud : list Point3D)
           (f : ParticleSystem.Frame) : Prop :=
  ParticleSystem.isExploding f = false /\
  isDetected (ParticleSystem.handState f) = true /\
  isPinching (ParticleSystem.handState f) = true /\
  ParticleSystem.targetPoints f = cloud.

(** A steady-state frame with a flat palm: detected, not pinching, openness
    above 0.6. *)
Definition flatPalmFrame (f : ParticleSystem.Frame) : Prop :=
  ParticleSystem.isExploding f = false /\
  isDetected (ParticleSystem.handState f) = true /\
  isPinching (ParticleSystem.handState f) = false /\
  0.6 < openness (ParticleSystem.handState f).

(** A steady-state frame without a flat palm: no hand, a pinch, or an
    openness of at most 0.6. *)
Definition idleRotationFrame (f : ParticleSystem.Frame) : Prop :=
  ParticleSystem.isExploding f = false /\
  (isDetected (ParticleSystem.handState f) = false \/
   isPinching (ParticleSystem.handState f) = true \/
   openness (ParticleSystem.handState f) <= 0.6).

(** A steady-state frame with a compressed hand: detected, not pinching,
    openness below 0.2. *)
Definition breathingFrame (f : ParticleSystem.Frame) : Prop :=
  ParticleSystem.isExploding f = false /\
  isDetected (ParticleSystem.handState f) = true /\
  isPinching (ParticleSystem.handState f) = false /\
  openness (ParticleSystem.handState f) < 0.2.

(** The factor applied to particle [i] on an exploding frame. *)
Definition explosionSpeed (i : nat) : R :=
  1.08 * (1 + 0.004 * INR (i mod 10)).

(** Every point a canvas operation names lies on a canvas of width [w] and
    height [h]. *)
Definition onCanvas (w h : R) (op : HandOverlay.CanvasOp) : Prop :=
  Forall (fun xy => 0 <= fst xy <= w /\ 0 <= snd xy <= h)
         (HandOverlay.drawnAt op).

Definition isLineTo (op : HandOverlay.CanvasOp) : bool :=
  match op with HandOverlay.LineTo _ _ => true | _ => false end.

Definition isArc (op : HandOverlay.CanvasOp) : bool :=
  match op with HandOverlay.Arc _ _ _ _ _ => true | _ => false end.

(** The hands of a frame. *)
Definition handsOf (results : HandController.MPResults)
  : list HandController.Hand :=
  match HandController.multiHandLandmarks results with
  | Some hs => hs
  | None => []
  end.

(** A hand with its 21 landmarks. *)
Definition complete (hand : HandController.Hand) : Prop :=
  (21 <= length hand)%nat.

(** A frame of the detector with exactly two hands, each with its 21
    landmarks, whose centroids are less than 0.12 apart. *)
Definition twoCompleteHandsClose (results : HandController.MPResults)
  : Prop :=
  twoHandsClose results /\ Forall complete (handsOf results).

(** A pool whose particle 0 is at (1.2, 0, 0) and whose other particles,
    particle 9 among them, are at (1, 0, 0). *)
Definition unevenPool : list Point3D :=
  mkPoint3D 1.2 0 0 :: repeat (mkPoint3D 1 0 0) 1499.

(** ** Comparisons *)

Lemma ltb_lt (x y : R) : JS.ltb x y = true <-> x < y.
Proof.
  unfold JS.ltb. destruct (Rlt_dec x y); split; intros; auto; discriminate.
Qed.

Lemma ltb_ge (x y : R) : JS.ltb x y = false <-> y <= x.
Proof.
  unfold JS.ltb. destruct (Rlt_dec x y); split; intros;
    auto; try lra; try discriminate.
Qed.

(** ** HandController *)

Section HandControllerFacts.

Import HandController.

Let lm (hand : Hand) (i : nat) : Landmark := nth i hand origin.

(** A hand with its 21 landmarks always yields a state, given by the
    landmarks 0, 4, 8, 9, 12, 16 and 20. *)
Lemma handStateOf_complete (hand : Hand) :
  (21 <= length hand)%nat ->
  handStateOf hand =
  Some (mkHandState true
          (mkPoint2D
             (if JS.ltb (dist2D (lm hand 4) (lm hand 8)) 0.05
              then (ptx (lm hand 4) + ptx (lm hand 8)) / 2
              else ptx (lm hand 9))
             (if JS.ltb (dist2D (lm hand 4) (lm hand 8)) 0.05
              then (pty (lm hand 4) + pty (lm hand 8)) / 2
              else pty (lm hand 9)))
          (JS.ltb (dist2D (lm hand 4) (lm hand 8)) 0.05)
          (opennessOf
             ((0 + dist2D (lm hand 8) (lm hand 0)
               + dist2D (lm hand 12) (lm hand 0)
               + dist2D (lm hand 16) (lm hand 0)
               + dist2D (lm hand 20) (lm hand 0)) / 4))).
Proof.
  intros Hlen. unfold handStateOf, tips, sumTipDist, lm.
  repeat (rewrite (nth_error_nth' hand origin) by lia).
  reflexivity.
Qed.

Lemma opennessOf_range (avgDist : R) : 0 <= opennessOf avgDist <= 1.
Proof.
  unfold opennessOf. split.
  - apply Rmin_glb; [apply Rmax_r | lra].
  - apply Rmin_r.
Qed.

(** Whatever state the computation yields, its openness is clamped. *)
Lemma handStateOf_openness (hand : Hand) (s : HandState) :
  handStateOf hand = Some s -> 0 <= openness s <= 1.
Proof.
  unfold handStateOf. intros H.
  destruct (nth_error hand 4); [| discriminate].
  destruct (nth_error hand 8); [| discriminate].
  destruct (nth_error hand 9); [| discriminate].
  destruct (nth_error hand 0); [| discriminate].
  destruct (sumTipDist hand _ tips 0); [| discriminate].
  injection H as <-. simpl. apply opennessOf_range.
Qed.

(** What [onResults] sends to [onHandUpdate]. *)
Lemma handUpdate_onResults (lastClap now : Z) (results : MPResults) :
  handUpdate (onResults lastClap now results) =
  match multiHandLandmarks results with
  | Some (hand :: _) => handStateOf hand
  | _ => Some noHand
  end.
Proof.
  unfold onResults.
  destruct (proximityTrigger lastClap now _) as [l c].
  destruct (multiHandLandmarks results) as [[| hand rest] |]; reflexivity.
Qed.

End HandControllerFacts.

Section HandControllerClaims.

Import HandController.

(** C9.  For a detected hand with its 21 landmarks, the state sent to
    [onHandUpdate] is pinching exactly when the distance in the (x, y)
    plane between the thumb tip (landmark 4) and the index tip (landmark 8)
    is strictly below 0.05; at exactly 0.05 it is not pinching. *)
Theorem pinch_iff_distance_below_threshold
        (lastClap now : Z) (hand : Hand) (rest : list Hand) :
  (21 <= length hand)%nat ->
  let thumbTip := nth 4 hand origin in
  let indexTip := nth 8 hand origin in
  let pinchDist :=
    sqrt ((ptx thumbTip - ptx indexTip) ^ 2
          + (pty thumbTip - pty indexTip) ^ 2) in
  exists s,
    handUpdate (onResults lastClap now (mkResults (Some (hand :: rest))))
    = Some s /\
    isDetected s = true /\
    (isPinching s = true <-> pinchDist < 0.05) /\
    (pinchDist = 0.05 -> isPinching s = false).
Proof.
  intros Hlen thumbTip indexTip pinchDist.
  rewrite handUpdate_onResults. simpl.
  rewrite (handStateOf_complete hand Hlen).
  eexists. split; [reflexivity |]. simpl.
  fold thumbTip indexTip. unfold dist2D. fold pinchDist.
  split; [reflexivity |]. split.
  - apply ltb_lt.
  - intros Heq. apply ltb_ge. lra.
Qed.

Lemma pinch_iff_distance_below_threshold_witness :
  let hand :=
    Sample.hand (Sample.at2D 0.5 0.5) (Sample.at2D 0.5 0.5)
                (Sample.at2D 0.53 0.54) in
  (21 <= length hand)%nat /\
  exists s,
    handUpdate (onResults 0 5000 (mkResults (Some [hand]))) = Some s /\
    isDetected s = true /\
    (isPinching s = true <->
     sqrt ((ptx (nth 4 hand origin) - ptx (nth 8 hand origin)) ^ 2
           + (pty (nth 4 hand origin) - pty (nth 8 hand origin)) ^ 2)
     < 0.05) /\
    (sqrt ((ptx (nth 4 hand origin) - ptx (nth 8 hand origin)) ^ 2
           + (pty (nth 4 hand origin) - pty (nth 8 hand origin)) ^ 2)
     = 0.05 -> isPinching s = false).
Proof.
  intros hand. split.
  - simpl. lia.
  - apply (pinch_iff_distance_below_threshold 0 5000 hand []).
    simpl. lia.
Defined.

(** The boundary itself: thumb tip and index tip exactly 0.05 apart (a
    0.03 by 0.04 offset) is not a pinch, and the position sent is the palm
    centre (landmark 9). *)
Example pinch_at_boundary :
  handStateOf (Sample.hand (Sample.at2D 0.5 0.5) (Sample.at2D 0.5 0.5)
                           (Sample.at2D 0.53 0.54))
  = Some (mkHandState true (mkPoint2D 0.5 0.5) false
            (opennessOf
               ((0 + dist2D (Sample.at2D 0.53 0.54) (Sample.at2D 0.5 0.5)
                 + dist2D (Sample.at2D 0.5 0.5) (Sample.at2D 0.5 0.5)
                 + dist2D (Sample.at2D 0.5 0.5) (Sample.at2D 0.5 0.5)
                 + dist2D (Sample.at2D 0.5 0.5) (Sample.at2D 0.5 0.5)) / 4))).
Proof.
  rewrite handStateOf_complete by (simpl; lia). simpl.
  assert (Hd : dist2D (Sample.at2D 0.5 0.5) (Sample.at2D 0.53 0.54) = 0.05).
  { unfold dist2D. simpl.
    replace ((0.5 - 0.53) * ((0.5 - 0.53) * 1)
             + (0.5 - 0.54) * ((0.5 - 0.54) * 1))
      with (0.05 * 0.05) by lra.
    apply sqrt_square. lra. }
  rewrite Hd.
  assert (Hb : JS.ltb 0.05 0.05 = false) by (apply ltb_ge; lra).
  rewrite Hb. reflexivity.
Qed.

(** C6.  Whatever the landmarks are, the openness sent to [onHandUpdate]
    lies in [[0,1]]; and for a first hand with its 21 landmarks (or no hand
    at all) a state is sent, whose openness is the mean distance in the
    (x, y) plane from the wrist (landmark 0) to the tips 8, 12, 16 and 20,
    rescaled from [[0.15, 0.40]] and clamped. *)
Theorem openness_in_unit_interval (lastClap now : Z) (results : MPResults) :
  (forall s,
      handUpdate (onResults lastClap now results) = Some s ->
      0 <= openness s <= 1) /\
  (firstHandComplete results ->
   exists s,
     handUpdate (onResults lastClap now results) = Some s /\
     forall hand rest,
       multiHandLandmarks results = Some (hand :: rest) ->
       let wrist := nth 0 hand origin in
       let d i :=
         sqrt ((ptx (nth i hand origin) - ptx wrist) ^ 2
               + (pty (nth i hand origin) - pty wrist) ^ 2) in
       openness s =
       Rmin (Rmax (((d 8%nat + d 12%nat + d 16%nat + d 20%nat) / 4 - 0.15)
                   / (0.40 - 0.15)) 0) 1).
Proof.
  rewrite handUpdate_onResults. split.
  - intros s Hs.
    destruct (multiHandLandmarks results) as [[| hand rest] |].
    + injection Hs as <-. simpl. lra.
    + eapply handStateOf_openness; eassumption.
    + injection Hs as <-. simpl. lra.
  - intros Hcomplete. unfold firstHandComplete in Hcomplete.
    destruct (multiHandLandmarks results) as [[| hand rest] |].
    + exists noHand. split; [reflexivity |]. intros ? ? [=].
    + rewrite (handStateOf_complete hand (Hcomplete hand rest eq_refl)).
      eexists. split; [reflexivity |].
      intros hand' rest' [= <- <-]. cbv zeta beta. cbn [openness].
      unfold opennessOf, minOpen, maxOpen, dist2D.
      f_equal. f_equal. lra.
    + exists noHand. split; [reflexivity |]. intros ? ? [=].
Qed.

End HandControllerClaims.

Section OpennessWitness.

Import HandController.

Lemma openness_in_unit_interval_witness :
  let results :=
    Sample.results [Sample.hand (Sample.at2D 1000000 (-1000000))
                                (Sample.at2D 0 0) (Sample.at2D 0 0)] in
  firstHandComplete results /\
  (forall s,
      handUpdate (onResults 0 5000 results) = Some s ->
      0 <= openness s <= 1) /\
  exists s,
    handUpdate (onResults 0 5000 results) = Some s /\
    forall hand rest,
      multiHandLandmarks results = Some (hand :: rest) ->
      let wrist := nth 0 hand origin in
      let d i :=
        sqrt ((ptx (nth i hand origin) - ptx wrist) ^ 2
              + (pty (nth i hand origin) - pty wrist) ^ 2) in
      openness s =
      Rmin (Rmax (((d 8%nat + d 12%nat + d 16%nat + d 20%nat) / 4 - 0.15)
                  / (0.40 - 0.15)) 0) 1.
Proof.
  intros results.
  assert (Hc : firstHandComplete results).
  { intros hand rest [= <- <-]. simpl. lia. }
  split; [exact Hc |].
  destruct (openness_in_unit_interval 0 5000 results) as [Hrange Hdef].
  split; [exact Hrange | exact (Hdef Hc)].
Defined.

End OpennessWitness.

(** *** The proximity trigger *)

Section ProximityTrigger.

Import HandController.

Lemma proximityTrigger_cases (lastClap now : Z) (hands : list Hand) :
  (snd (proximityTrigger lastClap now hands) = true /\
   fst (proximityTrigger lastClap now hands) = now /\
   (1000 < now - lastClap)%Z) \/
  (snd (proximityTrigger lastClap now hands) = false /\
   fst (proximityTrigger lastClap now hands) = lastClap).
Proof.
  unfold proximityTrigger.
  destruct hands as [| hand1 [| hand2 [| hand3 rest]]]; auto.
  destruct (handsClose hand1 hand2); auto.
  destruct (now - lastClap >? 1000)%Z eqn:E; auto.
  left. simpl. repeat split. lia.
Qed.

Lemma onResults_cases (lastClap now : Z) (results : MPResults) :
  (clapped (onResults lastClap now results) = true /\
   lastClapTime (onResults lastClap now results) = now /\
   (1000 < now - lastClap)%Z) \/
  (clapped (onResults lastClap now results) = false /\
   lastClapTime (onResults lastClap now results) = lastClap).
Proof.
  unfold onResults.
  pose proof (proximityTrigger_cases lastClap now
                match multiHandLandmarks results with
                | Some hs => hs
                | None => []
                end) as H.
  destruct (proximityTrigger lastClap now _) as [l c]. exact H.
Qed.

(** Two hands close together fire the trigger as soon as more than a
    second separates the frame from the last firing. *)
Lemma onResults_fires (lastClap now : Z) (results : MPResults) :
  twoHandsClose results ->
  (1000 < now - lastClap)%Z ->
  clapped (onResults lastClap now results) = true.
Proof.
  intros (hand1 & hand2 & dist & Hhands & Hdist & Hlt) Hnow.
  unfold onResults. rewrite Hhands.
  unfold proximityTrigger, handsClose. rewrite Hdist.
  assert (Hb : JS.ltb dist PROXIMITY_THRESHOLD = true)
    by (apply ltb_lt; unfold PROXIMITY_THRESHOLD; exact Hlt).
  rewrite Hb.
  assert (Hz : (now - lastClap >? 1000)%Z = true) by lia.
  rewrite Hz. reflexivity.
Qed.

(** Every firing of a run comes more than a second after the value
    [lastClapTime] had when the run began. *)
Lemma run_fires_after (frames : list (Z * MPResults)) :
  forall (lastClap : Z) (j : nat) (fj : Z * MPResults) (ej : Effects),
    nth_error frames j = Some fj ->
    nth_error (run lastClap frames) j = Some ej ->
    clapped ej = true ->
    (1000 < fst fj - lastClap)%Z.
Proof.
  induction frames as [| [now results] rest IH];
    intros lastClap j fj ej Hf He Hc.
  - destruct j; discriminate.
  - destruct (onResults_cases lastClap now results)
      as [(Hc0 & Hl & Hgt) | (Hc0 & Hl)];
      destruct j as [| j]; simpl in Hf, He.
    + injection Hf as <-. simpl. lia.
    + specialize (IH _ _ _ _ Hf He Hc). rewrite Hl in IH. lia.
    + injection Hf as <-. injection He as <-. congruence.
    + specialize (IH _ _ _ _ Hf He Hc). rewrite Hl in IH. exact IH.
Qed.

(** Two firings of one run are more than a second apart. *)
Lemma run_fires_apart (frames : list (Z * MPResults)) :
  forall (lastClap : Z) (i j : nat) (fi fj : Z * MPResults) (ei ej : Effects),
    (i < j)%nat ->
    nth_error frames i = Some fi ->
    nth_error frames j = Some fj ->
    nth_error (run lastClap frames) i = Some ei ->
    nth_error (run lastClap frames) j = Some ej ->
    clapped ei = true ->
    clapped ej = true ->
    (1000 < fst fj - fst fi)%Z.
Proof.
  induction frames as [| [now results] rest IH];
    intros lastClap i j fi fj ei ej Hij Hfi Hfj Hei Hej Hci Hcj.
  - destruct i; discriminate.
  - destruct j as [| j]; [lia |].
    destruct i as [| i]; simpl in Hfi, Hfj, Hei, Hej.
    + injection Hfi as <-. injection Hei as <-. simpl.
      destruct (onResults_cases lastClap now results)
        as [(_ & Hl & _) | (Hc0 & _)]; [| congruence].
      pose proof (run_fires_after rest _ _ _ _ Hfj Hej Hcj) as H.
      rewrite Hl in H. exact H.
    + eapply (IH _ i j); eauto. lia.
Qed.

End ProximityTrigger.

Section ProximityTriggerWitness.

Import HandController.

Lemma closeHands_close : twoHandsClose Sample.closeHands.
Proof.
  exists Sample.leftHand, Sample.rightHand. eexists.
  split; [reflexivity |]. split.
  - unfold centroidDist, Sample.leftHand, Sample.rightHand, Sample.hand.
    simpl getCentroid. cbv iota. reflexivity.
  - unfold JS.hypot. cbn [posx posy].
    replace 0.12 with (sqrt (0.12 * 0.12)) by (apply sqrt_square; lra).
    apply sqrt_lt_1_alt. split; [nra | lra].
Qed.

(** The test is strict: a frame exactly 1000 ms after a firing does not
    fire, the next one does. *)
Example debounce_boundary :
  map (fun e => (clapped e, lastClapTime e))
      (run 0 [(5000%Z, Sample.closeHands); (6000%Z, Sample.closeHands);
              (6001%Z, Sample.closeHands)])
  = [(true, 5000%Z); (false, 5000%Z); (true, 6001%Z)].
Proof.
  pose proof closeHands_close as Hc.
  assert (H1 : clapped (onResults 0 5000 Sample.closeHands) = true)
    by (apply onResults_fires; [exact Hc | lia]).
  assert (H3 : clapped (onResults 5000 6001 Sample.closeHands) = true)
    by (apply onResults_fires; [exact Hc | lia]).
  cbn [run map].
  destruct (onResults_cases 0 5000 Sample.closeHands)
    as [(_ & -> & _) | (E & _)]; [| congruence].
  destruct (onResults_cases 5000 6000 Sample.closeHands)
    as [(_ & _ & E) | (-> & ->)]; [lia |].
  destruct (onResults_cases 5000 6001 Sample.closeHands)
    as [(_ & -> & _) | (E & _)]; [| congruence].
  rewrite H1, H3. reflexivity.
Qed.

End ProximityTriggerWitness.

(** ** App *)

Section AppClaims.

Variable generateMathShape : ShapeType -> list Point3D.

Let noHand : HandState := HandController.noHand.

(** The smoothed state after [n] frames without a hand. *)
Lemma smooth_noHand_iter (s : App.Session) (n : nat) :
  let prev := App.handState s in
  let h := App.handState (Nat.iter n (App.handleHandUpdate noHand) s) in
  openness h = 0.7 ^ n * openness prev /\
  posx (position h) - 0.5 = 0.7 ^ n * (posx (position prev) - 0.5) /\
  posy (position h) - 0.5 = 0.7 ^ n * (posy (position prev) - 0.5).
Proof.
  induction n as [| n IH]; cbv zeta in *.
  - simpl. lra.
  - destruct IH as (Ho & Hx & Hy).
    rewrite !Nat.iter_succ.
    set (s' := Nat.iter n (App.handleHandUpdate noHand) s) in *.
    cbn [App.handleHandUpdate App.handState App.smooth openness position
         posx posy noHand HandController.noHand pow].
    nra.
Qed.

(** C3 fails as stated: a hand at (0.2, 0.3) with openness 1 is seen for one
    frame, then lost; the state handed to the particle system has
    [isDetected] false, but its openness and position are still blends. *)
Lemma smoothed_state_keeps_old_values :
  let s :=
    App.handleHandUpdate HandController.noHand
      (App.handleHandUpdate
         (mkHandState true (mkPoint2D 0.2 0.3) false 1) App.initial) in
  isDetected (App.handState s) = false /\
  openness (App.handState s) <> 0 /\
  posx (position (App.handState s)) <> 0.5 /\
  posy (position (App.handState s)) <> 0.5.
Proof.
  cbv zeta. simpl. repeat split; lra.
Qed.

(** C3, amended.  After one or more frames without a hand the state handed
    to the particle system is not detected and not pinching; its openness
    and the offset of its position from the centre (0.5, 0.5) are those of
    the state before the hand was lost, multiplied by 0.7 per frame; they
    are exactly 0 and the centre only if they already were. *)
Theorem no_hand_state_decays (s : App.Session) (n : nat) :
  let prev := App.handState s in
  let h :=
    App.handState
      (Nat.iter (S n) (App.handleHandUpdate HandController.noHand) s) in
  isDetected h = false /\
  isPinching h = false /\
  openness h = 0.7 ^ S n * openness prev /\
  posx (position h) - 0.5 = 0.7 ^ S n * (posx (position prev) - 0.5) /\
  posy (position h) - 0.5 = 0.7 ^ S n * (posy (position prev) - 0.5) /\
  (openness h = 0 <-> openness prev = 0) /\
  (position h = mkPoint2D 0.5 0.5 <-> position prev = mkPoint2D 0.5 0.5).
Proof.
  intros prev h.
  destruct (smooth_noHand_iter s (S n)) as (Ho & Hx & Hy).
  fold noHand in h. fold prev h in Ho, Hx, Hy.
  assert (Hpow : 0 < 0.7 ^ S n) by (apply pow_lt; lra).
  split; [reflexivity |]. split; [reflexivity |].
  split; [exact Ho |]. split; [exact Hx |]. split; [exact Hy |].
  split.
  - rewrite Ho. split; intros H; [| rewrite H; lra].
    apply Rmult_integral in H. destruct H; lra.
  - destruct (position h) as [hx hy], (position prev) as [qx qy].
    cbn [posx posy] in Hx, Hy.
    split; intros [= Ex Ey]; f_equal; subst.
    + assert (H : 0.7 ^ S n * (qx - 0.5) = 0) by lra.
      apply Rmult_integral in H. destruct H; lra.
    + assert (H : 0.7 ^ S n * (qy - 0.5) = 0) by lra.
      apply Rmult_integral in H. destruct H; lra.
    + replace (0.5 - 0.5) with 0 in Hx by lra. lra.
    + replace (0.5 - 0.5) with 0 in Hy by lra. lra.
Qed.

(** While an explosion runs, exactly one timeout is pending; otherwise
    none is. *)
Lemma reachable_timeouts (s : App.Session) :
  App.reachable generateMathShape s ->
  (App.isExploding s = true /\
   exists shape, App.timeouts s = [App.mkTimeout 500 shape]) \/
  (App.isExploding s = false /\ App.timeouts s = []).
Proof.
  induction 1 as [| s _ IH | st s _ IH | s _ IH | r1 r2 s _ IH
                  | ty pts s _ IH | c s _ IH]; try exact IH.
  - right. split; reflexivity.
  - unfold App.loadShape. destruct (negb _ && negb _); exact IH.
  - unfold App.handleClap.
    destruct IH as [(He & Ht) | (He & Ht)]; rewrite He.
    + left. split; assumption.
    + left. simpl. rewrite Ht. split; [reflexivity |].
      eexists. reflexivity.
  - unfold App.fireTimeout.
    destruct IH as [(He & shape & Ht) | (He & Ht)]; rewrite Ht.
    + right. split; reflexivity.
    + right. split; assumption.
Qed.

(** C10.  A clap received while the explosion flag is set returns the
    session as it was: flag, shape, cloud, colour and pending timeouts.
    In a session the handlers can reach, the one timeout of the running
    explosion is then still the only one pending. *)
Theorem clap_while_exploding_is_noop (s : App.Session) :
  App.isExploding s = true ->
  App.handleClap s = s /\
  (App.reachable generateMathShape s ->
   exists t, App.timeouts (App.handleClap s) = [t] /\ App.delay t = 500%Z).
Proof.
  intros He.
  assert (Hnoop : App.handleClap s = s)
    by (unfold App.handleClap; rewrite He; reflexivity).
  split; [exact Hnoop |].
  intros Hr. rewrite Hnoop.
  destruct (reachable_timeouts s Hr) as [(_ & shape & Ht) | (He' & _)];
    [| congruence].
  eexists. split; [exact Ht | reflexivity].
Qed.

End AppClaims.

Lemma clap_while_exploding_is_noop_witness :
  let gen := fun _ : ShapeType => [origin] in
  let s := App.handleClap App.initial in
  App.isExploding s = true /\
  App.handleClap s = s /\
  (App.reachable gen s ->
   exists t, App.timeouts (App.handleClap s) = [t] /\ App.delay t = 500%Z).
Proof.
  intros gen s. split; [reflexivity |].
  apply (clap_while_exploding_is_noop gen s). reflexivity.
Defined.

(** ** ParticleSystem *)

Section ParticleLoop.

Import ParticleSystem.

Variable body : nat -> Point3D -> Point3D.

(** The loop runs to its end when the pool has the particles it visits. *)
Lemma forEachParticle_defined (n : nat) :
  forall (i : nat) (pool : list Point3D),
    (n <= length pool)%nat ->
    exists pool', forEachParticle body n i pool = Some pool'.
Proof.
  induction n as [| n IH]; intros i pool Hlen.
  - exists pool. reflexivity.
  - destruct pool as [| current rest]; simpl in Hlen; [lia |].
    destruct (IH (S i) rest) as [rest' Hrest]; [lia |].
    exists (body i current :: rest'). simpl. rewrite Hrest. reflexivity.
Qed.

Lemma forEachParticle_length (n : nat) :
  forall (i : nat) (pool pool' : list Point3D),
    forEachParticle body n i pool = Some pool' ->
    length pool' = length pool.
Proof.
  induction n as [| n IH]; intros i pool pool' H; simpl in H.
  - injection H as <-. reflexivity.
  - destruct pool as [| current rest]; [discriminate |].
    destruct (forEachParticle body n (S i) rest) as [rest' |] eqn:E;
      [| discriminate].
    injection H as <-. simpl. f_equal. eapply IH; eassumption.
Qed.

(** Particle [i + k] is replaced by the value of the body on it. *)
Lemma forEachParticle_nth (n : nat) :
  forall (i k : nat) (pool pool' : list Point3D) (current : Point3D),
    forEachParticle body n i pool = Some pool' ->
    (k < n)%nat ->
    nth_error pool k = Some current ->
    nth_error pool' k = Some (body (i + k)%nat current).
Proof.
  induction n as [| n IH]; intros i k pool pool' current H Hk Hnth; [lia |].
  simpl in H.
  destruct pool as [| first rest]; [discriminate |].
  destruct (forEachParticle body n (S i) rest) as [rest' |] eqn:E;
    [| discriminate].
  injection H as <-.
  destruct k as [| k]; simpl in Hnth |- *.
  - injection Hnth as <-. rewrite Nat.add_0_r. reflexivity.
  - replace (i + S k)%nat with (S i + k)%nat by lia.
    eapply IH; [eassumption | lia | assumption].
Qed.

End ParticleLoop.

Section UseFrameFacts.

Import ParticleSystem.

Variables (f : Frame) (a : Animator).

Lemma useFrame_defined :
  (COUNT <= length (currentPositions a))%nat ->
  exists a', useFrame f a = Some a'.
Proof.
  intros Hlen. unfold useFrame.
  destruct (isExploding f).
  - destruct (forEachParticle_defined explode COUNT 0 _ Hlen) as [pool ->].
    eexists. reflexivity.
  - destruct (forEachParticle_defined (blend f) COUNT 0 _ Hlen) as [pool ->].
    eexists. reflexivity.
Qed.

(** What a frame does to the pool, to the group and to the remembered hand
    position. *)
Lemma useFrame_inv (a' : Animator) :
  useFrame f a = Some a' ->
  forEachParticle (if isExploding f then explode else blend f) COUNT 0
                  (currentPositions a) = Some (currentPositions a') /\
  gposition (group a') =
    (if isExploding f then gposition (group a)
     else move f (gposition (group a))) /\
  rotation (group a') =
    (if isExploding f
     then mkPoint3D (ptx (rotation (group a)))
                    (pty (rotation (group a)) + 0.2)
                    (ptz (rotation (group a)) + 0.1)
     else rotate f (prevHandPos a) (rotation (group a))) /\
  prevHandPos a' =
    (if isExploding f then prevHandPos a
     else if isDetected (handState f) then Some (position (handState f))
          else None).
Proof.
  unfold useFrame. destruct (isExploding f).
  - destruct (forEachParticle explode COUNT 0 _) as [pool |];
      [| discriminate].
    intros [= <-]. repeat split.
  - destruct (forEachParticle (blend f) COUNT 0 _) as [pool |];
      [| discriminate].
    intros [= <-]. repeat split.
Qed.

Lemma useFrame_length (a' : Animator) :
  useFrame f a = Some a' ->
  length (currentPositions a') = length (currentPositions a).
Proof.
  intros H. apply useFrame_inv in H. destruct H as (Hpool & _).
  eapply forEachParticle_length. eassumption.
Qed.

Lemma useFrame_particle (a' : Animator) (i : nat) (current : Point3D) :
  useFrame f a = Some a' ->
  (i < COUNT)%nat ->
  nth_error (currentPositions a) i = Some current ->
  nth_error (currentPositions a') i =
  Some ((if isExploding f then explode else blend f) i current).
Proof.
  intros H Hi Hnth. apply useFrame_inv in H. destruct H as (Hpool & _).
  exact (forEachParticle_nth _ COUNT 0 i _ _ current Hpool Hi Hnth).
Qed.

End UseFrameFacts.

Section SteadyState.

Import ParticleSystem.

(** The target of particle [i]: the origin for an empty cloud, otherwise
    the point at [i mod length], which is always there. *)
Lemma targetOf_wraps (cloud : list Point3D) (i : nat) :
  targetOf cloud i =
  match cloud with
  | [] => origin
  | _ => nth (i mod length cloud) cloud origin
  end /\
  (cloud <> [] ->
   nth_error cloud (i mod length cloud) = Some (targetOf cloud i)).
Proof.
  unfold targetOf, targetLen.
  destruct cloud as [| p rest].
  - split; [reflexivity | congruence].
  - assert (Hlt : (i mod length (p :: rest) < length (p :: rest))%nat)
      by (apply Nat.mod_upper_bound; simpl; lia).
    cbn [length] in Hlt |- *.
    rewrite (nth_error_nth' (p :: rest) origin Hlt).
    split; [reflexivity | intros _; reflexivity].
Qed.

(** C4.  In the steady state, whatever the target cloud is, the frame
    completes for a pool of [COUNT] particles, and particle [i] is blended
    at rate 0.1 towards the scaled target taken at index [i mod length] of
    the cloud (an index that always holds a point when the cloud is not
    empty), or towards the origin when the cloud is empty. *)
Theorem blend_target_total (f : Frame) (a : Animator) :
  isExploding f = false ->
  (COUNT <= length (currentPositions a))%nat ->
  exists a',
    useFrame f a = Some a' /\
    forall i current,
      (i < COUNT)%nat ->
      nth_error (currentPositions a) i = Some current ->
      let cloud := targetPoints f in
      let target :=
        match cloud with
        | [] => origin
        | _ => nth (i mod length cloud) cloud origin
        end in
      let scale := targetScaleOf (handState f) in
      (cloud <> [] -> nth_error cloud (i mod length cloud) = Some target) /\
      nth_error (currentPositions a') i =
      Some (addLife f i
              (mkPoint3D
                 (JS.lerp (ptx current) (ptx target * scale) 0.1)
                 (JS.lerp (pty current) (pty target * scale) 0.1)
                 (JS.lerp (ptz current) (ptz target * scale) 0.1))).
Proof.
  intros Hsteady Hlen.
  destruct (useFrame_defined f a Hlen) as [a' Ha'].
  exists a'. split; [exact Ha' |].
  intros i current Hi Hnth cloud target scale.
  destruct (targetOf_wraps cloud i) as [Htarget Hsome].
  fold target in Htarget.
  split.
  - intros Hne. rewrite <- Htarget. exact (Hsome Hne).
  - rewrite (useFrame_particle f a a' i current Ha' Hi Hnth).
    rewrite Hsteady. unfold blend, lerped, lerpSpeed.
    fold cloud. rewrite Htarget. reflexivity.
Qed.

Lemma blend_target_total_witness :
  let f := Sample.frame [] HandController.noHand false in
  let a := Sample.animator (mkPoint3D 1 2 3) None in
  isExploding f = false /\
  (COUNT <= length (currentPositions a))%nat /\
  exists a',
    useFrame f a = Some a' /\
    forall i current,
      (i < COUNT)%nat ->
      nth_error (currentPositions a) i = Some current ->
      let cloud := targetPoints f in
      let target :=
        match cloud with
        | [] => origin
        | _ => nth (i mod length cloud) cloud origin
        end in
      let scale := targetScaleOf (handState f) in
      (cloud <> [] -> nth_error cloud (i mod length cloud) = Some target) /\
      nth_error (currentPositions a') i =
      Some (addLife f i
              (mkPoint3D
                 (JS.lerp (ptx current) (ptx target * scale) 0.1)
                 (JS.lerp (pty current) (pty target * scale) 0.1)
                 (JS.lerp (ptz current) (ptz target * scale) 0.1))).
Proof.
  intros f a.
  assert (Hlen : (COUNT <= length (currentPositions a))%nat).
  { unfold a, Sample.animator. cbn [currentPositions].
    rewrite repeat_length. lia. }
  split; [reflexivity |]. split; [exact Hlen |].
  exact (blend_target_total f a eq_refl Hlen).
Defined.

(** Over any frames the pool keeps its particles, so every frame
    completes. *)
Lemma frames_defined (fs : list Frame) :
  forall a : Animator,
    (COUNT <= length (currentPositions a))%nat ->
    exists a', frames fs a = Some a' /\
               length (currentPositions a') = length (currentPositions a).
Proof.
  induction fs as [| f rest IH]; intros a Hlen.
  - exists a. split; reflexivity.
  - destruct (useFrame_defined f a Hlen) as [a1 Ha1].
    pose proof (useFrame_length f a a1 Ha1) as Hlen1.
    destruct (IH a1) as (a' & Ha' & Hlen'); [lia |].
    exists a'. simpl. rewrite Ha1. split; [exact Ha' | lia].
Qed.

(** C7.  Over any number of frames in none of which a detected hand
    pinches (in particular frames with no hand at all), exploding or not,
    every frame completes and the position of the group is exactly what it
    was before. *)
Theorem group_position_held (fs : list Frame) (a : Animator) :
  (COUNT <= length (currentPositions a))%nat ->
  Forall noPinch fs ->
  exists a',
    frames fs a = Some a' /\
    gposition (group a') = gposition (group a).
Proof.
  revert a. induction fs as [| f rest IH]; intros a Hlen Hall.
  - exists a. split; reflexivity.
  - inversion Hall as [| f' rest' Hf Hrest]; subst.
    destruct (useFrame_defined f a Hlen) as [a1 Ha1].
    pose proof (useFrame_length f a a1 Ha1) as Hlen1.
    destruct (useFrame_inv f a a1 Ha1) as (_ & Hpos & _).
    destruct (IH a1) as (a' & Ha' & Hpos'); [lia | exact Hrest |].
    exists a'. simpl. rewrite Ha1. split; [exact Ha' |].
    rewrite Hpos', Hpos. unfold move. unfold noPinch in Hf. rewrite Hf.
    destruct (isExploding f); reflexivity.
Qed.

Lemma group_position_held_witness :
  let fs := repeat (Sample.frame [origin] HandController.noHand false) 100 in
  let a :=
    mkAnimator (repeat origin COUNT) (Some (mkPoint2D 0.2 0.3))
               (mkGroup (mkPoint3D 2 1 0) origin) [] "#f43f5e"%string in
  (COUNT <= length (currentPositions a))%nat /\
  Forall noPinch fs /\
  exists a',
    frames fs a = Some a' /\
    gposition (group a') = gposition (group a).
Proof.
  intros fs a.
  assert (Hlen : (COUNT <= length (currentPositions a))%nat).
  { unfold a. cbn [currentPositions]. rewrite repeat_length. lia. }
  assert (Hall : Forall noPinch fs).
  { apply Forall_forall. intros f Hf. apply repeat_spec in Hf. subst f.
    reflexivity. }
  split; [exact Hlen |]. split; [exact Hall |].
  exact (group_position_held fs a Hlen Hall).
Defined.

End SteadyState.

Section Rotation.

Import ParticleSystem.

Lemma flatPalm_open : JS.gtb (openness Sample.flatPalm) 0.6 = true.
Proof. apply ltb_lt. simpl. lra. Qed.

(** C8 fails as stated: on the first frame in which a flat palm is seen
    (no hand position remembered from the frame before) the steady-state
    frame leaves the rotation of the group as it was. *)
Lemma flat_palm_first_frame_is_static :
  let f := Sample.frame [origin] Sample.flatPalm false in
  let a := Sample.animator origin None in
  isExploding f = false /\
  exists a', useFrame f a = Some a' /\
             rotation (group a') = rotation (group a).
Proof.
  intros f a. split; [reflexivity |].
  destruct (useFrame_defined f a) as [a' Ha'].
  { unfold a, Sample.animator. cbn [currentPositions].
    rewrite repeat_length. lia. }
  exists a'. split; [exact Ha' |].
  destruct (useFrame_inv f a a' Ha') as (_ & _ & Hrot & _).
  rewrite Hrot. unfold rotate. cbn [isExploding f Sample.frame handState].
  rewrite flatPalm_open. reflexivity.
Qed.

(** The same happens whenever the flat palm has not moved since the frame
    before. *)
Example flat_palm_at_rest_is_static (r : Point3D) :
  rotate (Sample.frame [origin] Sample.flatPalm false)
         (Some (position Sample.flatPalm)) r = r.
Proof.
  unfold rotate. cbn [Sample.frame handState].
  rewrite flatPalm_open. destruct r as [x y z]. simpl. f_equal; lra.
Qed.

(** C8, amended.  On a steady-state frame: with a hand detected, not
    pinching and openness above 0.6, the change of the hand position since
    the previous frame times 5.0 is added to the rotation (horizontal
    change to y, vertical change to x) when a position is remembered from
    the previous frame, and the rotation is left as it is when none is; in
    every other case 0.001 is added to the rotation about y, which then
    does change.  The position remembered for the next frame is the
    current one when a hand is detected and none otherwise. *)
Theorem rotation_step (f : Frame) (a : Animator) :
  isExploding f = false ->
  (COUNT <= length (currentPositions a))%nat ->
  exists a',
    useFrame f a = Some a' /\
    let h := handState f in
    let r := rotation (group a) in
    let r' := rotation (group a') in
    (isDetected h = true -> isPinching h = false -> 0.6 < openness h ->
     (forall p,
         prevHandPos a = Some p ->
         r' = mkPoint3D (ptx r + (posy (position h) - posy p) * 5.0)
                        (pty r + (posx (position h) - posx p) * 5.0)
                        (ptz r)) /\
     (prevHandPos a = None -> r' = r)) /\
    (~ (isDetected h = true /\ isPinching h = false /\ 0.6 < openness h) ->
     r' = mkPoint3D (ptx r) (pty r + 0.001) (ptz r) /\ r' <> r) /\
    prevHandPos a' =
    (if isDetected h then Some (position h) else None).
Proof.
  intros Hsteady Hlen.
  destruct (useFrame_defined f a Hlen) as [a' Ha'].
  exists a'. split; [exact Ha' |].
  destruct (useFrame_inv f a a' Ha') as (_ & _ & Hrot & Hprev).
  rewrite Hsteady in Hrot, Hprev.
  cbv zeta. rewrite Hrot, Hprev. unfold rotate.
  split; [| split; [| reflexivity]].
  - intros Hd Hp Ho. rewrite Hd, Hp.
    assert (Hb : JS.gtb (openness (handState f)) 0.6 = true)
      by (apply ltb_lt; exact Ho).
    rewrite Hb. simpl. split.
    + intros p ->. reflexivity.
    + intros ->. reflexivity.
  - intros Hnot.
    assert (Hb : isDetected (handState f) && negb (isPinching (handState f))
                 && JS.gtb (openness (handState f)) 0.6 = false).
    { destruct (isDetected (handState f)); [| reflexivity].
      destruct (isPinching (handState f)); [reflexivity |].
      simpl. apply ltb_ge.
      destruct (Rle_dec (openness (handState f)) 0.6) as [Hle | Hgt];
        [exact Hle |].
      exfalso. apply Hnot. repeat split. lra. }
    rewrite Hb. split; [reflexivity |].
    destruct (rotation (group a)) as [x y z]. simpl.
    intros [= Hy]. lra.
Qed.

Lemma rotation_step_witness :
  let f := Sample.frame [origin] Sample.flatPalm false in
  let a := Sample.animator origin (Some (mkPoint2D 0.4 0.45)) in
  isExploding f = false /\
  (COUNT <= length (currentPositions a))%nat /\
  exists a',
    useFrame f a = Some a' /\
    let h := handState f in
    let r := rotation (group a) in
    let r' := rotation (group a') in
    (isDetected h = true -> isPinching h = false -> 0.6 < openness h ->
     (forall p,
         prevHandPos a = Some p ->
         r' = mkPoint3D (ptx r + (posy (position h) - posy p) * 5.0)
                        (pty r + (posx (position h) - posx p) * 5.0)
                        (ptz r)) /\
     (prevHandPos a = None -> r' = r)) /\
    (~ (isDetected h = true /\ isPinching h = false /\ 0.6 < openness h) ->
     r' = mkPoint3D (ptx r) (pty r + 0.001) (ptz r) /\ r' <> r) /\
    prevHandPos a' =
    (if isDetected h then Some (position h) else None).
Proof.
  intros f a.
  assert (Hlen : (COUNT <= length (currentPositions a))%nat).
  { unfold a, Sample.animator. cbn [currentPositions].
    rewrite repeat_length. lia. }
  split; [reflexivity |]. split; [exact Hlen |].
  exact (rotation_step f a eq_refl Hlen).
Defined.

End Rotation.

Section Explosion.

Import ParticleSystem.

(** The factor applied to particle [i] on every exploding frame. *)
Let speed (i : nat) : R := 1.08 * (1 + 0.004 * INR (i mod 10)).

Lemma speed_gt_1 (i : nat) : 1 < speed i.
Proof.
  unfold speed. pose proof (pos_INR (i mod 10)). nra.
Qed.

Lemma speed_lt (i j : nat) :
  (i mod 10 < j mod 10)%nat -> speed i < speed j.
Proof.
  intros H. unfold speed. apply lt_INR in H. lra.
Qed.

Lemma norm_nonneg (p : Point3D) : 0 <= norm p.
Proof. apply sqrt_pos. Qed.

Lemma norm_pos (p : Point3D) : p <> origin -> 0 < norm p.
Proof.
  intros Hne. unfold norm. apply sqrt_lt_R0.
  destruct p as [x y z]. simpl.
  destruct (Req_dec x 0) as [-> | Hx]; [| nra].
  destruct (Req_dec y 0) as [-> | Hy]; [| nra].
  destruct (Req_dec z 0) as [-> | Hz]; [| nra].
  exfalso. apply Hne. reflexivity.
Qed.

(** One exploding frame multiplies the distance from the origin by the
    factor of the particle. *)
Lemma norm_explode (i : nat) (current : Point3D) :
  norm (explode i current) = speed i * norm current.
Proof.
  pose proof (speed_gt_1 i) as Hs.
  unfold norm, explode, baseSpeed. cbn [ptx pty ptz].
  replace (1.08 * (1.0 + INR (i mod 10) * 0.004)) with (speed i)
    by (unfold speed; lra).
  destruct current as [x y z]. cbn [ptx pty ptz].
  replace (x * speed i * (x * speed i) + y * speed i * (y * speed i)
           + z * speed i * (z * speed i))
    with (speed i * speed i * (x * x + y * y + z * z)) by ring.
  rewrite sqrt_mult; [| nra | nra].
  rewrite sqrt_square; [reflexivity | lra].
Qed.

Lemma explode_origin (i : nat) : explode i origin = origin.
Proof. unfold explode, origin. cbn [ptx pty ptz]. f_equal; lra. Qed.

(** Particles at the origin stay at the origin through an exploding frame,
    so their distance from the origin does not increase and particles with
    different indices do not separate. *)
Lemma particles_at_origin_do_not_expand :
  let f := Sample.frame [origin] HandController.noHand true in
  let a := Sample.animator origin None in
  isExploding f = true /\
  exists a',
    useFrame f a = Some a' /\
    forall i,
      (i < COUNT)%nat ->
      nth_error (currentPositions a) i = Some origin /\
      nth_error (currentPositions a') i = Some origin /\
      norm origin = 0.
Proof.
  intros f a. split; [reflexivity |].
  destruct (useFrame_defined f a) as [a' Ha'].
  { unfold a, Sample.animator. cbn [currentPositions].
    rewrite repeat_length. lia. }
  exists a'. split; [exact Ha' |]. intros i Hi.
  assert (Hnth : nth_error (currentPositions a) i = Some origin).
  { unfold a, Sample.animator. cbn [currentPositions].
    rewrite nth_error_repeat; [reflexivity | exact Hi]. }
  split; [exact Hnth |]. split.
  - rewrite (useFrame_particle f a a' i origin Ha' Hi Hnth).
    cbn [isExploding f Sample.frame]. rewrite explode_origin. reflexivity.
  - unfold norm, origin. cbn [ptx pty ptz].
    replace (0 * 0 + 0 * 0 + 0 * 0) with 0 by lra. apply sqrt_0.
Qed.

End Explosion.

Section IdleConvergence.

Import ParticleSystem.

(** One idle frame (no hand): each coordinate is blended towards
    1.5 times the target, then the drift is added to x and y. *)
Lemma blend_idle (f : Frame) (i : nat) (current : Point3D) :
  isDetected (handState f) = false ->
  let t := targetOf (targetPoints f) i in
  ptx (blend f i current) - ptx t * 1.5
  = 0.9 * (ptx current - ptx t * 1.5)
    + sin (time f * 0.5 + INR i) * 0.002 /\
  pty (blend f i current) - pty t * 1.5
  = 0.9 * (pty current - pty t * 1.5)
    + cos (time f * 0.3 + INR i) * 0.002 /\
  ptz (blend f i current) - ptz t * 1.5
  = 0.9 * (ptz current - ptz t * 1.5).
Proof.
  intros Hd t.
  unfold blend, addLife, lerped, targetScaleOf, lerpSpeed, JS.lerp.
  rewrite Hd. cbn [andb ptx pty ptz]. fold t.
  repeat split; lra.
Qed.

Lemma Rabs_drift (e d s : R) :
  -1 <= s <= 1 ->
  e = 0.9 * d + s * 0.002 ->
  Rabs e <= 0.9 * Rabs d + 0.002.
Proof.
  intros Hs ->.
  unfold Rabs.
  destruct (Rcase_abs (0.9 * d + s * 0.002)), (Rcase_abs d); lra.
Qed.

(** C1 fails as stated: with the one-point cloud (1, 1, 1) and no hand the
    target is (1.5, 1.5, 1.5); a particle 0.001 below it on y is, after one
    frame at time 0, 0.0011 above it: farther away, and past the target. *)
Lemma idle_drift_overshoots :
  let f := Sample.frame [mkPoint3D 1 1 1] HandController.noHand false in
  let a := Sample.animator (mkPoint3D 1.5 1.499 1.5) None in
  idleFrame [mkPoint3D 1 1 1] f /\
  targetOf (targetPoints f) 0 = mkPoint3D 1 1 1 /\
  targetScaleOf (handState f) = 1.5 /\
  exists a',
    useFrame f a = Some a' /\
    nth_error (currentPositions a) 0 = Some (mkPoint3D 1.5 1.499 1.5) /\
    nth_error (currentPositions a') 0 = Some (mkPoint3D 1.5 1.5011 1.5) /\
    Rabs (1.499 - 1.5) < Rabs (1.5011 - 1.5).
Proof.
  intros f a. split; [repeat split |].
  split; [reflexivity |]. split; [reflexivity |].
  destruct (useFrame_defined f a) as [a' Ha'].
  { unfold a, Sample.animator. cbn [currentPositions].
    rewrite repeat_length. lia. }
  exists a'. split; [exact Ha' |].
  assert (Hnth : nth_error (currentPositions a) 0
                 = Some (mkPoint3D 1.5 1.499 1.5)) by reflexivity.
  split; [exact Hnth |]. split.
  - rewrite (useFrame_particle f a a' 0 _ Ha' ltac:(unfold COUNT; lia) Hnth).
    unfold f, Sample.frame. cbn [isExploding].
    unfold blend, addLife, lerped, targetScaleOf, targetOf, targetLen,
      lerpSpeed, JS.lerp.
    cbn [handState targetPoints time HandController.noHand isDetected
         andb length INR].
    change (nth_error [mkPoint3D 1 1 1] (0 mod 1))
      with (Some (mkPoint3D 1 1 1)).
    cbn [ptx pty ptz].
    replace (0 * 0.5 + 0) with 0 by lra.
    replace (0 * 0.3 + 0) with 0 by lra.
    rewrite sin_0, cos_0.
    f_equal. f_equal; lra.
  - unfold Rabs.
    destruct (Rcase_abs (1.499 - 1.5)), (Rcase_abs (1.5011 - 1.5)); lra.
Qed.

(** C1, amended.  With a constant non-empty cloud and no hand, any number
    [n] of steady-state frames completes, and for particle [i] with target
    [t] at index [i mod length] of the cloud, scaled by 1.5: on z the
    offset from the scaled target is exactly 0.9^n times what it was (it
    shrinks on every frame and keeps its sign, so z never passes the
    target); on x and y, where a drift of at most 0.002 is added after
    every blend, the distance to the scaled target is at most 0.9^n times
    what it was plus 0.02 * (1 - 0.9^n). *)
Theorem idle_frames_converge
        (cloud : list Point3D) (fs : list Frame) (a : Animator) :
  cloud <> [] ->
  (COUNT <= length (currentPositions a))%nat ->
  Forall (idleFrame cloud) fs ->
  exists a',
    frames fs a = Some a' /\
    forall i current,
      (i < COUNT)%nat ->
      nth_error (currentPositions a) i = Some current ->
      exists t current',
        nth_error cloud (i mod length cloud) = Some t /\
        nth_error (currentPositions a') i = Some current' /\
        let n := length fs in
        ptz current' - ptz t * 1.5
        = 0.9 ^ n * (ptz current - ptz t * 1.5) /\
        Rabs (ptx current' - ptx t * 1.5)
        <= 0.9 ^ n * Rabs (ptx current - ptx t * 1.5)
           + 0.02 * (1 - 0.9 ^ n) /\
        Rabs (pty current' - pty t * 1.5)
        <= 0.9 ^ n * Rabs (pty current - pty t * 1.5)
           + 0.02 * (1 - 0.9 ^ n).
Proof.
  intros Hne. revert a.
  induction fs as [| f rest IH]; intros a Hlen Hall.
  - exists a. split; [reflexivity |].
    intros i current Hi Hnth.
    destruct (targetOf_wraps cloud i) as [_ Ht].
    exists (targetOf cloud i), current.
    split; [exact (Ht Hne) |]. split; [exact Hnth |].
    cbn [length pow]. repeat split; lra.
  - inversion Hall as [| f' rest' Hf Hrest]; subst.
    destruct Hf as (Hsteady & Hd & Hcloud).
    destruct (useFrame_defined f a Hlen) as [a1 Ha1].
    pose proof (useFrame_length f a a1 Ha1) as Hlen1.
    destruct (IH a1) as (a' & Ha' & Hparticles); [lia | exact Hrest |].
    exists a'. split; [simpl; rewrite Ha1; exact Ha' |].
    intros i current Hi Hnth.
    pose proof (useFrame_particle f a a1 i current Ha1 Hi Hnth) as Hnth1.
    rewrite Hsteady in Hnth1.
    destruct (Hparticles i _ Hi Hnth1) as (t & current' & Ht & Hnth' & IHn).
    exists t, current'. split; [exact Ht |]. split; [exact Hnth' |].
    cbv zeta in IHn |- *. destruct IHn as (Hz & Hx & Hy).
    destruct (blend_idle f i current Hd) as (Bx & By & Bz).
    destruct (targetOf_wraps (targetPoints f) i) as [_ Ht'].
    rewrite Hcloud in Ht', Bx, By, Bz.
    rewrite (Ht' Hne) in Ht. injection Ht as Ht. rewrite Ht in Bx, By, Bz.
    pose proof (Rabs_drift _ _ _ (SIN_bound (time f * 0.5 + INR i)) Bx)
      as Ax.
    pose proof (Rabs_drift _ _ _ (COS_bound (time f * 0.3 + INR i)) By)
      as Ay.
    cbn [length pow].
    assert (Hp : 0 < 0.9 ^ length rest) by (apply pow_lt; lra).
    set (p := 0.9 ^ length rest) in *.
    split; [rewrite Hz, Bz; ring |].
    split; nra.
Qed.

Lemma idle_frames_converge_witness :
  let cloud := [mkPoint3D 1 1 1; mkPoint3D 0 1 0] in
  let fs := repeat (Sample.frame cloud HandController.noHand false) 10 in
  let a := Sample.animator (mkPoint3D 2 0 1) None in
  cloud <> [] /\
  (COUNT <= length (currentPositions a))%nat /\
  Forall (idleFrame cloud) fs /\
  exists a',
    frames fs a = Some a' /\
    forall i current,
      (i < COUNT)%nat ->
      nth_error (currentPositions a) i = Some current ->
      exists t current',
        nth_error cloud (i mod length cloud) = Some t /\
        nth_error (currentPositions a') i = Some current' /\
        let n := length fs in
        ptz current' - ptz t * 1.5
        = 0.9 ^ n * (ptz current - ptz t * 1.5) /\
        Rabs (ptx current' - ptx t * 1.5)
        <= 0.9 ^ n * Rabs (ptx current - ptx t * 1.5)
           + 0.02 * (1 - 0.9 ^ n) /\
        Rabs (pty current' - pty t * 1.5)
        <= 0.9 ^ n * Rabs (pty current - pty t * 1.5)
           + 0.02 * (1 - 0.9 ^ n).
Proof.
  intros cloud fs a.
  assert (Hne : cloud <> []) by discriminate.
  assert (Hlen : (COUNT <= length (currentPositions a))%nat).
  { unfold a, Sample.animator. cbn [currentPositions].
    rewrite repeat_length. lia. }
  assert (Hall : Forall (idleFrame cloud) fs).
  { apply Forall_forall. intros f Hf. apply repeat_spec in Hf. subst f.
    repeat split. }
  split; [exact Hne |]. split; [exact Hlen |]. split; [exact Hall |].
  exact (idle_frames_converge cloud fs a Hne Hlen Hall).
Defined.

End IdleConvergence.

(** * Further properties of the code *)

(** ** HandController: the hand state *)

Section HandStateFacts.

Import HandController.

(** The tips loop stops at the first landmark that is missing. *)
Lemma sumTipDist_short (hand : Hand) (wrist : Landmark) (idxs : list nat) :
  forall total : R,
    (exists idx, In idx idxs /\ (length hand <= idx)%nat) ->
    sumTipDist hand wrist idxs total = None.
Proof.
  induction idxs as [| idx rest IH]; intros total (bad & Hin & Hlen).
  - destruct Hin.
  - simpl. destruct (nth_error hand idx) as [tip |] eqn:E; [| reflexivity].
    apply IH. destruct Hin as [-> | Hin].
    + apply nth_error_None in Hlen. congruence.
    + exists bad. split; assumption.
Qed.

(** In the logic part, reading a landmark that is not there throws: it
    sends no state exactly when the first hand has fewer than 21
    landmarks. *)
Lemma logic_update_missing_iff
      (lastClap now : Z) (results : MPResults) :
  handUpdate (onResults lastClap now results) = None <->
  exists hand rest,
    multiHandLandmarks results = Some (hand :: rest) /\
    (length hand < 21)%nat.
Proof.
  rewrite handUpdate_onResults. split.
  - destruct (multiHandLandmarks results) as [[| hand rest] |];
      [discriminate | | discriminate].
    intros Hnone. exists hand, rest. split; [reflexivity |].
    destruct (Nat.lt_ge_cases (length hand) 21) as [Hlt | Hge];
      [exact Hlt |].
    rewrite (handStateOf_complete hand Hge) in Hnone. discriminate.
  - intros (hand & rest & -> & Hlt).
    unfold handStateOf.
    destruct (nth_error hand 4); [| reflexivity].
    destruct (nth_error hand 8); [| reflexivity].
    destruct (nth_error hand 9); [| reflexivity].
    destruct (nth_error hand 0); [| reflexivity].
    rewrite sumTipDist_short; [reflexivity |].
    exists 20%nat. split; [simpl; tauto | lia].
Qed.

(** Openness as a function of the mean tip distance: 0 up to 0.15, 1 from
    0.40 on, linear in between, and never decreasing. *)
Theorem openness_piecewise (avgDist : R) :
  opennessOf avgDist =
  (if JS.ltb avgDist 0.15 then 0
   else if JS.ltb 0.40 avgDist then 1
        else (avgDist - 0.15) / 0.25) /\
  forall other, avgDist <= other -> opennessOf avgDist <= opennessOf other.
Proof.
  assert (Hval : forall a,
             opennessOf a =
             if JS.ltb a 0.15 then 0
             else if JS.ltb 0.40 a then 1 else (a - 0.15) / 0.25).
  { intros a. unfold opennessOf, minOpen, maxOpen.
    replace (0.40 - 0.15) with 0.25 by lra.
    destruct (JS.ltb a 0.15) eqn:E1.
    - apply ltb_lt in E1.
      rewrite Rmax_right by lra. rewrite Rmin_left by lra. reflexivity.
    - apply ltb_ge in E1.
      rewrite Rmax_left by lra.
      destruct (JS.ltb 0.40 a) eqn:E2.
      + apply ltb_lt in E2. rewrite Rmin_right by lra. reflexivity.
      + apply ltb_ge in E2. rewrite Rmin_left by lra. reflexivity. }
  split; [apply Hval |].
  intros other Hle. rewrite (Hval avgDist), (Hval other).
  destruct (JS.ltb avgDist 0.15) eqn:A1, (JS.ltb other 0.15) eqn:B1,
           (JS.ltb 0.40 avgDist) eqn:A2, (JS.ltb 0.40 other) eqn:B2;
    repeat match goal with
           | H : JS.ltb _ _ = true |- _ => apply ltb_lt in H
           | H : JS.ltb _ _ = false |- _ => apply ltb_ge in H
           end; lra.
Qed.

Lemma openness_piecewise_witness :
  opennessOf 0.2 =
  (if JS.ltb 0.2 0.15 then 0
   else if JS.ltb 0.40 0.2 then 1 else (0.2 - 0.15) / 0.25) /\
  (0.2 <= 0.3 -> opennessOf 0.2 <= opennessOf 0.3).
Proof.
  destruct (openness_piecewise 0.2) as [Hval Hmono].
  split; [exact Hval | exact (Hmono 0.3)].
Defined.

End HandStateFacts.

(** ** HandController: centroids and the trigger *)

Section TriggerFacts.

Import HandController.

Lemma fold_sum_shift (g : Point3D -> R) (l : list Point3D) :
  forall acc, fold_left (fun a p => a + g p) l acc
              = acc + fold_left (fun a p => a + g p) l 0.
Proof.
  induction l as [| p l IH]; intros acc; simpl.
  - lra.
  - rewrite (IH (acc + g p)), (IH (0 + g p)). lra.
Qed.

Lemma fold_sum_bounds (g : Point3D -> R) (lo hi : R) (l : list Point3D) :
  Forall (fun p => lo <= g p <= hi) l ->
  INR (length l) * lo <= fold_left (fun a p => a + g p) l 0
  <= INR (length l) * hi.
Proof.
  induction 1 as [| p l Hp _ IH].
  - simpl. lra.
  - cbn [fold_left]. rewrite fold_sum_shift.
    change (length (p :: l)) with (S (length l)). rewrite S_INR. lra.
Qed.

Lemma mean_bounds (n s lo hi : R) :
  0 < n -> n * lo <= s <= n * hi -> lo <= s / n <= hi.
Proof.
  intros Hn [Hlo Hhi]. split.
  - apply (Rmult_le_reg_r n); [exact Hn |].
    replace (s / n * n) with s by (field; lra). lra.
  - apply (Rmult_le_reg_r n); [exact Hn |].
    replace (s / n * n) with s by (field; lra). lra.
Qed.

(** The centroid of a hand lies in every rectangle that holds its
    landmarks. *)
Theorem centroid_in_bounding_box
        (hand : Hand) (xlo xhi ylo yhi : R) :
  hand <> [] ->
  Forall (fun p => xlo <= ptx p <= xhi) hand ->
  Forall (fun p => ylo <= pty p <= yhi) hand ->
  exists c,
    getCentroid hand = Some c /\
    xlo <= posx c <= xhi /\ ylo <= posy c <= yhi.
Proof.
  intros Hne Hx Hy.
  destruct hand as [| p rest]; [congruence |].
  eexists. split; [reflexivity |]. cbn [posx posy].
  pose proof (fold_sum_bounds ptx xlo xhi _ Hx) as Bx.
  pose proof (fold_sum_bounds pty ylo yhi _ Hy) as By.
  assert (Hn : 0 < INR (length (p :: rest))) by (apply lt_0_INR; simpl; lia).
  split; apply mean_bounds; assumption.
Qed.

Lemma centroid_in_bounding_box_witness :
  Sample.leftHand <> [] /\
  Forall (fun p => 0 <= ptx p <= 1) Sample.leftHand /\
  Forall (fun p => 0 <= pty p <= 1) Sample.leftHand /\
  exists c,
    getCentroid Sample.leftHand = Some c /\
    0 <= posx c <= 1 /\ 0 <= posy c <= 1.
Proof.
  assert (Hne : Sample.leftHand <> []) by discriminate.
  assert (Hx : Forall (fun p => 0 <= ptx p <= 1) Sample.leftHand).
  { unfold Sample.leftHand, Sample.hand. simpl.
    repeat constructor; simpl; lra. }
  assert (Hy : Forall (fun p => 0 <= pty p <= 1) Sample.leftHand).
  { unfold Sample.leftHand, Sample.hand. simpl.
    repeat constructor; simpl; lra. }
  split; [exact Hne |]. split; [exact Hx |]. split; [exact Hy |].
  exact (centroid_in_bounding_box Sample.leftHand 0 1 0 1 Hne Hx Hy).
Defined.

Lemma handsClose_sym (hand1 hand2 : Hand) :
  handsClose hand1 hand2 = handsClose hand2 hand1.
Proof.
  unfold handsClose, centroidDist.
  destruct (getCentroid hand1) as [c1 |], (getCentroid hand2) as [c2 |];
    try reflexivity.
  unfold JS.hypot. f_equal. f_equal. ring.
Qed.

(** The trigger does not depend on the order in which the detector lists
    the two hands. *)
Theorem trigger_ignores_hand_order
        (lastClap now : Z) (hand1 hand2 : Hand) :
  clapped (onResults lastClap now (mkResults (Some [hand1; hand2])))
  = clapped (onResults lastClap now (mkResults (Some [hand2; hand1]))) /\
  lastClapTime (onResults lastClap now (mkResults (Some [hand1; hand2])))
  = lastClapTime (onResults lastClap now (mkResults (Some [hand2; hand1]))).
Proof.
  unfold onResults. cbn [multiHandLandmarks proximityTrigger].
  rewrite (handsClose_sym hand2 hand1).
  destruct (handsClose hand1 hand2); [| split; reflexivity].
  destruct (now - lastClap >? 1000)%Z; split; reflexivity.
Qed.

(** The logic part calls [onClap()] exactly when the frame shows two hands
    with centroids less than 0.12 apart and more than 1000 ms have passed
    since the last call. *)
Lemma logic_fires_iff (lastClap now : Z) (results : MPResults) :
  clapped (onResults lastClap now results) = true <->
  twoHandsClose results /\ (1000 < now - lastClap)%Z.
Proof.
  split.
  - unfold onResults, twoHandsClose.
    destruct (multiHandLandmarks results)
      as [[| hand1 [| hand2 [| hand3 rest]]] |];
      cbn [proximityTrigger clapped]; try discriminate.
    unfold handsClose.
    destruct (centroidDist hand1 hand2) as [dist |] eqn:Ed;
      [| discriminate].
    destruct (JS.ltb dist PROXIMITY_THRESHOLD) eqn:El; [| discriminate].
    destruct (now - lastClap >? 1000)%Z eqn:Ez; [| discriminate].
    intros _. split; [| lia].
    exists hand1, hand2, dist. repeat split; try assumption.
    apply ltb_lt in El. exact El.
  - intros [Hclose Hnow]. apply onResults_fires; assumption.
Qed.

Lemma firingTimes_cons (lastClap now : Z) (results : MPResults)
      (rest : list (Z * MPResults)) :
  firingTimes lastClap ((now, results) :: rest) =
  if clapped (onResults lastClap now results)
  then now :: firingTimes now rest
  else firingTimes lastClap rest.
Proof.
  unfold firingTimes. cbn [run combine filter snd].
  destruct (onResults_cases lastClap now results)
    as [(-> & -> & _) | (-> & ->)]; reflexivity.
Qed.

Lemma last_cons_default (ts : list Z) :
  forall a d : Z, last (a :: ts) d = last ts a.
Proof.
  induction ts as [| t ts IH]; intros a d; [reflexivity |].
  change (last (a :: t :: ts) d) with (last (t :: ts) d).
  rewrite (IH t d), (IH t a). reflexivity.
Qed.

(** The trigger fires at most once per second: when it fired [k] times
    during a run, the last firing is at least [1000 * k] ms after the
    firing that preceded the run. *)
Theorem firings_are_rate_limited (frames : list (Z * MPResults)) :
  forall lastClap : Z,
    (1000 * Z.of_nat (length (firingTimes lastClap frames))
     <= last (firingTimes lastClap frames) lastClap - lastClap)%Z.
Proof.
  induction frames as [| [now results] rest IH]; intros lastClap.
  - simpl. lia.
  - rewrite firingTimes_cons.
    destruct (onResults_cases lastClap now results)
      as [(-> & _ & Hgt) | (-> & _)].
    + specialize (IH now).
      set (ts := firingTimes now rest) in *.
      rewrite last_cons_default. cbn [length]. lia.
    + apply IH.
Qed.

End TriggerFacts.

(** ** App: smoothing *)

Section SmoothingFacts.

(** Smoothing never leaves the nominal ranges: when the session's hand state
    and every state delivered by the detector have openness in [[0, 1]] and
    position in the unit square, so has the state handed on. *)
Theorem smoothing_stays_nominal (states : list HandState) :
  forall s : App.Session,
    nominal (App.handState s) ->
    Forall nominal states ->
    nominal (App.handState
               (fold_left (fun s' st => App.handleHandUpdate st s') states s)).
Proof.
  induction states as [| st rest IH]; intros s Hs Hall.
  - exact Hs.
  - inversion Hall as [| st' rest' Hst Hrest]; subst.
    cbn [fold_left]. apply IH; [| exact Hrest].
    destruct Hs as (Ho & Hx & Hy). destruct Hst as (Ho' & Hx' & Hy').
    unfold nominal.
    cbn [App.handleHandUpdate App.handState App.smooth openness position
         posx posy].
    repeat split; lra.
Qed.

Lemma smoothing_stays_nominal_witness :
  let states :=
    [mkHandState true (mkPoint2D 0.2 0.3) false 1; HandController.noHand] in
  nominal (App.handState App.initial) /\
  Forall nominal states /\
  nominal (App.handState
             (fold_left (fun s' st => App.handleHandUpdate st s') states
                        App.initial)).
Proof.
  intros states.
  assert (H0 : nominal (App.handState App.initial))
    by (unfold nominal; simpl; lra).
  assert (Hall : Forall nominal states)
    by (repeat constructor; simpl; lra).
  split; [exact H0 |]. split; [exact Hall |].
  exact (smoothing_stays_nominal states App.initial H0 Hall).
Defined.

(** A hand held still: after [n >= 1] updates with the same state, detection
    and pinch flags are those of the state, and the smoothed openness and
    position differ from the state's by 0.7^n times the initial
    difference. *)
Theorem smoothing_converges (st : HandState) (s : App.Session) (n : nat) :
  let h := App.handState (Nat.iter (S n) (App.handleHandUpdate st) s) in
  let prev := App.handState s in
  isDetected h = isDetected st /\
  isPinching h = isPinching st /\
  openness h - openness st = 0.7 ^ S n * (openness prev - openness st) /\
  posx (position h) - posx (position st)
  = 0.7 ^ S n * (posx (position prev) - posx (position st)) /\
  posy (position h) - posy (position st)
  = 0.7 ^ S n * (posy (position prev) - posy (position st)).
Proof.
  cbv zeta. split; [reflexivity |]. split; [reflexivity |].
  induction n as [| n (Ho & Hx & Hy)].
  - cbn [Nat.iter nat_rect App.handleHandUpdate App.handState App.smooth
         openness position posx posy pow].
    repeat split; lra.
  - rewrite Nat.iter_succ.
    set (s' := Nat.iter (S n) (App.handleHandUpdate st) s) in *.
    cbn [App.handleHandUpdate App.handState App.smooth
         openness position posx posy].
    change (0.7 ^ S (S n)) with (0.7 * 0.7 ^ S n).
    repeat split; nra.
Qed.

End SmoothingFacts.

(** ** App: the explosion cycle *)

Section ExplosionCycle.

Variable generateMathShape : ShapeType -> list Point3D.

(** [Math.floor(Math.random() * n)] is an index below [n]. *)
Lemma floorIndex_lt (r : R) (n : nat) :
  0 <= r < 1 -> (0 < n)%nat -> (JS.floorIndex (r * INR n) < n)%nat.
Proof.
  intros [Hr0 Hr1] Hn. unfold JS.floorIndex.
  assert (Hpos : 0 < INR n) by (apply lt_0_INR; exact Hn).
  set (x := r * INR n).
  assert (Hx : 0 <= x < INR n) by (unfold x; split; nra).
  destruct (base_Int_part x) as [Hle Hgt].
  assert (Hub : (Int_part x < Z.of_nat n)%Z).
  { apply lt_IZR. rewrite <- INR_IZR_INZ. lra. }
  assert (Hlb : (-1 < Int_part x)%Z) by (apply lt_IZR; lra).
  lia.
Qed.

Lemma switchShape_result
      (t : App.Timeout) (r1 r2 : R) (s : App.Session) :
  0 <= r1 < 1 ->
  0 <= r2 < 1 ->
  let s' := App.switchShape generateMathShape t r1 r2 s in
  In (App.shapeType s') [Sphere; Cube; Heart; Flower; Saturn; Fireworks] /\
  App.shapeType s' <> App.capturedShapeType t /\
  App.targetPoints s' = generateMathShape (App.shapeType s') /\
  In (App.color s') App.colors /\
  App.isExploding s' = false /\
  App.handState s' = App.handState s /\
  App.timeouts s' = App.timeouts s.
Proof.
  intros Hr1 Hr2. cbv zeta. unfold App.switchShape.
  cbn [App.shapeType App.targetPoints App.color App.isExploding
       App.handState App.timeouts].
  split; [| split; [| split; [reflexivity | split;
                              [| repeat split]]]].
  - destruct (App.capturedShapeType t); cbn [filter App.shapeValues
      ShapeType_eqb negb andb];
      match goal with
      | |- In (nth ?i ?l ?d) _ =>
        assert (Hin : In (nth i l d) l)
          by (apply nth_In; apply floorIndex_lt; [exact Hr1 | simpl; lia])
      end;
      simpl in Hin |- *; tauto.
  - destruct (App.capturedShapeType t); cbn [filter App.shapeValues
      ShapeType_eqb negb andb];
      match goal with
      | |- nth ?i ?l ?d <> _ =>
        assert (Hin : In (nth i l d) l)
          by (apply nth_In; apply floorIndex_lt; [exact Hr1 | simpl; lia])
      end;
      intros Heq; rewrite Heq in Hin; simpl in Hin;
      repeat (destruct Hin as [Hin | Hin]; [discriminate |]);
      exact Hin.
  - apply nth_In. apply floorIndex_lt; [exact Hr2 | simpl; lia].
Qed.

(** When the timeout fires, the new shape is one of the six mathematical
    presets and differs from the shape shown when the clap came; the cloud
    is the one generated for it, the colour is one of the palette, and the
    explosion flag is cleared. *)
Theorem switch_picks_a_new_preset
        (t : App.Timeout) (r1 r2 : R) (s : App.Session) :
  0 <= r1 < 1 ->
  0 <= r2 < 1 ->
  let s' := App.switchShape generateMathShape t r1 r2 s in
  In (App.shapeType s') [Sphere; Cube; Heart; Flower; Saturn; Fireworks] /\
  App.shapeType s' <> App.capturedShapeType t /\
  App.targetPoints s' = generateMathShape (App.shapeType s') /\
  In (App.color s') App.colors /\
  App.isExploding s' = false /\
  App.handState s' = App.handState s /\
  App.timeouts s' = App.timeouts s.
Proof.
  intros Hr1 Hr2. exact (switchShape_result t r1 r2 s Hr1 Hr2).
Qed.

(** A clap in a session that is not exploding, followed by the expiry of
    its timeout, ends with the flag cleared and no timeout pending, on a
    mathematical preset other than the one shown before, with the cloud
    generated for it and the hand state untouched. *)
Theorem clap_cycle_switches_shape (r1 r2 : R) (s : App.Session) :
  App.reachable generateMathShape s ->
  App.isExploding s = false ->
  0 <= r1 < 1 ->
  0 <= r2 < 1 ->
  let s' := App.fireTimeout generateMathShape r1 r2 (App.handleClap s) in
  App.isExploding s' = false /\
  App.timeouts s' = [] /\
  In (App.shapeType s') [Sphere; Cube; Heart; Flower; Saturn; Fireworks] /\
  App.shapeType s' <> App.shapeType s /\
  App.targetPoints s' = generateMathShape (App.shapeType s') /\
  In (App.color s') App.colors /\
  App.handState s' = App.handState s.
Proof.
  intros Hr He Hr1 Hr2.
  destruct (reachable_timeouts generateMathShape s Hr)
    as [(He' & _) | (_ & Ht)]; [congruence |].
  cbv zeta. unfold App.handleClap, App.fireTimeout.
  rewrite He, Ht. cbn [app App.timeouts].
  match goal with
  | |- context [App.switchShape _ ?t _ _ ?s0] =>
    destruct (switchShape_result t r1 r2 s0 Hr1 Hr2)
      as (Hin & Hne & Hpts & Hcol & Hex & Hhs & Hts)
  end.
  cbn [App.capturedShapeType App.handState App.timeouts] in Hne, Hhs, Hts.
  repeat split; assumption.
Qed.

(** What the user picks while the explosion runs does not survive it: the
    expiry of the timeout gives the same session whether or not a shape or
    a colour was chosen in between. *)
Theorem choices_during_explosion_are_lost
        (r1 r2 : R) (type : ShapeType) (points : option (list Point3D))
        (c : string) (s : App.Session) :
  App.reachable generateMathShape s ->
  App.isExploding s = true ->
  App.fireTimeout generateMathShape r1 r2
    (App.handleShapeChange generateMathShape type points s)
  = App.fireTimeout generateMathShape r1 r2 s /\
  App.fireTimeout generateMathShape r1 r2 (App.setColor c s)
  = App.fireTimeout generateMathShape r1 r2 s.
Proof.
  intros Hr He.
  destruct (reachable_timeouts generateMathShape s Hr)
    as [(_ & shape & Ht) | (He' & _)]; [| congruence].
  unfold App.fireTimeout, App.handleShapeChange, App.setColor.
  cbn [App.timeouts]. rewrite Ht. split; reflexivity.
Qed.

End ExplosionCycle.

Lemma switch_picks_a_new_preset_witness :
  let gen := fun _ : ShapeType => [origin] in
  let t := App.mkTimeout 500 Heart in
  let s' := App.switchShape gen t 0.5 0.9 App.initial in
  0 <= 0.5 < 1 /\
  0 <= 0.9 < 1 /\
  In (App.shapeType s') [Sphere; Cube; Heart; Flower; Saturn; Fireworks] /\
  App.shapeType s' <> App.capturedShapeType t /\
  App.targetPoints s' = gen (App.shapeType s') /\
  In (App.color s') App.colors /\
  App.isExploding s' = false /\
  App.handState s' = App.handState App.initial /\
  App.timeouts s' = App.timeouts App.initial.
Proof.
  intros gen t s'.
  assert (H1 : 0 <= 0.5 < 1) by lra.
  assert (H2 : 0 <= 0.9 < 1) by lra.
  split; [exact H1 |]. split; [exact H2 |].
  exact (switch_picks_a_new_preset gen t 0.5 0.9 App.initial H1 H2).
Defined.


Lemma clap_cycle_switches_shape_witness :
  let gen := fun _ : ShapeType => [origin] in
  let s := App.initial in
  let s' := App.fireTimeout gen 0.5 0.9 (App.handleClap s) in
  App.reachable gen s /\
  App.isExploding s = false /\
  0 <= 0.5 < 1 /\
  0 <= 0.9 < 1 /\
  App.isExploding s' = false /\
  App.timeouts s' = [] /\
  In (App.shapeType s') [Sphere; Cube; Heart; Flower; Saturn; Fireworks] /\
  App.shapeType s' <> App.shapeType s /\
  App.targetPoints s' = gen (App.shapeType s') /\
  In (App.color s') App.colors /\
  App.handState s' = App.handState s.
Proof.
  intros gen s s'.
  assert (Hr : App.reachable gen s) by constructor.
  assert (H1 : 0 <= 0.5 < 1) by lra.
  assert (H2 : 0 <= 0.9 < 1) by lra.
  split; [exact Hr |]. split; [reflexivity |].
  split; [exact H1 |]. split; [exact H2 |].
  exact (clap_cycle_switches_shape gen 0.5 0.9 s Hr eq_refl H1 H2).
Defined.

Lemma choices_during_explosion_are_lost_witness :
  let gen := fun _ : ShapeType => [origin] in
  let s := App.handleClap App.initial in
  App.reachable gen s /\
  App.isExploding s = true /\
  App.fireTimeout gen 0.5 0.9 (App.handleShapeChange gen Cube None s)
  = App.fireTimeout gen 0.5 0.9 s /\
  App.fireTimeout gen 0.5 0.9 (App.setColor "#ffffff"%string s)
  = App.fireTimeout gen 0.5 0.9 s.
Proof.
  intros gen s.
  assert (Hr : App.reachable gen s) by (repeat constructor).
  split; [exact Hr |]. split; [reflexivity |].
  exact (choices_during_explosion_are_lost
           gen 0.5 0.9 Cube None "#ffffff"%string s Hr eq_refl).
Defined.


(** ** ParticleSystem: the pool and the instance matrices *)

Section PoolFacts.

Import ParticleSystem.

Lemma forEachParticle_short (body : nat -> Point3D -> Point3D) (n : nat) :
  forall (i : nat) (pool : list Point3D),
    (length pool < n)%nat -> forEachParticle body n i pool = None.
Proof.
  induction n as [| n IH]; intros i pool Hlen; [lia |].
  destruct pool as [| current rest]; [reflexivity |].
  simpl in Hlen |- *. rewrite IH by lia. reflexivity.
Qed.

Lemma forEachParticle_beyond (body : nat -> Point3D -> Point3D) (n : nat) :
  forall (i k : nat) (pool pool' : list Point3D),
    forEachParticle body n i pool = Some pool' ->
    (n <= k)%nat ->
    nth_error pool' k = nth_error pool k.
Proof.
  induction n as [| n IH]; intros i k pool pool' H Hk; simpl in H.
  - injection H as <-. reflexivity.
  - destruct pool as [| current rest]; [discriminate |].
    destruct (forEachParticle body n (S i) rest) as [rest' |] eqn:E;
      [| discriminate].
    injection H as <-.
    destruct k as [| k]; [lia |]. simpl.
    eapply IH; [eassumption | lia].
Qed.

Lemma useFrame_short (f : Frame) (a : Animator) :
  (length (currentPositions a) < COUNT)%nat -> useFrame f a = None.
Proof.
  intros Hlt. unfold useFrame.
  destruct (isExploding f); rewrite forEachParticle_short by exact Hlt;
    reflexivity.
Qed.

(** The frame callback throws exactly when the pool holds fewer than
    [COUNT] particles; otherwise it keeps the size of the pool and leaves
    every particle from index [COUNT] on as it was. *)
Theorem frame_fails_iff_pool_short (f : Frame) (a : Animator) :
  (useFrame f a = None <-> (length (currentPositions a) < COUNT)%nat) /\
  forall a',
    useFrame f a = Some a' ->
    length (currentPositions a') = length (currentPositions a) /\
    forall k,
      (COUNT <= k)%nat ->
      nth_error (currentPositions a') k = nth_error (currentPositions a) k.
Proof.
  split; [split |].
  - intros Hnone.
    destruct (Nat.lt_ge_cases (length (currentPositions a)) COUNT)
      as [Hlt | Hge]; [exact Hlt |].
    destruct (useFrame_defined f a Hge) as [a' Ha']. congruence.
  - apply useFrame_short.
  - intros a' Ha'. split; [exact (useFrame_length f a a' Ha') |].
    intros k Hk.
    destruct (useFrame_inv f a a' Ha') as (Hpool & _).
    exact (forEachParticle_beyond _ COUNT 0 k _ _ Hpool Hk).
Qed.

Lemma frame_fails_iff_pool_short_witness :
  let f := Sample.frame [origin] HandController.noHand false in
  let a :=
    mkAnimator (repeat origin 10) None (mkGroup origin origin) []
               "#f43f5e"%string in
  (length (currentPositions a) < COUNT)%nat /\ useFrame f a = None.
Proof.
  intros f a.
  assert (Hlt : (length (currentPositions a) < COUNT)%nat)
    by (unfold COUNT; simpl; lia).
  split; [exact Hlt |].
  destruct (frame_fails_iff_pool_short f a) as [[_ Hnone] _].
  exact (Hnone Hlt).
Defined.

Lemma nth_error_matrices (pScale : R) (pool : list Point3D) (i : nat) :
  (i < COUNT)%nat ->
  nth_error (matrices pScale pool) i
  = option_map (fun p => mkInstance p pScale) (nth_error pool i).
Proof.
  intros Hi. unfold matrices.
  rewrite nth_error_map, nth_error_firstn.
  destruct (Nat.ltb_spec i COUNT); [reflexivity | lia].
Qed.

(** Every frame that completes writes one matrix per particle of the pool,
    in pool order: [COUNT] matrices, the [i]-th at the new position of
    particle [i], all with scale 0.04 while exploding and the scale of the
    hand state otherwise; the material takes white while exploding and the
    theme colour otherwise. *)
Theorem frame_writes_one_matrix_per_particle (f : Frame) (a : Animator) :
  (COUNT <= length (currentPositions a))%nat ->
  exists a',
    useFrame f a = Some a' /\
    let pScale :=
      if isExploding f then 0.04 else particleScale (handState f) in
    length (instanceMatrix a') = COUNT /\
    (forall i p,
        (i < COUNT)%nat ->
        nth_error (currentPositions a') i = Some p ->
        nth_error (instanceMatrix a') i = Some (mkInstance p pScale)) /\
    materialColor a' = (if isExploding f then "#ffffff"%string else color f).
Proof.
  intros Hlen0.
  destruct (useFrame_defined f a Hlen0) as [a' Ha'].
  exists a'. split; [exact Ha' |]. cbv zeta.
  assert (Hlen : (COUNT <= length (currentPositions a'))%nat)
    by (rewrite (useFrame_length f a a' Ha'); exact Hlen0).
  assert (Hm : instanceMatrix a'
               = matrices (if isExploding f then 0.04
                           else particleScale (handState f))
                          (currentPositions a') /\
               materialColor a'
               = (if isExploding f then "#ffffff"%string else color f)).
  { unfold useFrame in Ha'. destruct (isExploding f).
    - destruct (forEachParticle explode COUNT 0 _); [| discriminate].
      injection Ha' as <-. split; reflexivity.
    - destruct (forEachParticle (blend f) COUNT 0 _); [| discriminate].
      injection Ha' as <-. split; reflexivity. }
  destruct Hm as [Hm Hc]. rewrite Hm.
  split; [| split; [| exact Hc]].
  - unfold matrices. rewrite length_map, length_firstn. lia.
  - intros i p Hi Hp. rewrite nth_error_matrices by exact Hi.
    rewrite Hp. reflexivity.
Qed.

Lemma frame_writes_one_matrix_per_particle_witness :
  let f := Sample.frame [origin] Sample.flatPalm false in
  let a := Sample.animator (mkPoint3D 1 2 2) None in
  (COUNT <= length (currentPositions a))%nat /\
  exists a',
    useFrame f a = Some a' /\
    let pScale :=
      if isExploding f then 0.04 else particleScale (handState f) in
    length (instanceMatrix a') = COUNT /\
    (forall i p,
        (i < COUNT)%nat ->
        nth_error (currentPositions a') i = Some p ->
        nth_error (instanceMatrix a') i = Some (mkInstance p pScale)) /\
    materialColor a' = (if isExploding f then "#ffffff"%string else color f).
Proof.
  intros f a.
  assert (Hlen : (COUNT <= length (currentPositions a))%nat).
  { unfold a, Sample.animator. cbn [currentPositions].
    rewrite repeat_length. lia. }
  split; [exact Hlen |].
  exact (frame_writes_one_matrix_per_particle f a Hlen).
Defined.

End PoolFacts.

(** ** ParticleSystem: the group transform *)

Section GroupFacts.

Import ParticleSystem.

(** With an openness in [[0, 1]] the factor applied to the target cloud
    lies between 0.2 and 1.5 and the scale of a particle between 0.01 and
    0.03, whatever the detection and pinch flags are. *)
Theorem scales_are_bounded (h : HandState) :
  0 <= openness h <= 1 ->
  0.2 <= targetScaleOf h <= 1.5 /\ 0.01 <= particleScale h <= 0.03.
Proof.
  intros Ho. unfold targetScaleOf, particleScale.
  destruct (isDetected h), (isPinching h); split; lra.
Qed.

Lemma scales_are_bounded_witness :
  0 <= openness Sample.flatPalm <= 1 /\
  0.2 <= targetScaleOf Sample.flatPalm <= 1.5 /\
  0.01 <= particleScale Sample.flatPalm <= 0.03.
Proof.
  assert (Ho : 0 <= openness Sample.flatPalm <= 1) by (simpl; lra).
  split; [exact Ho | exact (scales_are_bounded Sample.flatPalm Ho)].
Defined.

(** While a hand pinches at a fixed place, every frame moves the group 15%
    of the way to the mirrored viewport point
    [(-(x - 0.5) * width, -(y - 0.5) * height, 0)]: after [n] frames the
    offset from that point is 0.85^n times the initial offset, on each
    axis. *)
Theorem pinch_moves_group_towards_hand
        (p : Point2D) (v : Viewport) (fs : list Frame) (a : Animator) :
  (COUNT <= length (currentPositions a))%nat ->
  Forall (pinchFrame p v) fs ->
  exists a',
    frames fs a = Some a' /\
    let tx := - (posx p - 0.5) * width v in
    let ty := - (posy p - 0.5) * height v in
    let g := gposition (group a) in
    let g' := gposition (group a') in
    ptx g' - tx = 0.85 ^ length fs * (ptx g - tx) /\
    pty g' - ty = 0.85 ^ length fs * (pty g - ty) /\
    ptz g' = 0.85 ^ length fs * ptz g.
Proof.
  revert a. induction fs as [| f rest IH]; intros a Hlen Hall.
  - exists a. split; [reflexivity |]. cbn [length pow]. repeat split; lra.
  - inversion Hall as [| f' rest' Hf Hrest]; subst.
    destruct Hf as (Hsteady & Hd & Hp & Hpos & Hv).
    destruct (useFrame_defined f a Hlen) as [a1 Ha1].
    pose proof (useFrame_length f a a1 Ha1) as Hlen1.
    destruct (useFrame_inv f a a1 Ha1) as (_ & Hg & _).
    rewrite Hsteady in Hg. unfold move in Hg.
    rewrite Hd, Hp, Hpos, Hv in Hg. cbn [andb] in Hg.
    destruct (IH a1) as (a' & Ha' & Hx & Hy & Hz); [lia | exact Hrest |].
    exists a'. split; [simpl; rewrite Ha1; exact Ha' |].
    cbv zeta in Hx, Hy, Hz |- *. rewrite Hg in Hx, Hy, Hz.
    unfold lerpVector in Hx, Hy, Hz. cbn [ptx pty ptz] in Hx, Hy, Hz.
    cbn [length pow].
    set (q := 0.85 ^ length rest) in *.
    repeat split; nra.
Qed.

Lemma pinch_moves_group_towards_hand_witness :
  let p := mkPoint2D 0.25 0.5 in
  let f :=
    Sample.frame [origin] (mkHandState true p true 0.5) false in
  let fs := repeat f 20 in
  let a := Sample.animator origin None in
  (COUNT <= length (currentPositions a))%nat /\
  Forall (pinchFrame p Sample.viewport) fs /\
  exists a',
    frames fs a = Some a' /\
    let tx := - (posx p - 0.5) * width Sample.viewport in
    let ty := - (posy p - 0.5) * height Sample.viewport in
    let g := gposition (group a) in
    let g' := gposition (group a') in
    ptx g' - tx = 0.85 ^ length fs * (ptx g - tx) /\
    pty g' - ty = 0.85 ^ length fs * (pty g - ty) /\
    ptz g' = 0.85 ^ length fs * ptz g.
Proof.
  intros p f fs a.
  assert (Hlen : (COUNT <= length (currentPositions a))%nat).
  { unfold a, Sample.animator. cbn [currentPositions].
    rewrite repeat_length. lia. }
  assert (Hall : Forall (pinchFrame p Sample.viewport) fs).
  { apply Forall_forall. intros f0 Hf. apply repeat_spec in Hf. subst f0.
    repeat split. }
  split; [exact Hlen |]. split; [exact Hall |].
  exact (pinch_moves_group_towards_hand p Sample.viewport fs a Hlen Hall).
Defined.

(** During an explosion the group spins and does nothing else: after [n]
    exploding frames 0.2 * n has been added to the rotation about y and
    0.1 * n to the rotation about z, while the rotation about x, the
    position of the group and the remembered hand position are as before. *)
Theorem explosion_spins_group (fs : list Frame) (a : Animator) :
  (COUNT <= length (currentPositions a))%nat ->
  Forall (fun f => isExploding f = true) fs ->
  exists a',
    frames fs a = Some a' /\
    ptx (rotation (group a')) = ptx (rotation (group a)) /\
    pty (rotation (group a'))
    = pty (rotation (group a)) + 0.2 * INR (length fs) /\
    ptz (rotation (group a'))
    = ptz (rotation (group a)) + 0.1 * INR (length fs) /\
    gposition (group a') = gposition (group a) /\
    prevHandPos a' = prevHandPos a.
Proof.
  revert a. induction fs as [| f rest IH]; intros a Hlen Hall.
  - exists a. split; [reflexivity |]. cbn [length INR].
    repeat split; lra.
  - inversion Hall as [| f' rest' Hf Hrest]; subst.
    destruct (useFrame_defined f a Hlen) as [a1 Ha1].
    pose proof (useFrame_length f a a1 Ha1) as Hlen1.
    destruct (useFrame_inv f a a1 Ha1) as (_ & Hg & Hr & Hp).
    rewrite Hf in Hg, Hr, Hp.
    destruct (IH a1) as (a' & Ha' & Hx & Hy & Hz & Hg' & Hp');
      [lia | exact Hrest |].
    exists a'. split; [simpl; rewrite Ha1; exact Ha' |].
    rewrite Hr in Hx, Hy, Hz. cbn [ptx pty ptz] in Hx, Hy, Hz.
    change (length (f :: rest)) with (S (length rest)). rewrite S_INR.
    repeat split; try lra; congruence.
Qed.

Lemma explosion_spins_group_witness :
  let fs := repeat (Sample.frame [origin] HandController.noHand true) 30 in
  let a := Sample.animator (mkPoint3D 1 2 2) (Some (mkPoint2D 0.4 0.4)) in
  (COUNT <= length (currentPositions a))%nat /\
  Forall (fun f => isExploding f = true) fs /\
  exists a',
    frames fs a = Some a' /\
    ptx (rotation (group a')) = ptx (rotation (group a)) /\
    pty (rotation (group a'))
    = pty (rotation (group a)) + 0.2 * INR (length fs) /\
    ptz (rotation (group a'))
    = ptz (rotation (group a)) + 0.1 * INR (length fs) /\
    gposition (group a') = gposition (group a) /\
    prevHandPos a' = prevHandPos a.
Proof.
  intros fs a.
  assert (Hlen : (COUNT <= length (currentPositions a))%nat).
  { unfold a, Sample.animator. cbn [currentPositions].
    rewrite repeat_length. lia. }
  assert (Hall : Forall (fun f => isExploding f = true) fs).
  { apply Forall_forall. intros f0 Hf. apply repeat_spec in Hf. subst f0.
    reflexivity. }
  split; [exact Hlen |]. split; [exact Hall |].
  exact (explosion_spins_group fs a Hlen Hall).
Defined.

Lemma rotate_idle (f : Frame) (prev : option Point2D) (r : Point3D) :
  idleRotationFrame f ->
  rotate f prev r = mkPoint3D (ptx r) (pty r + 0.001) (ptz r).
Proof.
  intros (_ & Hidle). unfold rotate.
  assert (Hb : isDetected (handState f) && negb (isPinching (handState f))
               && JS.gtb (openness (handState f)) 0.6 = false).
  { destruct Hidle as [-> | [-> | Ho]].
    - reflexivity.
    - destruct (isDetected (handState f)); reflexivity.
    - assert (Hg : JS.gtb (openness (handState f)) 0.6 = false)
        by (apply ltb_ge; exact Ho).
      rewrite Hg.
      destruct (isDetected (handState f)), (isPinching (handState f));
        reflexivity. }
  rewrite Hb. reflexivity.
Qed.

(** Without a flat palm (no hand, a pinch, or openness at most 0.6) the
    group turns at a constant rate: after [n] steady-state frames 0.001 * n
    has been added to the rotation about y and the other two angles are as
    before. *)
Theorem idle_rotation_is_constant (fs : list Frame) (a : Animator) :
  (COUNT <= length (currentPositions a))%nat ->
  Forall idleRotationFrame fs ->
  exists a',
    frames fs a = Some a' /\
    ptx (rotation (group a')) = ptx (rotation (group a)) /\
    pty (rotation (group a'))
    = pty (rotation (group a)) + 0.001 * INR (length fs) /\
    ptz (rotation (group a')) = ptz (rotation (group a)).
Proof.
  revert a. induction fs as [| f rest IH]; intros a Hlen Hall.
  - exists a. split; [reflexivity |]. cbn [length INR].
    repeat split; lra.
  - inversion Hall as [| f' rest' Hf Hrest]; subst.
    destruct (useFrame_defined f a Hlen) as [a1 Ha1].
    pose proof (useFrame_length f a a1 Ha1) as Hlen1.
    destruct (useFrame_inv f a a1 Ha1) as (_ & _ & Hr & _).
    destruct Hf as (Hsteady & Hidle). rewrite Hsteady in Hr.
    rewrite (rotate_idle f _ _ (conj Hsteady Hidle)) in Hr.
    destruct (IH a1) as (a' & Ha' & Hx & Hy & Hz); [lia | exact Hrest |].
    exists a'. split; [simpl; rewrite Ha1; exact Ha' |].
    rewrite Hr in Hx, Hy, Hz. cbn [ptx pty ptz] in Hx, Hy, Hz.
    change (length (f :: rest)) with (S (length rest)). rewrite S_INR.
    repeat split; lra.
Qed.

Lemma idle_rotation_is_constant_witness :
  let fs := repeat (Sample.frame [origin] HandController.noHand false) 60 in
  let a := Sample.animator origin None in
  (COUNT <= length (currentPositions a))%nat /\
  Forall idleRotationFrame fs /\
  exists a',
    frames fs a = Some a' /\
    ptx (rotation (group a')) = ptx (rotation (group a)) /\
    pty (rotation (group a'))
    = pty (rotation (group a)) + 0.001 * INR (length fs) /\
    ptz (rotation (group a')) = ptz (rotation (group a)).
Proof.
  intros fs a.
  assert (Hlen : (COUNT <= length (currentPositions a))%nat).
  { unfold a, Sample.animator. cbn [currentPositions].
    rewrite repeat_length. lia. }
  assert (Hall : Forall idleRotationFrame fs).
  { apply Forall_forall. intros f0 Hf. apply repeat_spec in Hf. subst f0.
    split; [reflexivity | left; reflexivity]. }
  split; [exact Hlen |]. split; [exact Hall |].
  exact (idle_rotation_is_constant fs a Hlen Hall).
Defined.

End GroupFacts.

Section PalmSweep.

Import ParticleSystem.

Lemma last_after_head {A : Type} (l : list A) :
  forall a d : A, last (a :: l) d = last l a.
Proof.
  induction l as [| b l IH]; intros a d; [reflexivity |].
  change (last (a :: b :: l) d) with (last (b :: l) d).
  rewrite (IH b d), (IH b a). reflexivity.
Qed.

(** Sweeping a flat palm turns the group by the displacement of the hand:
    over consecutive flat-palm frames that follow a frame with a hand at
    [p0], the rotation about y has grown by 5 times the horizontal distance
    from [p0] to the last hand position and the rotation about x by 5 times
    the vertical distance, whatever path the hand took in between. *)
Theorem palm_sweep_tracks_displacement
        (fs : list Frame) (a : Animator) (p0 : Point2D) :
  (COUNT <= length (currentPositions a))%nat ->
  prevHandPos a = Some p0 ->
  Forall flatPalmFrame fs ->
  exists a',
    frames fs a = Some a' /\
    let e := last (map (fun f => position (handState f)) fs) p0 in
    prevHandPos a' = Some e /\
    ptx (rotation (group a'))
    = ptx (rotation (group a)) + 5.0 * (posy e - posy p0) /\
    pty (rotation (group a'))
    = pty (rotation (group a)) + 5.0 * (posx e - posx p0) /\
    ptz (rotation (group a')) = ptz (rotation (group a)).
Proof.
  revert a p0. induction fs as [| f rest IH]; intros a p0 Hlen Hprev Hall.
  - exists a. split; [reflexivity |]. cbn [map last].
    split; [exact Hprev |]. repeat split; lra.
  - inversion Hall as [| f' rest' Hf Hrest]; subst.
    destruct Hf as (Hsteady & Hd & Hp & Ho).
    destruct (useFrame_defined f a Hlen) as [a1 Ha1].
    pose proof (useFrame_length f a a1 Ha1) as Hlen1.
    destruct (useFrame_inv f a a1 Ha1) as (_ & _ & Hr & Hprev1).
    rewrite Hsteady in Hr, Hprev1. rewrite Hd in Hprev1.
    unfold rotate in Hr. rewrite Hd, Hp, Hprev in Hr.
    assert (Hb : JS.gtb (openness (handState f)) 0.6 = true)
      by (apply ltb_lt; exact Ho).
    rewrite Hb in Hr. cbn [andb negb] in Hr.
    destruct (IH a1 (position (handState f)))
      as (a' & Ha' & He & Hx & Hy & Hz); [lia | exact Hprev1 | exact Hrest |].
    exists a'. split; [simpl; rewrite Ha1; exact Ha' |].
    cbv zeta in He, Hx, Hy, Hz |- *.
    cbn [map]. rewrite last_after_head.
    set (e := last (map (fun f0 => position (handState f0)) rest)
                   (position (handState f))) in *.
    rewrite Hr in Hx, Hy, Hz. cbn [ptx pty ptz] in Hx, Hy, Hz.
    split; [exact He |]. repeat split; lra.
Qed.

Lemma palm_sweep_tracks_displacement_witness :
  let palm x y := mkHandState true (mkPoint2D x y) false 0.8 in
  let fs :=
    [Sample.frame [origin] (palm 0.5 0.5) false;
     Sample.frame [origin] (palm 0.7 0.4) false;
     Sample.frame [origin] (palm 0.6 0.6) false] in
  let p0 := mkPoint2D 0.4 0.5 in
  let a := Sample.animator origin (Some p0) in
  (COUNT <= length (currentPositions a))%nat /\
  prevHandPos a = Some p0 /\
  Forall flatPalmFrame fs /\
  exists a',
    frames fs a = Some a' /\
    let e := last (map (fun f => position (handState f)) fs) p0 in
    prevHandPos a' = Some e /\
    ptx (rotation (group a'))
    = ptx (rotation (group a)) + 5.0 * (posy e - posy p0) /\
    pty (rotation (group a'))
    = pty (rotation (group a)) + 5.0 * (posx e - posx p0) /\
    ptz (rotation (group a')) = ptz (rotation (group a)).
Proof.
  intros palm fs p0 a.
  assert (Hlen : (COUNT <= length (currentPositions a))%nat).
  { unfold a, Sample.animator. cbn [currentPositions].
    rewrite repeat_length. lia. }
  assert (Hall : Forall flatPalmFrame fs).
  { repeat constructor; simpl; lra. }
  split; [exact Hlen |]. split; [reflexivity |]. split; [exact Hall |].
  exact (palm_sweep_tracks_displacement fs a p0 Hlen eq_refl Hall).
Defined.

End PalmSweep.

(** ** ParticleSystem: the particles *)

Section ParticleFacts.

Import ParticleSystem.

Lemma explosionSpeed_pos (i : nat) : 0 < explosionSpeed i.
Proof.
  unfold explosionSpeed. pose proof (pos_INR (i mod 10)). nra.
Qed.

Lemma norm_scaled (s : R) (c c' : Point3D) :
  0 <= s ->
  ptx c' = s * ptx c -> pty c' = s * pty c -> ptz c' = s * ptz c ->
  norm c' = s * norm c.
Proof.
  intros Hs Hx Hy Hz. unfold norm. rewrite Hx, Hy, Hz.
  replace (s * ptx c * (s * ptx c) + s * pty c * (s * pty c)
           + s * ptz c * (s * ptz c))
    with (s * s * (ptx c * ptx c + pty c * pty c + ptz c * ptz c)) by ring.
  rewrite sqrt_mult; [| nra | nra].
  rewrite sqrt_square; [reflexivity | exact Hs].
Qed.

(** Over [n] exploding frames every coordinate of particle [i] is
    multiplied by [(1.08 * (1 + 0.004 * (i mod 10)))^n], and so is its
    distance from the origin: the particle moves along the ray from the
    origin through its starting point. *)
Theorem explosion_is_radial (fs : list Frame) (a : Animator) :
  (COUNT <= length (currentPositions a))%nat ->
  Forall (fun f => isExploding f = true) fs ->
  exists a',
    frames fs a = Some a' /\
    forall i c,
      (i < COUNT)%nat ->
      nth_error (currentPositions a) i = Some c ->
      exists c',
        nth_error (currentPositions a') i = Some c' /\
        let s := explosionSpeed i ^ length fs in
        ptx c' = s * ptx c /\ pty c' = s * pty c /\ ptz c' = s * ptz c /\
        norm c' = s * norm c.
Proof.
  revert a. induction fs as [| f rest IH]; intros a Hlen Hall.
  - exists a. split; [reflexivity |]. intros i c Hi Hc.
    exists c. split; [exact Hc |]. cbn [length pow]. repeat split; lra.
  - inversion Hall as [| f' rest' Hf Hrest]; subst.
    destruct (useFrame_defined f a Hlen) as [a1 Ha1].
    pose proof (useFrame_length f a a1 Ha1) as Hlen1.
    destruct (IH a1) as (a' & Ha' & Hparticles); [lia | exact Hrest |].
    exists a'. split; [simpl; rewrite Ha1; exact Ha' |].
    intros i c Hi Hc.
    pose proof (useFrame_particle f a a1 i c Ha1 Hi Hc) as Hc1.
    rewrite Hf in Hc1.
    destruct (Hparticles i _ Hi Hc1) as (c' & Hc' & Hx & Hy & Hz & _).
    exists c'. split; [exact Hc' |].
    cbv zeta in Hx, Hy, Hz |- *.
    unfold explode, baseSpeed in Hx, Hy, Hz. cbn [ptx pty ptz] in Hx, Hy, Hz.
    cbn [length pow].
    set (q := explosionSpeed i ^ length rest) in *.
    assert (Hs : 1.08 * (1.0 + INR (i mod 10) * 0.004) = explosionSpeed i)
      by (unfold explosionSpeed; lra).
    rewrite Hs in Hx, Hy, Hz.
    assert (Hcx : ptx c' = explosionSpeed i * q * ptx c) by (rewrite Hx; ring).
    assert (Hcy : pty c' = explosionSpeed i * q * pty c) by (rewrite Hy; ring).
    assert (Hcz : ptz c' = explosionSpeed i * q * ptz c) by (rewrite Hz; ring).
    split; [exact Hcx |]. split; [exact Hcy |]. split; [exact Hcz |].
    apply norm_scaled; try assumption.
    pose proof (explosionSpeed_pos i).
    assert (0 < q) by (apply pow_lt; assumption). nra.
Qed.

Lemma explosion_is_radial_witness :
  let fs := repeat (Sample.frame [origin] HandController.noHand true) 30 in
  let a := Sample.animator (mkPoint3D 1 2 2) None in
  (COUNT <= length (currentPositions a))%nat /\
  Forall (fun f => isExploding f = true) fs /\
  exists a',
    frames fs a = Some a' /\
    forall i c,
      (i < COUNT)%nat ->
      nth_error (currentPositions a) i = Some c ->
      exists c',
        nth_error (currentPositions a') i = Some c' /\
        let s := explosionSpeed i ^ length fs in
        ptx c' = s * ptx c /\ pty c' = s * pty c /\ ptz c' = s * ptz c /\
        norm c' = s * norm c.
Proof.
  intros fs a.
  assert (Hlen : (COUNT <= length (currentPositions a))%nat).
  { unfold a, Sample.animator. cbn [currentPositions].
    rewrite repeat_length. lia. }
  assert (Hall : Forall (fun f => isExploding f = true) fs).
  { apply Forall_forall. intros f0 Hf. apply repeat_spec in Hf. subst f0.
    reflexivity. }
  split; [exact Hlen |]. split; [exact Hall |].
  exact (explosion_is_radial fs a Hlen Hall).
Defined.

(** While a hand pinches, nothing is added to the blend: over [n] frames
    showing the same cloud, the offset of particle [i] from its target
    (taken at scale 1, the origin for an empty cloud) is exactly 0.9^n
    times the initial offset on each of the three axes. *)
Theorem pinch_blend_is_exact
        (cloud : list Point3D) (fs : list Frame) (a : Animator) :
  (COUNT <= length (currentPositions a))%nat ->
  Forall (pinchBlendFrame cloud) fs ->
  exists a',
    frames fs a = Some a' /\
    forall i c,
      (i < COUNT)%nat ->
      nth_error (currentPositions a) i = Some c ->
      exists c',
        nth_error (currentPositions a') i = Some c' /\
        let t := targetOf cloud i in
        ptx c' - ptx t = 0.9 ^ length fs * (ptx c - ptx t) /\
        pty c' - pty t = 0.9 ^ length fs * (pty c - pty t) /\
        ptz c' - ptz t = 0.9 ^ length fs * (ptz c - ptz t).
Proof.
  revert a. induction fs as [| f rest IH]; intros a Hlen Hall.
  - exists a. split; [reflexivity |]. intros i c Hi Hc.
    exists c. split; [exact Hc |]. cbn [length pow]. repeat split; lra.
  - inversion Hall as [| f' rest' Hf Hrest]; subst.
    destruct Hf as (Hsteady & Hd & Hp & Hcloud).
    destruct (useFrame_defined f a Hlen) as [a1 Ha1].
    pose proof (useFrame_length f a a1 Ha1) as Hlen1.
    destruct (IH a1) as (a' & Ha' & Hparticles); [lia | exact Hrest |].
    exists a'. split; [simpl; rewrite Ha1; exact Ha' |].
    intros i c Hi Hc.
    pose proof (useFrame_particle f a a1 i c Ha1 Hi Hc) as Hc1.
    rewrite Hsteady in Hc1.
    destruct (Hparticles i _ Hi Hc1) as (c' & Hc' & Hx & Hy & Hz).
    exists c'. split; [exact Hc' |].
    cbv zeta in Hx, Hy, Hz |- *.
    unfold blend, addLife, lerped, targetScaleOf, lerpSpeed, JS.lerp
      in Hx, Hy, Hz.
    rewrite Hd, Hp, Hcloud in Hx, Hy, Hz.
    cbn [andb ptx pty ptz] in Hx, Hy, Hz.
    cbn [length pow].
    set (q := 0.9 ^ length rest) in *.
    set (t := targetOf cloud i) in *.
    repeat split; nra.
Qed.

Lemma pinch_blend_is_exact_witness :
  let cloud := [mkPoint3D 1 1 1; mkPoint3D 0 1 0] in
  let h := mkHandState true (mkPoint2D 0.3 0.4) true 0.5 in
  let fs := repeat (Sample.frame cloud h false) 10 in
  let a := Sample.animator (mkPoint3D 2 0 1) None in
  (COUNT <= length (currentPositions a))%nat /\
  Forall (pinchBlendFrame cloud) fs /\
  exists a',
    frames fs a = Some a' /\
    forall i c,
      (i < COUNT)%nat ->
      nth_error (currentPositions a) i = Some c ->
      exists c',
        nth_error (currentPositions a') i = Some c' /\
        let t := targetOf cloud i in
        ptx c' - ptx t = 0.9 ^ length fs * (ptx c - ptx t) /\
        pty c' - pty t = 0.9 ^ length fs * (pty c - pty t) /\
        ptz c' - ptz t = 0.9 ^ length fs * (ptz c - ptz t).
Proof.
  intros cloud h fs a.
  assert (Hlen : (COUNT <= length (currentPositions a))%nat).
  { unfold a, Sample.animator. cbn [currentPositions].
    rewrite repeat_length. lia. }
  assert (Hall : Forall (pinchBlendFrame cloud) fs).
  { apply Forall_forall. intros f0 Hf. apply repeat_spec in Hf. subst f0.
    repeat split. }
  split; [exact Hlen |]. split; [exact Hall |].
  exact (pinch_blend_is_exact cloud fs a Hlen Hall).
Defined.

(** With a compressed hand (openness below 0.2) and random values in
    [[0, 1)], a frame leaves every coordinate of every particle within 0.025
    of the value of the blend towards the target scaled by
    [0.2 + 1.3 * openness]. *)
Theorem breathing_jitter_is_bounded (f : Frame) (a : Animator) :
  (COUNT <= length (currentPositions a))%nat ->
  breathingFrame f ->
  unitRandom (random f) ->
  exists a',
    useFrame f a = Some a' /\
    forall i c,
      (i < COUNT)%nat ->
      nth_error (currentPositions a) i = Some c ->
      exists c',
        nth_error (currentPositions a') i = Some c' /\
        let t := targetOf (targetPoints f) i in
        let k := 0.2 + openness (handState f) * 1.3 in
        Rabs (ptx c' - (0.9 * ptx c + 0.1 * (ptx t * k))) <= 0.025 /\
        Rabs (pty c' - (0.9 * pty c + 0.1 * (pty t * k))) <= 0.025 /\
        Rabs (ptz c' - (0.9 * ptz c + 0.1 * (ptz t * k))) <= 0.025.
Proof.
  intros Hlen (Hsteady & Hd & Hp & Ho) Hrand.
  destruct (useFrame_defined f a Hlen) as [a' Ha'].
  exists a'. split; [exact Ha' |].
  intros i c Hi Hc.
  pose proof (useFrame_particle f a a' i c Ha' Hi Hc) as Hc'.
  rewrite Hsteady in Hc'.
  eexists. split; [exact Hc' |]. cbv zeta.
  unfold blend, addLife, lerped, targetScaleOf, lerpSpeed, JS.lerp.
  assert (Hb : JS.ltb (openness (handState f)) 0.2 = true)
    by (apply ltb_lt; exact Ho).
  rewrite Hd, Hp, Hb. cbn [andb ptx pty ptz].
  pose proof (Hrand (3 * i)%nat) as H0.
  pose proof (Hrand (3 * i + 1)%nat) as H1.
  pose proof (Hrand (3 * i + 2)%nat) as H2.
  repeat split; apply Rabs_le; lra.
Qed.

Lemma breathing_jitter_is_bounded_witness :
  let h := mkHandState true (mkPoint2D 0.5 0.5) false 0.1 in
  let f := Sample.frame [mkPoint3D 1 1 1] h false in
  let a := Sample.animator (mkPoint3D 2 0 1) None in
  (COUNT <= length (currentPositions a))%nat /\
  breathingFrame f /\
  unitRandom (random f) /\
  exists a',
    useFrame f a = Some a' /\
    forall i c,
      (i < COUNT)%nat ->
      nth_error (currentPositions a) i = Some c ->
      exists c',
        nth_error (currentPositions a') i = Some c' /\
        let t := targetOf (targetPoints f) i in
        let k := 0.2 + openness (handState f) * 1.3 in
        Rabs (ptx c' - (0.9 * ptx c + 0.1 * (ptx t * k))) <= 0.025 /\
        Rabs (pty c' - (0.9 * pty c + 0.1 * (pty t * k))) <= 0.025 /\
        Rabs (ptz c' - (0.9 * ptz c + 0.1 * (ptz t * k))) <= 0.025.
Proof.
  intros h f a.
  assert (Hlen : (COUNT <= length (currentPositions a))%nat).
  { unfold a, Sample.animator. cbn [currentPositions].
    rewrite repeat_length. lia. }
  assert (Hb : breathingFrame f) by (repeat split; simpl; lra).
  assert (Hr : unitRandom (random f)) by (intros k; simpl; lra).
  split; [exact Hlen |]. split; [exact Hb |]. split; [exact Hr |].
  exact (breathing_jitter_is_bounded f a Hlen Hb Hr).
Defined.

End ParticleFacts.

(** ** ShapeGenerator *)

Section GeneratorLoops.

Import ShapeGenerator.

Variable random : nat -> R.

(** A loop of [n] passes appends [n] points to the list, the [j]-th of
    them made by the body at index [i + j]. *)
Lemma pushLoop_adds (body : nat -> Gen Point3D)
      (P : nat -> Point3D -> Prop) (n : nat) :
  forall (i : nat) (points : list Point3D) (k : nat),
    (forall j k', (i <= j < i + n)%nat -> P j (fst (body j k'))) ->
    exists added,
      fst (pushLoop body n i points k) = points ++ added /\
      length added = n /\
      forall j p, nth_error added j = Some p -> P (i + j)%nat p.
Proof.
  induction n as [| n IH]; intros i points k Hbody.
  - exists []. cbn [pushLoop ret fst]. rewrite app_nil_r.
    split; [reflexivity |]. split; [reflexivity |].
    intros j p Hj. destruct j; discriminate.
  - cbn [pushLoop]. unfold bind.
    pose proof (Hbody i k ltac:(lia)) as Hp.
    destruct (body i k) as [p k'].
    destruct (IH (S i) (points ++ [p]) k') as (added & Heq & Hlen & Hnth).
    { intros j k0 Hj. apply Hbody. lia. }
    exists (p :: added). rewrite Heq, <- app_assoc.
    split; [reflexivity |]. split; [simpl; lia |].
    intros j q Hj. destruct j as [| j]; simpl in Hj.
    + injection Hj as <-. rewrite Nat.add_0_r. exact Hp.
    + replace (i + S j)%nat with (S i + j)%nat by lia. apply Hnth. exact Hj.
Qed.

(** A loop on a real bound makes exactly the passes whose index is below
    the bound, provided the fuel is not exhausted first. *)
Lemma pushWhile_passes (bound : R) (body : nat -> Gen Point3D) (n : nat) :
  forall (fuel i : nat) (points : list Point3D) (k : nat),
    (forall j, (i <= j < i + n)%nat -> JS.ltb (INR j) bound = true) ->
    JS.ltb (INR (i + n)) bound = false ->
    (n < fuel)%nat ->
    pushWhile bound body fuel i points k = pushLoop body n i points k.
Proof.
  induction n as [| n IH]; intros fuel i points k Hin Hout Hfuel;
    (destruct fuel as [| fuel]; [lia |]); cbn [pushWhile pushLoop].
  - rewrite Nat.add_0_r in Hout. rewrite Hout. reflexivity.
  - rewrite (Hin i) by lia. unfold bind.
    destruct (body i k) as [p k'].
    apply IH; [| | lia].
    + intros j Hj. apply Hin. lia.
    + replace (S i + n)%nat with (i + S n)%nat by lia. exact Hout.
Qed.

Lemma INR_COUNT : INR COUNT = 1500.
Proof. rewrite INR_IZR_INZ. reflexivity. Qed.

Lemma below_INR (j n : nat) (bound : R) :
  bound = INR n ->
  JS.ltb (INR j) bound = (j <? n)%nat.
Proof.
  intros ->. destruct (Nat.ltb_spec j n) as [Hlt | Hge].
  - apply ltb_lt. apply lt_INR. exact Hlt.
  - apply ltb_ge. apply le_INR. exact Hge.
Qed.

Lemma planet_bound : INR COUNT * 0.4 = INR 600.
Proof.
  rewrite INR_COUNT, (INR_IZR_INZ 600).
  change (IZR (Z.of_nat 600)) with 600. lra.
Qed.

Lemma rings_bound : INR COUNT * 0.6 = INR 900.
Proof.
  rewrite INR_COUNT, (INR_IZR_INZ 900).
  change (IZR (Z.of_nat 900)) with 900. lra.
Qed.

(** The two loops of Saturn make 600 and 900 passes. *)
Lemma generate_Saturn (k : nat) :
  generate random Saturn k =
  (let (points, k') := pushLoop (planetPoint random) 600 0 [] k in
   pushLoop (ringPoint random) 900 0 points k').
Proof.
  cbn [generate]. unfold bind.
  rewrite (pushWhile_passes _ _ 600).
  - destruct (pushLoop (planetPoint random) 600 0 [] k) as [points k'].
    apply (pushWhile_passes _ _ 900).
    + intros j Hj. rewrite (below_INR j 900 _ rings_bound).
      apply Nat.ltb_lt. lia.
    + rewrite (below_INR _ 900 _ rings_bound). apply Nat.ltb_ge. lia.
    + unfold COUNT. lia.
  - intros j Hj. rewrite (below_INR j 600 _ planet_bound).
    apply Nat.ltb_lt. lia.
  - rewrite (below_INR _ 600 _ planet_bound). apply Nat.ltb_ge. lia.
  - unfold COUNT. lia.
Qed.

Lemma nth_all {A : Type} (Q : A -> Prop) (l : list A) :
  (forall j p, nth_error l j = Some p -> Q p) -> Forall Q l.
Proof.
  intros H. apply Forall_forall. intros p Hin.
  destruct (In_nth_error l p Hin) as [j Hj]. exact (H j p Hj).
Qed.

(** A loop of [COUNT] passes from the empty list returns [COUNT] points,
    each with the property the body guarantees. *)
Lemma pushLoop_all (body : nat -> Gen Point3D) (Q : Point3D -> Prop)
      (n k : nat) :
  (forall j k', Q (fst (body j k'))) ->
  length (fst (pushLoop body n 0 [] k)) = n /\
  Forall Q (fst (pushLoop body n 0 [] k)).
Proof.
  intros Hbody.
  destruct (pushLoop_adds body (fun _ => Q) n 0 [] k)
    as (added & Heq & Hlen & Hnth).
  { intros j k' _. apply Hbody. }
  rewrite Heq. cbn [app]. split; [exact Hlen |].
  apply nth_all. exact Hnth.
Qed.

End GeneratorLoops.

Section GeneratedShapes.

Import ShapeGenerator.

Variable random : nat -> R.

Lemma sin_cos_sq (x : R) : sin x * sin x + cos x * cos x = 1.
Proof. exact (sin2_cos2 x). Qed.

(** A point made by [onSphere] is at distance [r] from the origin, whatever
    the random values are. *)
Lemma onSphere_norm (r : R) (j k : nat) :
  0 <= r -> norm (fst (onSphere random r j k)) = r.
Proof.
  intros Hr. unfold onSphere, bind, mathRandom, ret. cbn [fst].
  set (theta := random k * PI * 2).
  set (phi := acos (random (S k) * 2 - 1)).
  unfold norm. cbn [ptx pty ptz].
  pose proof (sin_cos_sq theta) as Ht. pose proof (sin_cos_sq phi) as Hp.
  replace (r * sin phi * cos theta * (r * sin phi * cos theta)
           + r * sin phi * sin theta * (r * sin phi * sin theta)
           + r * cos phi * (r * cos phi))
    with (r * r * (sin phi * sin phi
                   * (sin theta * sin theta + cos theta * cos theta)
                   + cos phi * cos phi)) by ring.
  rewrite Ht, Rmult_1_r, Hp, Rmult_1_r.
  apply sqrt_square. exact Hr.
Qed.

(** Every shape is a cloud of exactly [COUNT] points, the size of the
    particle pool: particle [i] takes point [i] of the cloud as its target
    and no point is used twice. *)
Theorem generated_cloud_matches_pool (type : ShapeType) :
  let cloud := generateMathShape random type in
  length cloud = ParticleSystem.COUNT /\
  forall i,
    (i < ParticleSystem.COUNT)%nat ->
    nth_error cloud i = Some (ParticleSystem.targetOf cloud i).
Proof.
  cbv zeta.
  assert (Hlen : length (generateMathShape random type) = 1500%nat).
  { unfold generateMathShape.
    destruct type;
      try (cbn [generate];
           apply (pushLoop_all _ (fun _ => True)); intros; exact I).
    rewrite generate_Saturn.
    destruct (pushLoop_adds (planetPoint random) (fun _ _ => True)
                            600 0 [] 0%nat) as (planet & Hp & Hlp & _);
      [intros; exact I |].
    destruct (pushLoop (planetPoint random) 600 0 [] 0%nat) as [points k'].
    cbn [fst] in Hp.
    destruct (pushLoop_adds (ringPoint random) (fun _ _ => True)
                            900 0 points k') as (rings & Hr & Hlr & _);
      [intros; exact I |].
    rewrite Hr, Hp. cbn [app]. rewrite length_app. lia. }
  split; [exact Hlen |].
  intros i Hi.
  destruct (targetOf_wraps (generateMathShape random type) i) as [_ Hnth].
  rewrite Hlen in Hnth.
  rewrite Nat.mod_small in Hnth by exact Hi.
  apply Hnth. intros Hnil. rewrite Hnil in Hlen. discriminate.
Qed.

(** The sphere, and the two shapes that fall back to it because they have no
    formula of their own, consist of points at distance 1 from the origin,
    whatever the random values are. *)
Theorem sphere_points_are_on_unit_sphere :
  generateMathShape random Buddha = generateMathShape random Sphere /\
  generateMathShape random GeminiGenerated
  = generateMathShape random Sphere /\
  Forall (fun p => norm p = 1) (generateMathShape random Sphere).
Proof.
  split; [reflexivity |]. split; [reflexivity |].
  unfold generateMathShape. cbn [generate].
  apply pushLoop_all. intros j k'. apply onSphere_norm. lra.
Qed.

(** With random values in [[0, 1)], the cube lies in [[-1, 1)] on each
    axis. *)
Theorem cube_points_are_in_the_cube :
  unitRandom random ->
  Forall (fun p => -1 <= ptx p < 1 /\ -1 <= pty p < 1 /\ -1 <= ptz p < 1)
         (generateMathShape random Cube).
Proof.
  intros Hrand. unfold generateMathShape. cbn [generate].
  apply pushLoop_all. intros j k'.
  unfold cubePoint, bind, mathRandom, ret. cbn [fst ptx pty ptz].
  pose proof (Hrand k'). pose proof (Hrand (S k')).
  pose proof (Hrand (S (S k'))). lra.
Qed.

(** With random values in [[0, 1)], the fireworks lie strictly inside the
    unit ball. *)
Theorem fireworks_points_are_in_unit_ball :
  unitRandom random ->
  Forall (fun p => norm p < 1) (generateMathShape random Fireworks).
Proof.
  intros Hrand. unfold generateMathShape. cbn [generate].
  apply pushLoop_all. intros j k'.
  unfold fireworksPoint, bind, mathRandom, ret. cbn [fst].
  set (theta := random k' * PI * 2).
  set (phi := random (S k') * PI).
  set (r := random (S (S k'))).
  assert (Hr : 0 <= r < 1) by apply Hrand.
  unfold norm. cbn [ptx pty ptz].
  pose proof (sin_cos_sq theta) as Ht. pose proof (sin_cos_sq phi) as Hp.
  replace (r * sin phi * cos theta * (r * sin phi * cos theta)
           + r * sin phi * sin theta * (r * sin phi * sin theta)
           + r * cos phi * (r * cos phi))
    with (r * r * (sin phi * sin phi
                   * (sin theta * sin theta + cos theta * cos theta)
                   + cos phi * cos phi)) by ring.
  rewrite Ht, Rmult_1_r, Hp, Rmult_1_r.
  rewrite sqrt_square; lra.
Qed.

(** With random values in [[0, 1)], the heart lies within 0.8 of the
    origin on x, 1.05 on y and 0.125 on z. *)
Theorem heart_points_are_bounded :
  unitRandom random ->
  Forall (fun p => Rabs (ptx p) <= 0.8 /\ Rabs (pty p) <= 1.05 /\
                   Rabs (ptz p) <= 0.125)
         (generateMathShape random Heart).
Proof.
  intros Hrand. unfold generateMathShape. cbn [generate].
  apply pushLoop_all. intros j k'.
  unfold heartPoint, bind, mathRandom, ret. cbn [fst ptx pty ptz].
  set (t := random k' * PI * 2).
  pose proof (SIN_bound t) as Hs.
  pose proof (COS_bound t) as H1. pose proof (COS_bound (2 * t)) as H2.
  pose proof (COS_bound (3 * t)) as H3. pose proof (COS_bound (4 * t)) as H4.
  pose proof (Hrand (S (S k'))) as Hz.
  assert (Hcube : -1 <= sin t ^ 3 <= 1).
  { set (s := sin t) in *. cbn [pow]. split; nra. }
  repeat split; apply Rabs_le; lra.
Qed.

(** The flower is a spiral in the plane: point [i] is at distance at most
    [1.5 * sqrt (i / COUNT)] from the z axis, its x and y are fixed by [i]
    alone, and with random values in [[0, 1)] its z is within 0.25 of the
    plane. *)
Theorem flower_points_spiral_outwards (i : nat) :
  unitRandom random ->
  (i < COUNT)%nat ->
  exists p,
    nth_error (generateMathShape random Flower) i = Some p /\
    let theta := INR i * 2.39996 in
    let r := sqrt (INR i / INR COUNT) in
    ptx p = r * cos theta * (0.5 + 0.5 * sin (theta * 5)) * 1.5 /\
    pty p = r * sin theta * (0.5 + 0.5 * sin (theta * 5)) * 1.5 /\
    ptx p * ptx p + pty p * pty p <= 2.25 * (INR i / INR COUNT) /\
    Rabs (ptz p) <= 0.25.
Proof.
  intros Hrand Hi.
  unfold generateMathShape. cbn [generate].
  destruct (pushLoop_adds (flowerPoint random)
              (fun j q =>
                 ptx q = sqrt (INR j / INR COUNT) * cos (INR j * 2.39996)
                         * (0.5 + 0.5 * sin (INR j * 2.39996 * 5)) * 1.5 /\
                 pty q = sqrt (INR j / INR COUNT) * sin (INR j * 2.39996)
                         * (0.5 + 0.5 * sin (INR j * 2.39996 * 5)) * 1.5 /\
                 Rabs (ptz q) <= 0.25)
              COUNT 0 [] 0%nat) as (added & Heq & Hlen & Hall).
  { intros j k' _.
    unfold flowerPoint, bind, mathRandom, ret. cbn [fst ptx pty ptz].
    split; [reflexivity |]. split; [reflexivity |].
    pose proof (Hrand k'). apply Rabs_le. lra. }
  rewrite Heq. cbn [app].
  assert (Hnth : nth_error added i = Some (nth i added origin))
    by (apply nth_error_nth'; lia).
  exists (nth i added origin). split; [exact Hnth |].
  destruct (Hall i _ Hnth) as (Hx & Hy & Hz). cbn [Nat.add] in Hx, Hy.
  cbv zeta. split; [exact Hx |]. split; [exact Hy |].
  split; [| exact Hz].
  rewrite Hx, Hy.
  set (theta := INR i * 2.39996).
  set (q := INR i / INR COUNT).
  assert (Hq : 0 <= q).
  { unfold q. apply Rmult_le_pos; [apply pos_INR |].
    apply Rlt_le, Rinv_0_lt_compat. rewrite INR_COUNT. lra. }
  pose proof (sqrt_sqrt q Hq) as Hsq.
  pose proof (sin_cos_sq theta) as Ht.
  pose proof (SIN_bound (theta * 5)) as Hs.
  set (w := 0.5 + 0.5 * sin (theta * 5)) in *.
  assert (Hw : 0 <= w * w <= 1) by (unfold w; split; nra).
  clearbody w q theta.
  assert (Hsum :
            sqrt q * cos theta * w * 1.5 * (sqrt q * cos theta * w * 1.5)
            + sqrt q * sin theta * w * 1.5 * (sqrt q * sin theta * w * 1.5)
            = 2.25 * (sqrt q * sqrt q) * (w * w)
              * (sin theta * sin theta + cos theta * cos theta)) by lra.
  rewrite Hsum, Hsq, Ht. nra.
Qed.

(** Saturn is a planet of 600 points at distance 0.4 from the origin
    followed by 900 ring points; with random values in [[0, 1)] the ring
    points are between 0.6 and 1 from the y axis and within 0.025 of the
    plane [y = 0]. *)
Theorem saturn_is_planet_and_rings :
  unitRandom random ->
  exists planet rings,
    generateMathShape random Saturn = planet ++ rings /\
    length planet = 600%nat /\
    length rings = 900%nat /\
    Forall (fun p => norm p = 0.4) planet /\
    Forall (fun p => 0.36 <= ptx p * ptx p + ptz p * ptz p < 1 /\
                     Rabs (pty p) <= 0.025) rings.
Proof.
  intros Hrand. unfold generateMathShape. rewrite generate_Saturn.
  destruct (pushLoop_adds (planetPoint random)
              (fun _ p => norm p = 0.4) 600 0 [] 0%nat)
    as (planet & Hp & Hlp & Hallp).
  { intros j k' _. apply onSphere_norm. lra. }
  destruct (pushLoop (planetPoint random) 600 0 [] 0%nat) as [points k'].
  cbn [fst app] in Hp. subst points.
  destruct (pushLoop_adds (ringPoint random)
              (fun _ p => 0.36 <= ptx p * ptx p + ptz p * ptz p < 1 /\
                          Rabs (pty p) <= 0.025) 900 0 planet k')
    as (rings & Hr & Hlr & Hallr).
  { intros j k0 _.
    unfold ringPoint, bind, mathRandom, ret. cbn [fst ptx pty ptz].
    set (theta := random k0 * PI * 2).
    pose proof (Hrand (S k0)) as H2. pose proof (Hrand (S (S k0))) as H3.
    set (r := 0.6 + random (S k0) * 0.4) in *.
    pose proof (sin_cos_sq theta) as Ht.
    replace (r * cos theta * (r * cos theta)
             + r * sin theta * (r * sin theta))
      with (r * r * (sin theta * sin theta + cos theta * cos theta))
      by ring.
    rewrite Ht, Rmult_1_r.
    split; [unfold r; split; nra | apply Rabs_le; lra]. }
  exists planet, rings.
  split; [exact Hr |]. split; [exact Hlp |]. split; [exact Hlr |].
  split; apply nth_all; assumption.
Qed.

End GeneratedShapes.

Section GeneratedShapesWitnesses.

Import ShapeGenerator.

Let half : nat -> R := fun _ => 0.5.

Lemma half_unit : unitRandom half.
Proof. intros k. unfold half. lra. Qed.

Lemma cube_points_are_in_the_cube_witness :
  unitRandom (fun _ : nat => 0.5) /\
  Forall (fun p => -1 <= ptx p < 1 /\ -1 <= pty p < 1 /\ -1 <= ptz p < 1)
         (generateMathShape (fun _ : nat => 0.5) Cube).
Proof.
  split; [exact half_unit |].
  exact (cube_points_are_in_the_cube half half_unit).
Defined.

Lemma fireworks_points_are_in_unit_ball_witness :
  unitRandom (fun _ : nat => 0.5) /\
  Forall (fun p => norm p < 1)
         (generateMathShape (fun _ : nat => 0.5) Fireworks).
Proof.
  split; [exact half_unit |].
  exact (fireworks_points_are_in_unit_ball half half_unit).
Defined.

Lemma heart_points_are_bounded_witness :
  unitRandom (fun _ : nat => 0.5) /\
  Forall (fun p => Rabs (ptx p) <= 0.8 /\ Rabs (pty p) <= 1.05 /\
                   Rabs (ptz p) <= 0.125)
         (generateMathShape (fun _ : nat => 0.5) Heart).
Proof.
  split; [exact half_unit |].
  exact (heart_points_are_bounded half half_unit).
Defined.

Lemma flower_points_spiral_outwards_witness :
  unitRandom (fun _ : nat => 0.5) /\
  (700 < COUNT)%nat /\
  exists p,
    nth_error (generateMathShape (fun _ : nat => 0.5) Flower) 700 = Some p /\
    let theta := INR 700 * 2.39996 in
    let r := sqrt (INR 700 / INR COUNT) in
    ptx p = r * cos theta * (0.5 + 0.5 * sin (theta * 5)) * 1.5 /\
    pty p = r * sin theta * (0.5 + 0.5 * sin (theta * 5)) * 1.5 /\
    ptx p * ptx p + pty p * pty p <= 2.25 * (INR 700 / INR COUNT) /\
    Rabs (ptz p) <= 0.25.
Proof.
  assert (Hi : (700 < COUNT)%nat) by (unfold COUNT; lia).
  split; [exact half_unit |]. split; [exact Hi |].
  exact (flower_points_spiral_outwards half 700 half_unit Hi).
Defined.

Lemma saturn_is_planet_and_rings_witness :
  unitRandom (fun _ : nat => 0.5) /\
  exists planet rings,
    generateMathShape (fun _ : nat => 0.5) Saturn = planet ++ rings /\
    length planet = 600%nat /\
    length rings = 900%nat /\
    Forall (fun p => norm p = 0.4) planet /\
    Forall (fun p => 0.36 <= ptx p * ptx p + ptz p * ptz p < 1 /\
                     Rabs (pty p) <= 0.025) rings.
Proof.
  split; [exact half_unit |].
  exact (saturn_is_planet_and_rings half half_unit).
Defined.

End GeneratedShapesWitnesses.

(** ** The hand overlay *)

Section OverlayFacts.

Import HandOverlay.

Variables (landmarks : list Point3D) (w h : R).

Lemma mirrored_on_canvas (p : Point3D) :
  inImage p -> 0 <= w -> 0 <= h ->
  0 <= (1 - ptx p) * w <= w /\ 0 <= pty p * h <= h.
Proof.
  intros ((Hx0 & Hx1) & (Hy0 & Hy1)) Hw Hh. repeat split; nra.
Qed.

Lemma bones_step (i j : nat) (rest : list nat) :
  bones landmarks w h (i :: j :: rest) =
  (start <- nth_error landmarks i ;;
   stop <- nth_error landmarks j ;;
   ops <- bones landmarks w h (j :: rest) ;;
   Some (MoveTo ((1 - ptx start) * w) (pty start * h)
         :: LineTo ((1 - ptx stop) * w) (pty stop * h) :: ops)).
Proof. reflexivity. Qed.

(** A chain whose landmarks are all there is drawn with one segment per
    pair of consecutive landmarks. *)
Lemma bones_drawn (chain : list nat) :
  Forall (fun i => (i < length landmarks)%nat) chain ->
  exists ops,
    bones landmarks w h chain = Some ops /\
    length (filter isLineTo ops) = (length chain - 1)%nat /\
    length (filter isArc ops) = 0%nat /\
    (Forall inImage landmarks -> 0 <= w -> 0 <= h ->
     Forall (onCanvas w h) ops).
Proof.
  induction chain as [| i rest IH]; intros Hall.
  - exists []. repeat split; try reflexivity. intros; constructor.
  - inversion Hall as [| i' rest' Hi Hrest]; subst.
    destruct rest as [| j rest'].
    + exists []. repeat split; try reflexivity. intros; constructor.
    + destruct (IH Hrest) as (ops & Hops & Hlines & Harcs & Hcanvas).
      inversion Hrest as [| j' rest'' Hj _]; subst.
      rewrite bones_step.
      rewrite (nth_error_nth' landmarks origin Hi).
      rewrite (nth_error_nth' landmarks origin Hj).
      rewrite Hops. eexists. split; [reflexivity |].
      cbn [filter isLineTo isArc length]. rewrite Hlines, Harcs.
      split; [simpl; lia |]. split; [reflexivity |].
      intros Himg Hw Hh.
      assert (Hin : forall k, (k < length landmarks)%nat ->
                              inImage (nth k landmarks origin)).
      { intros k Hk. rewrite Forall_forall in Himg. apply Himg.
        apply nth_In. exact Hk. }
      constructor; [| constructor; [| exact (Hcanvas Himg Hw Hh)]];
        unfold onCanvas; cbn [drawnAt]; constructor; try constructor;
        cbn [fst snd]; apply mirrored_on_canvas; auto.
Qed.

(** A chain that names a landmark that is not there throws. *)
Lemma bones_missing (chain : list nat) :
  (2 <= length chain)%nat ->
  (exists i, In i chain /\ (length landmarks <= i)%nat) ->
  bones landmarks w h chain = None.
Proof.
  induction chain as [| i rest IH]; intros Hlen (bad & Hin & Hbad);
    [simpl in Hlen; lia |].
  destruct rest as [| j rest']; [simpl in Hlen; lia |].
  rewrite bones_step.
  destruct (nth_error landmarks i) as [start |] eqn:Ei; [| reflexivity].
  destruct (nth_error landmarks j) as [stop |] eqn:Ej; [| reflexivity].
  rewrite IH; [reflexivity | |].
  - destruct rest' as [| k rest''].
    + exfalso. destruct Hin as [<- | [<- | []]].
      * apply nth_error_None in Hbad. congruence.
      * apply nth_error_None in Hbad. congruence.
    + simpl. lia.
  - exists bad. split; [| exact Hbad].
    destruct Hin as [<- | Hin]; [| exact Hin].
    apply nth_error_None in Hbad. congruence.
Qed.

Lemma joints_drawn :
  length (filter isLineTo (joints landmarks w h)) = 0%nat /\
  length (filter isArc (joints landmarks w h)) = length landmarks /\
  (Forall inImage landmarks -> 0 <= w -> 0 <= h ->
   Forall (onCanvas w h) (joints landmarks w h)).
Proof.
  unfold joints. induction landmarks as [| lm rest (IHl & IHa & IHc)].
  - repeat split; try reflexivity. intros; constructor.
  - cbn [flat_map app filter isLineTo isArc length].
    split; [exact IHl |]. split; [rewrite IHa; reflexivity |].
    intros Himg Hw Hh.
    inversion Himg as [| lm' rest' Hlm Hrest]; subst.
    constructor; [unfold onCanvas; constructor |].
    constructor.
    { unfold onCanvas. cbn [drawnAt]. constructor; [| constructor].
      cbn [fst snd]. apply mirrored_on_canvas; assumption. }
    constructor; [unfold onCanvas; constructor |].
    exact (IHc Hrest Hw Hh).
Qed.

End OverlayFacts.

Section OverlayClaims.

Import HandOverlay.

Lemma chain_in_range (landmarks : list Point3D) (chain : list nat) :
  (21 <= length landmarks)%nat ->
  Forall (fun i => (i <= 20)%nat) chain ->
  Forall (fun i => (i < length landmarks)%nat) chain.
Proof.
  intros Hlen Hall. eapply Forall_impl; [| exact Hall].
  intros i Hi. simpl in Hi. lia.
Qed.

(** The overlay of a hand throws exactly when the hand has fewer than 21
    landmarks.  Otherwise it strokes 24 bones and fills one disc per
    landmark, and when the landmarks are inside the image every point it
    draws is on the canvas. *)
Theorem overlay_is_drawn_on_canvas (landmarks : list Point3D) (w h : R) :
  (drawHandOverlay landmarks w h = None <-> (length landmarks < 21)%nat) /\
  ((21 <= length landmarks)%nat ->
   exists ops,
     drawHandOverlay landmarks w h = Some ops /\
     length (filter isLineTo ops) = 24%nat /\
     length (filter isArc ops) = length landmarks /\
     (Forall inImage landmarks -> 0 <= w -> 0 <= h ->
      Forall (onCanvas w h) ops)).
Proof.
  assert (Hdrawn :
            (21 <= length landmarks)%nat ->
            exists ops,
              drawHandOverlay landmarks w h = Some ops /\
              length (filter isLineTo ops) = 24%nat /\
              length (filter isArc ops) = length landmarks /\
              (Forall inImage landmarks -> 0 <= w -> 0 <= h ->
               Forall (onCanvas w h) ops)).
  { intros Hlen.
    assert (Hok : forall chain,
               Forall (fun i => (i <= 20)%nat) chain ->
               Forall (fun i => (i < length landmarks)%nat) chain)
      by (intros chain; apply chain_in_range; exact Hlen).
    destruct (bones_drawn landmarks w h [0; 1; 2; 3; 4]%nat)
      as (o1 & E1 & L1 & A1 & C1);
      [apply Hok; repeat constructor; lia |].
    destruct (bones_drawn landmarks w h [0; 5; 6; 7; 8]%nat)
      as (o2 & E2 & L2 & A2 & C2);
      [apply Hok; repeat constructor; lia |].
    destruct (bones_drawn landmarks w h [0; 9; 10; 11; 12]%nat)
      as (o3 & E3 & L3 & A3 & C3);
      [apply Hok; repeat constructor; lia |].
    destruct (bones_drawn landmarks w h [0; 13; 14; 15; 16]%nat)
      as (o4 & E4 & L4 & A4 & C4);
      [apply Hok; repeat constructor; lia |].
    destruct (bones_drawn landmarks w h [0; 17; 18; 19; 20]%nat)
      as (o5 & E5 & L5 & A5 & C5);
      [apply Hok; repeat constructor; lia |].
    destruct (bones_drawn landmarks w h palm)
      as (o6 & E6 & L6 & A6 & C6);
      [apply Hok; unfold palm; repeat constructor; lia |].
    destruct (joints_drawn landmarks w h) as (Lj & Aj & Cj).
    unfold drawHandOverlay, fingers. cbn [allBones].
    rewrite E1, E2, E3, E4, E5, E6.
    eexists. split; [reflexivity |].
    cbn [app filter isLineTo isArc].
    repeat rewrite filter_app. repeat rewrite length_app.
    cbn [filter isLineTo isArc length].
    rewrite L1, L2, L3, L4, L5, L6, Lj, A1, A2, A3, A4, A5, A6, Aj.
    split; [simpl; lia |]. split; [simpl; lia |].
    intros Himg Hw Hh.
    repeat (constructor; [unfold onCanvas; constructor |]).
    repeat (apply Forall_app; split); auto.
    constructor; [unfold onCanvas; constructor | auto]. }
  split; [| exact Hdrawn].
  split.
  - intros Hnone.
    destruct (Nat.lt_ge_cases (length landmarks) 21) as [Hlt | Hge];
      [exact Hlt |].
    destruct (Hdrawn Hge) as (ops & Hops & _). congruence.
  - intros Hlt. unfold drawHandOverlay, fingers. cbn [allBones].
    destruct (bones landmarks w h [0; 1; 2; 3; 4]%nat); [| reflexivity].
    destruct (bones landmarks w h [0; 5; 6; 7; 8]%nat); [| reflexivity].
    destruct (bones landmarks w h [0; 9; 10; 11; 12]%nat); [| reflexivity].
    destruct (bones landmarks w h [0; 13; 14; 15; 16]%nat); [| reflexivity].
    rewrite (bones_missing landmarks w h [0; 17; 18; 19; 20]%nat);
      [reflexivity | simpl; lia |].
    exists 20%nat. split; [simpl; tauto | lia].
Qed.

Lemma overlay_is_drawn_on_canvas_witness :
  (21 <= length Sample.leftHand)%nat /\
  exists ops,
    drawHandOverlay Sample.leftHand 640 480 = Some ops /\
    length (filter isLineTo ops) = 24%nat /\
    length (filter isArc ops) = length Sample.leftHand /\
    (Forall inImage Sample.leftHand -> 0 <= 640 -> 0 <= 480 ->
     Forall (onCanvas 640 480) ops).
Proof.
  assert (Hlen : (21 <= length Sample.leftHand)%nat) by (simpl; lia).
  split; [exact Hlen |].
  destruct (overlay_is_drawn_on_canvas Sample.leftHand 640 480)
    as [_ Hdrawn].
  exact (Hdrawn Hlen).
Defined.

End OverlayClaims.

(** ** The whole callback: overlay, then logic *)

Section CallbackFacts.

Import HandController HandOverlay HandCallback.

Lemma drawHandOverlay_complete (hand : Hand) (w h : R) :
  complete hand -> exists ops, drawHandOverlay hand w h = Some ops.
Proof.
  intros Hlen. unfold complete in Hlen.
  assert (Hok : forall chain,
             Forall (fun i => (i <= 20)%nat) chain ->
             exists ops, bones hand w h chain = Some ops).
  { intros chain Hchain.
    destruct (bones_drawn hand w h chain) as (ops & Hops & _).
    - apply chain_in_range; assumption.
    - exists ops. exact Hops. }
  destruct (Hok [0; 1; 2; 3; 4]%nat) as (o1 & E1);
    [repeat constructor; lia |].
  destruct (Hok [0; 5; 6; 7; 8]%nat) as (o2 & E2);
    [repeat constructor; lia |].
  destruct (Hok [0; 9; 10; 11; 12]%nat) as (o3 & E3);
    [repeat constructor; lia |].
  destruct (Hok [0; 13; 14; 15; 16]%nat) as (o4 & E4);
    [repeat constructor; lia |].
  destruct (Hok [0; 17; 18; 19; 20]%nat) as (o5 & E5);
    [repeat constructor; lia |].
  destruct (Hok palm) as (o6 & E6);
    [unfold palm; repeat constructor; lia |].
  unfold drawHandOverlay, fingers. cbn [allBones].
  rewrite E1, E2, E3, E4, E5, E6. eexists. reflexivity.
Qed.

Lemma drawHandOverlay_short (hand : Hand) (w h : R) :
  (length hand < 21)%nat -> drawHandOverlay hand w h = None.
Proof.
  intros Hlt. unfold drawHandOverlay, fingers. cbn [allBones].
  destruct (bones hand w h [0; 1; 2; 3; 4]%nat); [| reflexivity].
  destruct (bones hand w h [0; 5; 6; 7; 8]%nat); [| reflexivity].
  destruct (bones hand w h [0; 9; 10; 11; 12]%nat); [| reflexivity].
  destruct (bones hand w h [0; 13; 14; 15; 16]%nat); [| reflexivity].
  rewrite (bones_missing hand w h [0; 17; 18; 19; 20]%nat);
    [reflexivity | simpl; lia |].
  exists 20%nat. split; [simpl; tauto |].
  apply Nat.lt_succ_r. exact Hlt.
Qed.

Lemma complete_or_short (hands : list Hand) :
  Forall complete hands \/
  Exists (fun hand => (length hand < 21)%nat) hands.
Proof.
  induction hands as [| hand rest [IH | IH]].
  - left. constructor.
  - destruct (Nat.lt_ge_cases (length hand) 21) as [Hlt | Hge].
    + right. constructor. exact Hlt.
    + left. constructor; assumption.
  - right. apply Exists_cons_tl. exact IH.
Qed.

Lemma complete_not_short (hands : list Hand) :
  Forall complete hands ->
  Exists (fun hand => (length hand < 21)%nat) hands -> False.
Proof.
  intros Hall Hex. apply Exists_exists in Hex.
  destruct Hex as (hand & Hin & Hlt).
  rewrite Forall_forall in Hall. specialize (Hall hand Hin).
  unfold complete in Hall. lia.
Qed.

(** The overlay of a frame is drawn to the end exactly when all its hands
    are complete. *)
Lemma drawOverlays_complete (w h : R) (hands : list Hand) :
  Forall complete hands -> exists ops, drawOverlays w h hands = Some ops.
Proof.
  induction 1 as [| hand rest Hhand _ (ops' & IH)].
  - exists []. reflexivity.
  - destruct (drawHandOverlay_complete hand w h Hhand) as (ops & Hops).
    cbn [drawOverlays]. rewrite Hops, IH. eexists. reflexivity.
Qed.

Lemma drawOverlays_short (w h : R) (hands : list Hand) :
  Exists (fun hand => (length hand < 21)%nat) hands ->
  drawOverlays w h hands = None.
Proof.
  induction 1 as [hand rest Hlt | hand rest _ IH]; cbn [drawOverlays].
  - rewrite (drawHandOverlay_short hand w h Hlt). reflexivity.
  - destruct (drawHandOverlay hand w h); [| reflexivity].
    rewrite IH. reflexivity.
Qed.

(** With no canvas, or with complete hands only, the callback is its
    logic. *)
Lemma callback_logic (canvas : option Canvas) (lastClap now : Z)
      (results : MPResults) :
  canvas = None \/ Forall complete (handsOf results) ->
  callback canvas lastClap now results = onResults lastClap now results.
Proof.
  intros H. unfold callback. fold (handsOf results).
  destruct canvas as [c |]; [| reflexivity].
  destruct H as [H | H]; [discriminate |].
  destruct (drawOverlays_complete (cwidth c) (cheight c) _ H) as (ops & ->).
  reflexivity.
Qed.

(** With a canvas, a hand that lacks a landmark stops the callback in the
    overlay. *)
Lemma callback_thrown (c : Canvas) (lastClap now : Z) (results : MPResults) :
  Exists (fun hand => (length hand < 21)%nat) (handsOf results) ->
  callback (Some c) lastClap now results = mkEffects lastClap false None.
Proof.
  intros H. unfold callback. fold (handsOf results).
  rewrite (drawOverlays_short _ _ _ H). reflexivity.
Qed.

Lemma callback_cases (canvas : option Canvas) (lastClap now : Z)
      (results : MPResults) :
  (clapped (callback canvas lastClap now results) = true /\
   lastClapTime (callback canvas lastClap now results) = now /\
   (1000 < now - lastClap)%Z) \/
  (clapped (callback canvas lastClap now results) = false /\
   lastClapTime (callback canvas lastClap now results) = lastClap).
Proof.
  destruct canvas as [c |].
  - destruct (complete_or_short (handsOf results)) as [H | H].
    + rewrite (callback_logic (Some c)) by (right; exact H).
      apply onResults_cases.
    + rewrite (callback_thrown c _ _ _ H). right. split; reflexivity.
  - rewrite (callback_logic None) by (left; reflexivity).
    apply onResults_cases.
Qed.

(** The callback sends the default state when the frame has no hand.  With
    a canvas it sends no state exactly when some hand of the frame has
    fewer than 21 landmarks (the overlay or the logic throws); without a
    canvas, exactly when the first hand has. *)
Theorem callback_sends_no_state_iff (lastClap now : Z) (results : MPResults) :
  (forall canvas,
      handsOf results = [] ->
      handUpdate (callback canvas lastClap now results) = Some noHand) /\
  (forall c,
      handUpdate (callback (Some c) lastClap now results) = None <->
      Exists (fun hand => (length hand < 21)%nat) (handsOf results)) /\
  (handUpdate (callback None lastClap now results) = None <->
   exists hand rest,
     handsOf results = hand :: rest /\ (length hand < 21)%nat).
Proof.
  assert (Hlogic :
            handUpdate (onResults lastClap now results) = None <->
            exists hand rest,
              handsOf results = hand :: rest /\ (length hand < 21)%nat).
  { rewrite logic_update_missing_iff. unfold handsOf.
    split; intros (hand & rest & Hh & Hlt); exists hand, rest.
    - rewrite Hh. split; [reflexivity | exact Hlt].
    - destruct (multiHandLandmarks results) as [hs |];
        [| discriminate].
      subst hs. split; [reflexivity | exact Hlt]. }
  split; [| split].
  - intros canvas Hnone.
    rewrite callback_logic by (right; rewrite Hnone; constructor).
    rewrite handUpdate_onResults. unfold handsOf in Hnone.
    destruct (multiHandLandmarks results) as [[| hand rest] |];
      [reflexivity | discriminate | reflexivity].
  - intros c. split.
    + intros Hnone.
      destruct (complete_or_short (handsOf results)) as [H | H];
        [| exact H].
      rewrite (callback_logic (Some c)) in Hnone by (right; exact H).
      apply Hlogic in Hnone. destruct Hnone as (hand & rest & Hh & Hlt).
      rewrite Hh. constructor. exact Hlt.
    + intros H. rewrite (callback_thrown c _ _ _ H). reflexivity.
  - rewrite (callback_logic None) by (left; reflexivity). exact Hlogic.
Qed.

Lemma callback_sends_no_state_iff_witness :
  let results := Sample.results [Sample.leftHand; [origin]] in
  let c := mkCanvas 640 480 in
  Exists (fun hand => (length hand < 21)%nat) (handsOf results) /\
  handUpdate (callback (Some c) 0 5000 results) = None.
Proof.
  intros results c.
  assert (H : Exists (fun hand => (length hand < 21)%nat)
                     (handsOf results)).
  { apply Exists_cons_tl. constructor. simpl. lia. }
  split; [exact H |].
  destruct (callback_sends_no_state_iff 0 5000 results) as (_ & Hiff & _).
  apply (Hiff c). exact H.
Defined.

(** For a frame whose hands are all complete, the callback sends a state
    whose position is the midpoint of thumb tip and index tip of the first
    hand while pinching and its palm centre (landmark 9) otherwise; when
    the landmarks of that hand are inside the image, so is the position. *)
Theorem callback_position
        (canvas : option Canvas) (lastClap now : Z)
        (hand : Hand) (rest : list Hand) :
  Forall complete (hand :: rest) ->
  exists s,
    handUpdate (callback canvas lastClap now
                         (mkResults (Some (hand :: rest)))) = Some s /\
    (isPinching s = true ->
     position s =
     mkPoint2D ((ptx (nth 4 hand origin) + ptx (nth 8 hand origin)) / 2)
               ((pty (nth 4 hand origin) + pty (nth 8 hand origin)) / 2)) /\
    (isPinching s = false ->
     position s =
     mkPoint2D (ptx (nth 9 hand origin)) (pty (nth 9 hand origin))) /\
    (Forall inImage hand ->
     0 <= posx (position s) <= 1 /\ 0 <= posy (position s) <= 1).
Proof.
  intros Hall.
  rewrite callback_logic by (right; exact Hall).
  inversion Hall as [| hand' rest' Hlen _]; subst. unfold complete in Hlen.
  rewrite handUpdate_onResults. cbn [multiHandLandmarks].
  rewrite (handStateOf_complete hand Hlen).
  eexists. split; [reflexivity |].
  cbn [isPinching position posx posy].
  assert (Hnth : Forall inImage hand ->
                 forall i, (i < 21)%nat -> inImage (nth i hand origin)).
  { intros Hin i Hi. rewrite Forall_forall in Hin. apply Hin.
    apply nth_In. lia. }
  destruct (JS.ltb _ 0.05).
  - split; [reflexivity |]. split; [discriminate |].
    intros Hin.
    destruct (Hnth Hin 4%nat ltac:(lia)) as (Hx4 & Hy4).
    destruct (Hnth Hin 8%nat ltac:(lia)) as (Hx8 & Hy8). lra.
  - split; [discriminate |]. split; [reflexivity |].
    intros Hin.
    destruct (Hnth Hin 9%nat ltac:(lia)) as (Hx9 & Hy9). lra.
Qed.

Lemma callback_position_witness :
  let hand :=
    Sample.hand (Sample.at2D 1.2 0.5) (Sample.at2D 0.3 0.3)
                (Sample.at2D 0.32 0.31) in
  let canvas := Some (mkCanvas 640 480) in
  Forall complete [hand; Sample.leftHand] /\
  exists s,
    handUpdate (callback canvas 0 5000
                         (mkResults (Some [hand; Sample.leftHand])))
    = Some s /\
    (isPinching s = true ->
     position s =
     mkPoint2D ((ptx (nth 4 hand origin) + ptx (nth 8 hand origin)) / 2)
               ((pty (nth 4 hand origin) + pty (nth 8 hand origin)) / 2)) /\
    (isPinching s = false ->
     position s =
     mkPoint2D (ptx (nth 9 hand origin)) (pty (nth 9 hand origin))) /\
    (Forall inImage hand ->
     0 <= posx (position s) <= 1 /\ 0 <= posy (position s) <= 1).
Proof.
  intros hand canvas.
  assert (Hall : Forall complete [hand; Sample.leftHand]).
  { repeat constructor; unfold complete; simpl; lia. }
  split; [exact Hall |].
  exact (callback_position canvas 0 5000 hand [Sample.leftHand] Hall).
Defined.

(** The callback calls [onClap()] exactly when the frame shows two hands
    with centroids less than 0.12 apart, more than 1000 ms have passed
    since the last call, and the overlay did not throw: there is no canvas
    or both hands have their 21 landmarks. *)
Theorem callback_fires_iff
        (canvas : option Canvas) (lastClap now : Z) (results : MPResults) :
  clapped (callback canvas lastClap now results) = true <->
  twoHandsClose results /\ (1000 < now - lastClap)%Z /\
  (canvas = None \/ Forall complete (handsOf results)).
Proof.
  split.
  - intros Hc.
    assert (Hov : canvas = None \/ Forall complete (handsOf results)).
    { destruct canvas as [c |]; [| left; reflexivity].
      destruct (complete_or_short (handsOf results)) as [H | H];
        [right; exact H |].
      rewrite (callback_thrown c _ _ _ H) in Hc. discriminate. }
    rewrite (callback_logic _ _ _ _ Hov) in Hc.
    apply logic_fires_iff in Hc. destruct Hc as [Hclose Hnow].
    repeat split; assumption.
  - intros (Hclose & Hnow & Hov).
    rewrite (callback_logic _ _ _ _ Hov).
    apply logic_fires_iff. split; assumption.
Qed.

End CallbackFacts.

(** ** The proximity trigger over runs of the callback *)

Section CallbackRuns.

Import HandController HandCallback.

Variable canvas : option Canvas.

Lemma callback_close_fires_iff (lastClap now : Z) (results : MPResults) :
  twoCompleteHandsClose results ->
  clapped (callback canvas lastClap now results) = true <->
  (1000 < now - lastClap)%Z.
Proof.
  intros [Hclose Hcomplete].
  rewrite callback_logic by (right; exact Hcomplete).
  rewrite logic_fires_iff. tauto.
Qed.

Lemma callback_run_fires_after (frames : list (Z * MPResults)) :
  forall (lastClap : Z) (j : nat) (fj : Z * MPResults) (ej : Effects),
    nth_error frames j = Some fj ->
    nth_error (run canvas lastClap frames) j = Some ej ->
    clapped ej = true ->
    (1000 < fst fj - lastClap)%Z.
Proof.
  induction frames as [| [now results] rest IH];
    intros lastClap j fj ej Hf He Hc.
  - destruct j; discriminate.
  - destruct (callback_cases canvas lastClap now results)
      as [(Hc0 & Hl & Hgt) | (Hc0 & Hl)];
      destruct j as [| j]; simpl in Hf, He.
    + injection Hf as <-. simpl. lia.
    + specialize (IH _ _ _ _ Hf He Hc). rewrite Hl in IH. lia.
    + injection Hf as <-. injection He as <-. congruence.
    + specialize (IH _ _ _ _ Hf He Hc). rewrite Hl in IH. exact IH.
Qed.

Lemma callback_run_fires_apart (frames : list (Z * MPResults)) :
  forall (lastClap : Z) (i j : nat) (fi fj : Z * MPResults)
         (ei ej : Effects),
    (i < j)%nat ->
    nth_error frames i = Some fi ->
    nth_error frames j = Some fj ->
    nth_error (run canvas lastClap frames) i = Some ei ->
    nth_error (run canvas lastClap frames) j = Some ej ->
    clapped ei = true ->
    clapped ej = true ->
    (1000 < fst fj - fst fi)%Z.
Proof.
  induction frames as [| [now results] rest IH];
    intros lastClap i j fi fj ei ej Hij Hfi Hfj Hei Hej Hci Hcj.
  - destruct i; discriminate.
  - destruct j as [| j]; [lia |].
    destruct i as [| i]; simpl in Hfi, Hfj, Hei, Hej.
    + injection Hfi as <-. injection Hei as <-. simpl.
      destruct (callback_cases canvas lastClap now results)
        as [(_ & Hl & _) | (Hc0 & _)]; [| congruence].
      pose proof (callback_run_fires_after rest _ _ _ _ Hfj Hej Hcj) as H.
      rewrite Hl in H. exact H.
    + eapply (IH _ i j); eauto. lia.
Qed.

(** C5, amended.  Over frames that all show exactly two hands, each with
    its 21 landmarks, with centroids less than 0.12 apart: the first frame
    fires the trigger if and only if more than 1000 ms separate it from
    the previous firing (at start-up the reference time is 0); any firing
    comes more than 1000 ms after the firing that preceded the frames; and
    two firings are always more than 1000 ms apart, so the trigger never
    fires twice within 1000 ms. *)
Theorem proximity_trigger_needs_a_quiet_second
        (lastClap : Z) (frames : list (Z * MPResults)) :
  Forall (fun fr => twoCompleteHandsClose (snd fr)) frames ->
  (forall now results rest,
      frames = (now, results) :: rest ->
      exists e,
        nth_error (run canvas lastClap frames) 0 = Some e /\
        (clapped e = true <-> (1000 < now - lastClap)%Z) /\
        (clapped e = true -> lastClapTime e = now)) /\
  (forall j fj ej,
      nth_error frames j = Some fj ->
      nth_error (run canvas lastClap frames) j = Some ej ->
      clapped ej = true ->
      (1000 < fst fj - lastClap)%Z) /\
  (forall i j fi fj ei ej,
      (i < j)%nat ->
      nth_error frames i = Some fi ->
      nth_error frames j = Some fj ->
      nth_error (run canvas lastClap frames) i = Some ei ->
      nth_error (run canvas lastClap frames) j = Some ej ->
      clapped ei = true ->
      clapped ej = true ->
      (1000 < fst fj - fst fi)%Z).
Proof.
  intros Hclose. split; [| split].
  - intros now results rest ->.
    inversion Hclose as [| fr l Hfr _]; subst. simpl in Hfr.
    exists (callback canvas lastClap now results).
    split; [reflexivity |].
    split; [exact (callback_close_fires_iff lastClap now results Hfr) |].
    intros Hc.
    destruct (callback_cases canvas lastClap now results)
      as [(_ & Hl & _) | (Hc0 & _)]; congruence.
  - intros j fj ej Hf He Hc.
    exact (callback_run_fires_after frames lastClap j fj ej Hf He Hc).
  - intros. eapply callback_run_fires_apart; eauto.
Qed.

End CallbackRuns.

Section CallbackRunsWitness.

Import HandController HandCallback.

Lemma closeHands_complete : twoCompleteHandsClose Sample.closeHands.
Proof.
  split; [exact closeHands_close |].
  repeat constructor; unfold complete; simpl; lia.
Qed.

Lemma proximity_trigger_needs_a_quiet_second_witness :
  let canvas := Some (mkCanvas 640 480) in
  let frames :=
    [(5000%Z, Sample.closeHands); (5400%Z, Sample.closeHands);
     (6100%Z, Sample.closeHands)] in
  Forall (fun fr => twoCompleteHandsClose (snd fr)) frames /\
  (forall now results rest,
      frames = (now, results) :: rest ->
      exists e,
        nth_error (run canvas 0 frames) 0 = Some e /\
        (clapped e = true <-> (1000 < now - 0)%Z) /\
        (clapped e = true -> lastClapTime e = now)) /\
  (forall j fj ej,
      nth_error frames j = Some fj ->
      nth_error (run canvas 0 frames) j = Some ej ->
      clapped ej = true ->
      (1000 < fst fj - 0)%Z) /\
  (forall i j fi fj ei ej,
      (i < j)%nat ->
      nth_error frames i = Some fi ->
      nth_error frames j = Some fj ->
      nth_error (run canvas 0 frames) i = Some ei ->
      nth_error (run canvas 0 frames) j = Some ej ->
      clapped ei = true ->
      clapped ej = true ->
      (1000 < fst fj - fst fi)%Z).
Proof.
  intros canvas frames.
  assert (Hclose : Forall (fun fr => twoCompleteHandsClose (snd fr)) frames).
  { repeat (constructor; [exact closeHands_complete |]). constructor. }
  split; [exact Hclose |].
  exact (proximity_trigger_needs_a_quiet_second canvas 0 frames Hclose).
Defined.

(** C5 fails as stated: two complete hands come together at 4500 (the
    trigger fires), part at 4700 and come together again at 5000.  The
    frames at 5000 and 5100 form a sequence in which two hands stay close,
    and the trigger does not fire on its first frame, nor on the next. *)
Lemma close_run_after_recent_firing_is_silent :
  let canvas := Some (mkCanvas 640 480) in
  let apart := Sample.results [Sample.leftHand] in
  twoCompleteHandsClose Sample.closeHands /\
  ~ twoHandsClose apart /\
  map clapped
      (run canvas 0 [(4500%Z, Sample.closeHands); (4700%Z, apart);
                     (5000%Z, Sample.closeHands);
                     (5100%Z, Sample.closeHands)])
  = [true; false; false; false].
Proof.
  intros canvas apart.
  pose proof closeHands_complete as Hc.
  split; [exact Hc |]. split.
  { intros (h1 & h2 & d & Hh & _). discriminate. }
  assert (H1 : clapped (callback canvas 0 4500 Sample.closeHands) = true)
    by (apply callback_close_fires_iff; [exact Hc | lia]).
  assert (H2 : callback canvas 4500 4700 apart
               = onResults 4500 4700 apart).
  { apply callback_logic. right.
    repeat constructor; unfold complete; simpl; lia. }
  assert (H3 : clapped (callback canvas 4500 5000 Sample.closeHands)
               = false).
  { destruct (clapped (callback canvas 4500 5000 Sample.closeHands))
      eqn:E; [| reflexivity].
    apply (callback_close_fires_iff canvas 4500 5000 _ Hc) in E. lia. }
  assert (H4 : clapped (callback canvas 4500 5100 Sample.closeHands)
               = false).
  { destruct (clapped (callback canvas 4500 5100 Sample.closeHands))
      eqn:E; [| reflexivity].
    apply (callback_close_fires_iff canvas 4500 5100 _ Hc) in E. lia. }
  cbn [run map].
  destruct (callback_cases canvas 0 4500 Sample.closeHands)
    as [(_ & -> & _) | (E & _)]; [| congruence].
  rewrite H1, H2.
  assert (H2' : onResults 4500 4700 apart
                = mkEffects 4500 false (handUpdate (onResults 4500 4700 apart)))
    by reflexivity.
  rewrite H2'. cbn [clapped lastClapTime].
  destruct (callback_cases canvas 4500 5000 Sample.closeHands)
    as [(E & _) | (_ & ->)]; [congruence |].
  rewrite H3, H4. reflexivity.
Qed.

End CallbackRunsWitness.

(** ** Explosion: how two particles separate *)

Section ExplosionSeparation.

Import ParticleSystem.

Lemma explosionSpeed_gt_1 (i : nat) : 1 < explosionSpeed i.
Proof. exact (speed_gt_1 i). Qed.

Lemma explosionSpeed_lt (i j : nat) :
  (i mod 10 < j mod 10)%nat -> explosionSpeed i < explosionSpeed j.
Proof. exact (speed_lt i j). Qed.

Lemma norm_explode_speed (i : nat) (c : Point3D) :
  norm (explode i c) = explosionSpeed i * norm c.
Proof. exact (norm_explode i c). Qed.

(** The distance of a particle from the origin after [n] exploding
    frames. *)
Lemma explosion_frames_norm (fs : list Frame) :
  forall a : Animator,
    (COUNT <= length (currentPositions a))%nat ->
    Forall (fun f => isExploding f = true) fs ->
    exists a',
      frames fs a = Some a' /\
      forall i c,
        (i < COUNT)%nat ->
        nth_error (currentPositions a) i = Some c ->
        exists c',
          nth_error (currentPositions a') i = Some c' /\
          norm c' = explosionSpeed i ^ length fs * norm c.
Proof.
  induction fs as [| f rest IH]; intros a Hlen Hall.
  - exists a. split; [reflexivity |]. intros i c Hi Hc.
    exists c. split; [exact Hc |]. cbn [length pow]. lra.
  - inversion Hall as [| f' rest' Hf Hrest]; subst.
    destruct (useFrame_defined f a Hlen) as [a1 Ha1].
    pose proof (useFrame_length f a a1 Ha1) as Hlen1.
    destruct (IH a1) as (a' & Ha' & Hparticles); [lia | exact Hrest |].
    exists a'. split; [simpl; rewrite Ha1; exact Ha' |].
    intros i c Hi Hc.
    pose proof (useFrame_particle f a a1 i c Ha1 Hi Hc) as Hc1.
    rewrite Hf in Hc1.
    destruct (Hparticles i _ Hi Hc1) as (c' & Hc' & Hn).
    exists c'. split; [exact Hc' |].
    rewrite Hn, norm_explode_speed. cbn [length pow]. ring.
Qed.

(** A power of a factor above 1 is at least 1. *)
Lemma pow_ge_1 (x : R) (n : nat) : 1 <= x -> 1 <= x ^ n.
Proof. intros Hx. apply pow_R1_Rle. exact Hx. Qed.

(** Distances growing at rates [si < sj] end up further apart than any
    bound, whatever they start from, as long as the faster one is not
    zero. *)
Lemma faster_growth_wins (si sj di dj M : R) :
  1 < si -> si < sj -> 0 <= di -> 0 < dj ->
  exists N : nat,
    forall n, (N <= n)%nat -> M < sj ^ n * dj - si ^ n * di.
Proof.
  intros Hsi Hsj Hdi Hdj.
  set (rho := sj / si).
  assert (Hrho : 1 < rho).
  { unfold rho. apply (Rmult_lt_reg_r si); [lra |].
    replace (sj / si * si) with sj by (field; lra). lra. }
  assert (Hsj' : sj = si * rho) by (unfold rho; field; lra).
  set (b := (di + Rabs M + 1) / dj).
  destruct (Pow_x_infinity rho) with (b := b) as [N HN].
  { rewrite Rabs_right; lra. }
  exists N. intros n Hn.
  specialize (HN n Hn).
  assert (Hpos : 0 < rho ^ n) by (apply pow_lt; lra).
  rewrite Rabs_right in HN by lra.
  assert (Hb : b * dj = di + Rabs M + 1) by (unfold b; field; lra).
  assert (Hq : di + Rabs M + 1 <= rho ^ n * dj) by nra.
  pose proof (pow_ge_1 si n ltac:(lra)) as Hp.
  pose proof (Rle_abs M) as HM. pose proof (Rabs_pos M) as HM0.
  rewrite Hsj', Rpow_mult_distr.
  set (p := si ^ n) in *. set (q := rho ^ n) in *.
  nra.
Qed.

(** C2, amended.  An exploding frame completes and multiplies the distance
    of particle [i] from the origin by 1.08 * (1 + 0.004 * (i mod 10)), a
    factor above 1: the distance of every particle that is not at the
    origin strictly increases, and a particle at the origin stays there.
    For two particles with [i mod 10 < j mod 10], the second not at the
    origin, the gap between the distance of the second and that of the
    first is after the frame more than the factor of the first times what
    it was; and over enough exploding frames it exceeds any bound. *)
Theorem explosion_separates_particles (a : Animator) :
  (COUNT <= length (currentPositions a))%nat ->
  (forall f,
      isExploding f = true ->
      exists a',
        useFrame f a = Some a' /\
        forall i ci,
          (i < COUNT)%nat ->
          nth_error (currentPositions a) i = Some ci ->
          exists ci',
            nth_error (currentPositions a') i = Some ci' /\
            1 < explosionSpeed i /\
            norm ci' = explosionSpeed i * norm ci /\
            (ci <> origin -> norm ci < norm ci') /\
            (ci = origin -> ci' = origin) /\
            forall j cj cj',
              (j < COUNT)%nat ->
              nth_error (currentPositions a) j = Some cj ->
              nth_error (currentPositions a') j = Some cj' ->
              (i mod 10 < j mod 10)%nat ->
              cj <> origin ->
              explosionSpeed i * (norm cj - norm ci)
              < norm cj' - norm ci') /\
  (forall i j ci cj,
      (i < COUNT)%nat ->
      (j < COUNT)%nat ->
      nth_error (currentPositions a) i = Some ci ->
      nth_error (currentPositions a) j = Some cj ->
      (i mod 10 < j mod 10)%nat ->
      cj <> origin ->
      forall M : R,
      exists N : nat,
        forall fs,
          Forall (fun f => isExploding f = true) fs ->
          (N <= length fs)%nat ->
          exists a' ci' cj',
            frames fs a = Some a' /\
            nth_error (currentPositions a') i = Some ci' /\
            nth_error (currentPositions a') j = Some cj' /\
            M < norm cj' - norm ci').
Proof.
  intros Hlen. split.
  - intros f Hexp.
    destruct (useFrame_defined f a Hlen) as [a' Ha'].
    exists a'. split; [exact Ha' |].
    intros i ci Hi Hci.
    pose proof (useFrame_particle f a a' i ci Ha' Hi Hci) as Hci'.
    rewrite Hexp in Hci'.
    exists (explode i ci). split; [exact Hci' |].
    pose proof (explosionSpeed_gt_1 i) as Hsi.
    split; [exact Hsi |]. split; [apply norm_explode_speed |].
    split; [| split].
    + intros Hne. rewrite norm_explode_speed.
      pose proof (norm_pos ci Hne). nra.
    + intros ->. apply explode_origin.
    + intros j cj cj' Hj Hcj Hcj' Hmod Hne.
      pose proof (useFrame_particle f a a' j cj Ha' Hj Hcj) as Hcj2.
      rewrite Hexp in Hcj2. rewrite Hcj' in Hcj2. injection Hcj2 as ->.
      rewrite !norm_explode_speed.
      pose proof (explosionSpeed_lt i j Hmod) as Hsij.
      pose proof (norm_pos cj Hne) as Hpj.
      nra.
  - intros i j ci cj Hi Hj Hci Hcj Hmod Hne M.
    destruct (faster_growth_wins (explosionSpeed i) (explosionSpeed j)
                                 (norm ci) (norm cj) M)
      as [N HN].
    + apply explosionSpeed_gt_1.
    + apply explosionSpeed_lt. exact Hmod.
    + apply norm_nonneg.
    + apply norm_pos. exact Hne.
    + exists N. intros fs Hall Hn.
      destruct (explosion_frames_norm fs a Hlen Hall) as (a' & Ha' & Hp).
      destruct (Hp i ci Hi Hci) as (ci' & Hci' & Hni).
      destruct (Hp j cj Hj Hcj) as (cj' & Hcj' & Hnj).
      exists a', ci', cj'.
      split; [exact Ha' |]. split; [exact Hci' |]. split; [exact Hcj' |].
      rewrite Hni, Hnj. apply HN. exact Hn.
Qed.

Lemma explosion_separates_particles_witness :
  let a :=
    mkAnimator unevenPool None (mkGroup origin origin) [] "#f43f5e"%string in
  (COUNT <= length (currentPositions a))%nat /\
  (forall f,
      isExploding f = true ->
      exists a',
        useFrame f a = Some a' /\
        forall i ci,
          (i < COUNT)%nat ->
          nth_error (currentPositions a) i = Some ci ->
          exists ci',
            nth_error (currentPositions a') i = Some ci' /\
            1 < explosionSpeed i /\
            norm ci' = explosionSpeed i * norm ci /\
            (ci <> origin -> norm ci < norm ci') /\
            (ci = origin -> ci' = origin) /\
            forall j cj cj',
              (j < COUNT)%nat ->
              nth_error (currentPositions a) j = Some cj ->
              nth_error (currentPositions a') j = Some cj' ->
              (i mod 10 < j mod 10)%nat ->
              cj <> origin ->
              explosionSpeed i * (norm cj - norm ci)
              < norm cj' - norm ci') /\
  (forall i j ci cj,
      (i < COUNT)%nat ->
      (j < COUNT)%nat ->
      nth_error (currentPositions a) i = Some ci ->
      nth_error (currentPositions a) j = Some cj ->
      (i mod 10 < j mod 10)%nat ->
      cj <> origin ->
      forall M : R,
      exists N : nat,
        forall fs,
          Forall (fun f => isExploding f = true) fs ->
          (N <= length fs)%nat ->
          exists a' ci' cj',
            frames fs a = Some a' /\
            nth_error (currentPositions a') i = Some ci' /\
            nth_error (currentPositions a') j = Some cj' /\
            M < norm cj' - norm ci').
Proof.
  intros a.
  assert (Hlen : (COUNT <= length (currentPositions a))%nat).
  { unfold a, unevenPool. cbn [currentPositions length].
    rewrite repeat_length. unfold COUNT. lia. }
  split; [exact Hlen |].
  exact (explosion_separates_particles a Hlen).
Defined.

Lemma norm_on_x_axis (x : R) : 0 <= x -> norm (mkPoint3D x 0 0) = x.
Proof.
  intros Hx. unfold norm. cbn [ptx pty ptz].
  replace (x * x + 0 * 0 + 0 * 0) with (x * x) by ring.
  apply sqrt_square. exact Hx.
Qed.

(** Particle 0 at (1.2, 0, 0) and particle 9 at (1, 0, 0) are 0.2 apart;
    after one exploding frame they are at (1.296, 0, 0) and
    (1.11888, 0, 0), 0.17712 apart: closer to each other, and closer in
    distance from the origin. *)
Lemma uneven_pair_gets_closer :
  let f := Sample.frame [origin] HandController.noHand true in
  let a :=
    mkAnimator unevenPool None (mkGroup origin origin) [] "#f43f5e"%string in
  exists a' p0 p9,
    useFrame f a = Some a' /\
    nth_error (currentPositions a) 0 = Some (mkPoint3D 1.2 0 0) /\
    nth_error (currentPositions a) 9 = Some (mkPoint3D 1 0 0) /\
    nth_error (currentPositions a') 0 = Some p0 /\
    nth_error (currentPositions a') 9 = Some p9 /\
    ptx p0 = 1.296 /\ pty p0 = 0 /\ ptz p0 = 0 /\
    ptx p9 = 1.11888 /\ pty p9 = 0 /\ ptz p9 = 0 /\
    norm (mkPoint3D 1.2 0 0) - norm (mkPoint3D 1 0 0) = 0.2 /\
    norm p0 - norm p9 = 0.17712.
Proof.
  intros f a.
  destruct (useFrame_defined f a) as [a' Ha'].
  { unfold a, unevenPool. cbn [currentPositions length].
    rewrite repeat_length. unfold COUNT. lia. }
  assert (H0 : nth_error (currentPositions a) 0 = Some (mkPoint3D 1.2 0 0))
    by reflexivity.
  assert (H9 : nth_error (currentPositions a) 9 = Some (mkPoint3D 1 0 0))
    by reflexivity.
  pose proof (useFrame_particle f a a' 0 _ Ha' ltac:(unfold COUNT; lia) H0)
    as H0'.
  pose proof (useFrame_particle f a a' 9 _ Ha' ltac:(unfold COUNT; lia) H9)
    as H9'.
  cbn [isExploding f Sample.frame] in H0', H9'.
  exists a', (explode 0 (mkPoint3D 1.2 0 0)), (explode 9 (mkPoint3D 1 0 0)).
  split; [exact Ha' |]. split; [exact H0 |]. split; [exact H9 |].
  split; [exact H0' |]. split; [exact H9' |].
  assert (E0 : explosionSpeed 0 = 1.08)
    by (unfold explosionSpeed; simpl; lra).
  assert (E9 : explosionSpeed 9 = 1.11888)
    by (unfold explosionSpeed; simpl; lra).
  assert (C0 : ptx (explode 0 (mkPoint3D 1.2 0 0)) = 1.296 /\
               pty (explode 0 (mkPoint3D 1.2 0 0)) = 0 /\
               ptz (explode 0 (mkPoint3D 1.2 0 0)) = 0).
  { unfold explode, baseSpeed. cbn [ptx pty ptz].
    change (0 mod 10)%nat with 0%nat. simpl. repeat split; lra. }
  assert (C9 : ptx (explode 9 (mkPoint3D 1 0 0)) = 1.11888 /\
               pty (explode 9 (mkPoint3D 1 0 0)) = 0 /\
               ptz (explode 9 (mkPoint3D 1 0 0)) = 0).
  { unfold explode, baseSpeed. cbn [ptx pty ptz].
    change (9 mod 10)%nat with 9%nat. simpl. repeat split; lra. }
  destruct C0 as (X0 & Y0 & Z0). destruct C9 as (X9 & Y9 & Z9).
  repeat (split; [assumption |]).
  split.
  - rewrite !norm_on_x_axis by lra. lra.
  - rewrite !norm_explode_speed, E0, E9.
    rewrite !norm_on_x_axis by lra. lra.
Qed.

(** C2 fails as stated, in both halves: particles at the origin never move,
    so their distance from the origin does not increase; and among
    particles away from the origin, a faster one that starts nearer the
    origin first closes in on a slower one. *)
Lemma explosion_does_not_always_separate :
  (let f := Sample.frame [origin] HandController.noHand true in
   let a := Sample.animator origin None in
   isExploding f = true /\
   exists a',
     useFrame f a = Some a' /\
     forall i,
       (i < COUNT)%nat ->
       nth_error (currentPositions a) i = Some origin /\
       nth_error (currentPositions a') i = Some origin /\
       norm origin = 0) /\
  (let f := Sample.frame [origin] HandController.noHand true in
   let a :=
     mkAnimator unevenPool None (mkGroup origin origin) []
                "#f43f5e"%string in
   exists a' p0 p9,
     useFrame f a = Some a' /\
     nth_error (currentPositions a) 0 = Some (mkPoint3D 1.2 0 0) /\
     nth_error (currentPositions a) 9 = Some (mkPoint3D 1 0 0) /\
     nth_error (currentPositions a') 0 = Some p0 /\
     nth_error (currentPositions a') 9 = Some p9 /\
     ptx p0 = 1.296 /\ pty p0 = 0 /\ ptz p0 = 0 /\
     ptx p9 = 1.11888 /\ pty p9 = 0 /\ ptz p9 = 0 /\
     norm (mkPoint3D 1.2 0 0) - norm (mkPoint3D 1 0 0) = 0.2 /\
     norm p0 - norm p9 = 0.17712).
Proof.
  split.
  - exact particles_at_origin_do_not_expand.
  - exact uneven_pair_gets_closer.
Qed.

End ExplosionSeparation.
